(** * ACN_2020 teaching notebooks: the analysis pipeline

    The repository consists of Jupyter notebooks that call the MNE and
    braindecode libraries.  Two of them are modelled here:

    - [mne_decoding_DL.ipynb]: load and filter the MNE sample recording, cut
      epochs with amplitude rejection, build a windowed dataset, set up a
      ShallowFBCSPNet and fit it;
    - [coherence_ITC_limo_data_practical_week_4.ipynb]: evoked responses,
      power and inter-trial coherence on the LIMO epochs.

    A notebook is a list of code cells run top to bottom by one kernel.
    Module [Py] is that kernel: its state is the global namespace (a Python
    dict, here a [gmap]) and the log of external routines entered so far; a
    cell is a list of statements, each a computation in the monad [Py.M].
    Name lookups, [del], imports and evaluation order are executed by the
    model; every routine of an external library is an oracle of the
    [Py.world] the notebook runs in.  Module [Decoding] has the cells of the
    first notebook in that form.

    Where a property depends on the data, the cell is written a second time
    on typed data: [Braindecode.setup_model], [MNE.load_and_prepare],
    [Limo.evokeds], [Limo.cell_power_itc].  The library routines these
    call ([raw.filter], [mne.Epochs], [tfr_morlet]) are not part of the
    repository; modules [MNE] and [TimeFrequency] model them from the
    specification of the pipeline.  The phase-coherence column of the LIMO
    metadata is float64: module [Float64] has its values as the kernel's
    binary64 numbers, NaN included. *)

From Stdlib Require Import String Ascii List ZArith QArith Qround Qminmax Lia Bool.
From Stdlib Require Import Reals Lra R_sqrt Sorted Permutation.
From Stdlib Require Floats.
From stdpp Require Import gmap strings list.

Local Open Scope string_scope.
Local Open Scope list_scope.

(** ** The Python kernel *)

Module Py.

(** The exceptions the model distinguishes.  [LibraryError] stands for
    whatever an external routine raises; the notebooks catch nothing. *)
Inductive exn : Type :=
| SyntaxError
| NameError (name : string)
| IndexError
| ImportError (module : string)
| LibraryError (routine : string).

(** Names resolved in the [builtins] module when the global namespace has no
    binding for them (Python 3.8), and the names an IPython kernel provides
    from the start.  [True], [False] and [None] are keywords, not names. *)
Definition builtins : list string :=
  [ "abs"; "all"; "any"; "ascii"; "bin"; "bool"; "breakpoint"; "bytearray";
    "bytes"; "callable"; "chr"; "classmethod"; "compile"; "complex";
    "delattr"; "dict"; "dir"; "divmod"; "enumerate"; "eval"; "exec";
    "filter"; "float"; "format"; "frozenset"; "getattr"; "globals";
    "hasattr"; "hash"; "help"; "hex"; "id"; "input"; "int"; "isinstance";
    "issubclass"; "iter"; "len"; "list"; "locals"; "map"; "max";
    "memoryview"; "min"; "next"; "object"; "oct"; "open"; "ord"; "pow";
    "print"; "property"; "range"; "repr"; "reversed"; "round"; "set";
    "setattr"; "slice"; "sorted"; "staticmethod"; "str"; "sum"; "super";
    "tuple"; "type"; "vars"; "zip"; "__import__"; "Ellipsis";
    "NotImplemented"; "__name__"; "__doc__"; "get_ipython"; "exit"; "quit" ].

(** Everything outside the notebook: literals, displays, the import system and
    the library routines.  [None] means the routine raised. *)
Record world (obj : Type) : Type := World {
  literal : string -> obj;
  builtin : string -> obj;
  display : string -> list obj -> obj;
  truthy : obj -> bool;
  iterate : obj -> option (list obj);
  import_module : string -> option obj;
  extern : string -> list obj -> option obj
}.

Arguments literal {obj} _ _.
Arguments builtin {obj} _ _.
Arguments display {obj} _ _ _.
Arguments truthy {obj} _ _.
Arguments iterate {obj} _ _.
Arguments import_module {obj} _ _.
Arguments extern {obj} _ _ _.

Record kernel (obj : Type) : Type := Kernel {
  ns : gmap string obj;
  calls : list string
}.

Arguments Kernel {obj} _ _.
Arguments ns {obj} _.
Arguments calls {obj} _.

Definition fresh {obj : Type} : kernel obj := Kernel ∅ [].

(** State is kept when an exception is raised: the bindings a cell made
    before it failed stay in the namespace. *)
Definition M (obj A : Type) : Type := kernel obj -> (exn + A) * kernel obj.

Definition ret {obj A : Type} (a : A) : M obj A := fun k => (inr a, k).

Definition bind {obj A B : Type} (m : M obj A) (f : A -> M obj B) : M obj B :=
  fun k =>
    match m k with
    | (inl e, k') => (inl e, k')
    | (inr a, k') => f a k'
    end.

Definition raise {obj A : Type} (e : exn) : M obj A := fun k => (inl e, k).

Declare Scope py_scope.
Delimit Scope py_scope with py.
Notation "'let*' x := m 'in' f" := (bind m (fun x => f))
  (at level 10, x name, m at level 100, f at level 200) : py_scope.
Notation "m1 ;; m2" := (bind m1 (fun _ => m2))
  (at level 100, m2 at level 200, right associativity) : py_scope.

Local Open Scope py_scope.

Section Kernel.
Context {obj : Type} (w : world obj).

(** *** Names *)

Definition load (x : string) : M obj obj := fun k =>
  match ns k !! x with
  | Some o => (inr o, k)
  | None =>
      if bool_decide (x ∈ builtins) then (inr (builtin w x), k)
      else (inl (NameError x), k)
  end.

Definition store (x : string) (o : obj) : M obj unit := fun k =>
  (inr tt, Kernel (<[x := o]> (ns k)) (calls k)).

Definition del (x : string) : M obj unit := fun k =>
  match ns k !! x with
  | Some _ => (inr tt, Kernel (delete x (ns k)) (calls k))
  | None => (inl (NameError x), k)
  end.

(** *** External routines *)

Definition external (op : string) (args : list obj) : M obj obj := fun k =>
  let k' := Kernel (ns k) (op :: calls k) in
  match extern w op args with
  | Some o => (inr o, k')
  | None => (inl (LibraryError op), k')
  end.

(** *** Expressions: operands are evaluated left to right *)

Fixpoint eval_all (es : list (M obj obj)) : M obj (list obj) :=
  match es with
  | [] => ret []
  | e :: es' => let* v := e in let* vs := eval_all es' in ret (v :: vs)
  end.

Definition name (x : string) : M obj obj := load x.

Definition lit (text : string) : M obj obj := ret (literal w text).

Definition kw (key : string) (e : M obj obj) : M obj obj := e.

Definition tuple (es : list (M obj obj)) : M obj obj :=
  let* vs := eval_all es in ret (display w "tuple" vs).

Definition list_ (es : list (M obj obj)) : M obj obj :=
  let* vs := eval_all es in ret (display w "list" vs).

Definition dict_ (es : list (M obj obj)) : M obj obj :=
  let* vs := eval_all es in ret (display w "dict" vs).

Definition attr (e : M obj obj) (a : string) : M obj obj :=
  let* o := e in external ("." +:+ a) [o].

Definition item (e : M obj obj) (idx : list (M obj obj)) : M obj obj :=
  let* o := e in let* ixs := eval_all idx in external "[]" (o :: ixs).

Definition binop (op : string) (l r : M obj obj) : M obj obj :=
  let* a := l in let* b := r in external op [a; b].

(** [f(args)] for a global [f], logged under the name [f]. *)
Definition call (f : string) (args : list (M obj obj)) : M obj obj :=
  let* fo := load f in
  let* vs := eval_all args in
  external (f +:+ "()") (fo :: vs).

(** [recv.m(args)], logged as [.m()]. *)
Definition method (recv : M obj obj) (m : string) (args : list (M obj obj)) : M obj obj :=
  let* fo := attr recv m in
  let* vs := eval_all args in
  external ("." +:+ m +:+ "()") (fo :: vs).

(** *** Statements *)

Definition expr_stmt (e : M obj obj) : M obj unit := e ;; ret tt.

Definition assign (x : string) (e : M obj obj) : M obj unit :=
  let* o := e in store x o.

Fixpoint store_all (xs : list string) (vs : list obj) : M obj unit :=
  match xs, vs with
  | x :: xs', v :: vs' => store x v ;; store_all xs' vs'
  | _, _ => ret tt
  end.

(** [x1, ..., xn = e1, ..., en]: the right-hand side is evaluated first. *)
Definition assign_tuple (xs : list string) (es : list (M obj obj)) : M obj unit :=
  let* vs := eval_all es in store_all xs vs.

(** [x1, ..., xn = e] with [e] unpacked by iteration. *)
Definition assign_unpack (xs : list string) (e : M obj obj) : M obj unit :=
  let* o := e in
  match iterate w o with
  | Some vs => if Nat.eqb (length vs) (length xs) then store_all xs vs
               else raise (LibraryError "unpack")
  | None => raise (LibraryError "unpack")
  end.

Definition set_attr (e : M obj obj) (a : string) (v : M obj obj) : M obj unit :=
  let* o := e in let* x := v in external ("." +:+ a +:+ "=") [o; x] ;; ret tt.

(** [c[i] op= e]. *)
Definition aug_assign_item (c i : M obj obj) (op : string) (e : M obj obj) : M obj unit :=
  let* co := c in
  let* io := i in
  let* old := external "[]" [co; io] in
  let* r := e in
  let* new := external op [old; r] in
  external "[]=" [co; io; new] ;; ret tt.

Definition import_as (module x : string) : M obj unit := fun k =>
  match import_module w module with
  | Some o => store x o k
  | None => (inl (ImportError module), k)
  end.

Fixpoint from_import (module : string) (names : list string) : M obj unit :=
  match names with
  | [] => ret tt
  | x :: names' =>
      import_as (module +:+ "." +:+ x) x ;; from_import module names'
  end.

Fixpoint exec (stmts : list (M obj unit)) : M obj unit :=
  match stmts with
  | [] => ret tt
  | s :: stmts' => s ;; exec stmts'
  end.

Definition if_ (c : M obj obj) (body : list (M obj unit)) : M obj unit :=
  let* o := c in if truthy w o then exec body else ret tt.

(** [[e for x in it]]; in Python 3 the loop variable is local to the
    comprehension, so the binding of [x] is undone afterwards. *)
Fixpoint comprehension_loop (x : string) (e : M obj obj) (vs : list obj) : M obj (list obj) :=
  match vs with
  | [] => ret []
  | v :: vs' =>
      let* _ := store x v in
      let* r := e in
      let* rs := comprehension_loop x e vs' in
      ret (r :: rs)
  end.

Definition comprehension (e : M obj obj) (x : string) (it : M obj obj) : M obj obj :=
  let* o := it in
  match iterate w o with
  | None => raise (LibraryError "iter")
  | Some vs =>
      fun k =>
        let saved := ns k !! x in
        match comprehension_loop x e vs k with
        | (inl err, k') => (inl err, k')
        | (inr rs, k') =>
            let ns' := match saved with
                       | Some old => <[x := old]> (ns k')
                       | None => delete x (ns k')
                       end in
            (inr (display w "list" rs), Kernel ns' (calls k'))
        end
  end.

(** *** Cells and "Run All" *)

(** A line magic or shell escape; a shell command that exits non-zero raises
    nothing. *)
Definition shell (cmd : string) : M obj unit := fun k =>
  (inr tt, Kernel (ns k) (("!" +:+ cmd) :: calls k)).

Definition magic (line : string) : M obj unit :=
  external ("%" +:+ line) [] ;; ret tt.

Definition cell : Type := list (M obj unit).

(** Cells run in order; the first cell that raises stops the run.  The result
    names the failing cell (counting code cells from 0) and its exception. *)
Fixpoint run_from (i : nat) (cells : list cell) (k : kernel obj)
  : option (nat * exn) * kernel obj :=
  match cells with
  | [] => (None, k)
  | c :: cells' =>
      match exec c k with
      | (inl e, k') => (Some (i, e), k')
      | (inr _, k') => run_from (S i) cells' k'
      end
  end.

Definition run_all (cells : list cell) : option (nat * exn) * kernel obj :=
  run_from 0 cells fresh.

(** [after m k K]: the outcome of running [m] from kernel state [k]
    satisfies [K].  Proofs about a run go through the rules for [after]
    proved below, one per primitive. *)
Definition after {A : Type} (m : M obj A) (k : kernel obj)
  (K : (exn + A) * kernel obj -> Prop) : Prop := K (m k).

End Kernel.

Arguments cell : clear implicits.
Arguments shell {obj} _ _.

End Py.

(** ** The decoding notebook, cell by cell

    String literals written with double quotes in the source appear here with
    single quotes; Python does not distinguish the two. *)

Module Decoding.
Import Py.
Local Open Scope py_scope.

Section Cells.
Context {obj : Type} (w : world obj).

Local Abbreviation name := (name w).
Local Abbreviation lit := (lit w).
Local Abbreviation call := (call w).
Local Abbreviation method := (method w).
Local Abbreviation attr := (attr w).
Local Abbreviation item := (item w).
Local Abbreviation binop := (binop w).
Local Abbreviation tuple := (tuple w).
Local Abbreviation list_ := (list_ w).
Local Abbreviation dict_ := (dict_ w).
Local Abbreviation import_as := (import_as w).
Local Abbreviation from_import := (from_import w).
Local Abbreviation cell := (cell obj).

(** [a if c else b] *)
Definition if_else (a c b : M obj obj) : M obj obj :=
  let* o := c in if truthy w o then a else b.

Definition cell_pip : cell :=
  [ shell "pip install mne braindecode" ].

Definition cell_matplotlib : cell :=
  [ magic w "matplotlib inline" ].

Definition cell_load_and_prepare : cell :=
  [ import_as "numpy" "np";
    import_as "matplotlib.pyplot" "plt";
    from_import "sklearn.pipeline" ["make_pipeline"];
    from_import "sklearn.preprocessing" ["StandardScaler"];
    from_import "sklearn.linear_model" ["LogisticRegression"];
    import_as "mne" "mne";
    from_import "mne.datasets" ["sample"];
    from_import "mne.decoding"
      ["SlidingEstimator"; "GeneralizingEstimator"; "Scaler";
       "cross_val_multiscore"; "LinearModel"; "get_coef";
       "Vectorizer"; "CSP"];
    assign "data_path" (method (name "sample") "data_path" []);
    assign "subjects_dir" (binop "+" (name "data_path") (lit "'/subjects'"));
    assign "raw_fname"
      (binop "+" (name "data_path") (lit "'/MEG/sample/sample_audvis_raw.fif'"));
    assign_tuple ["tmin"; "tmax"] [lit "-0.200"; lit "0.700"];
    assign "event_id"
      (dict_ [lit "'Auditory/Left'"; lit "1"; lit "'Auditory/Right'"; lit "2";
              lit "'Visual/Left'"; lit "3"; lit "'Visual/Right'"; lit "4"]);
    assign "raw"
      (method (attr (name "mne") "io") "read_raw_fif"
         [name "raw_fname"; kw "preload" (lit "True")]);
    expr_stmt (method (name "raw") "filter" [lit "2"; lit "40"]);
    assign "events" (method (name "mne") "find_events" [name "raw"]);
    aug_assign_item w (attr (name "raw") "info") (lit "'bads'") "+="
      (list_ [lit "'MEG 2443'"; lit "'EEG 053'"]);
    assign "epochs"
      (method (name "mne") "Epochs"
         [name "raw"; name "events"; name "event_id"; name "tmin"; name "tmax";
          kw "proj" (lit "True");
          kw "picks" (tuple [lit "'eeg'"; lit "'eog'"]);
          kw "baseline" (tuple [lit "None"; lit "0."]);
          kw "preload" (lit "True");
          kw "reject" (call "dict" [kw "eeg" (lit "150e-6"); kw "eog" (lit "150e-6")]);
          kw "decim" (lit "1")]);
    expr_stmt (method (name "epochs") "pick_types"
                 [kw "meg" (lit "False"); kw "eeg" (lit "True");
                  kw "exclude" (lit "'bads'")]);
    del "raw" ].

Definition cell_import_create_from_X_y : cell :=
  [ from_import "braindecode.datasets" ["create_from_X_y"] ].

Definition cell_sfreq_ch_names : cell :=
  [ assign "sfreq" (item (attr (name "epochs") "info") [lit "'sfreq'"]);
    assign "ch_names" (item (attr (name "epochs") "info") [lit "'ch_names'"]) ].

Definition cell_windows_dataset : cell :=
  [ assign "windows_dataset"
      (call "create_from_X_y"
         [item (name "X") [lit ":"; lit ":-1"; lit ":"];
          name "y";
          kw "drop_last_window" (lit "False");
          kw "sfreq" (name "sfreq");
          kw "ch_names" (item (name "ch_names") [lit ":-1"])]) ].

Definition cell_setup_model : cell :=
  [ import_as "torch" "torch";
    from_import "braindecode.util" ["set_random_seeds"];
    from_import "braindecode.models" ["ShallowFBCSPNet"];
    assign "cuda" (method (attr (name "torch") "cuda") "is_available" []);
    assign "device" (if_else (lit "'cuda'") (name "cuda") (lit "'cpu'"));
    if_ w (name "cuda")
      [ set_attr w (attr (attr (name "torch") "backends") "cudnn") "benchmark"
          (lit "True") ];
    assign "seed" (lit "20200220");
    expr_stmt (call "set_random_seeds"
                 [kw "seed" (name "seed"); kw "cuda" (name "cuda")]);
    assign "n_classes" (lit "4");
    assign "n_chans"
      (item (attr (item (item (name "windows_dataset") [lit "0"]) [lit "0"]) "shape")
         [lit "0"]);
    assign "input_window_samples"
      (item (attr (item (item (name "windows_dataset") [lit "0"]) [lit "0"]) "shape")
         [lit "1"]);
    assign "model"
      (call "ShallowFBCSPNet"
         [name "n_chans"; name "n_classes";
          kw "input_window_samples" (name "input_window_samples");
          kw "final_conv_length" (lit "'auto'")]) ].

Definition cell_fit : cell :=
  [ import_as "skorch" "skorch";
    from_import "skorch.callbacks" ["LRScheduler"];
    from_import "braindecode" ["EEGClassifier"];
    assign "lr" (binop "*" (lit "0.0625") (lit "0.01"));
    assign "weight_decay" (lit "0");
    assign "batch_size" (lit "16");
    assign "n_epochs" (lit "10");
    assign "clf"
      (call "EEGClassifier"
         [name "model";
          kw "criterion" (attr (attr (name "torch") "nn") "NLLLoss");
          kw "optimizer" (attr (attr (name "torch") "optim") "Adam");
          kw "train_split"
            (method (attr (name "skorch") "dataset") "CVSplit"
               [kw "cv" (lit "10"); kw "stratified" (lit "True");
                kw "random_state" (lit "320")]);
          kw "optimizer__lr" (name "lr");
          kw "optimizer__weight_decay" (name "weight_decay");
          kw "batch_size" (name "batch_size");
          kw "callbacks"
            (list_ [lit "'accuracy'";
                    tuple [lit "'lr_scheduler'";
                           call "LRScheduler"
                             [lit "'CosineAnnealingLR'";
                              kw "T_max" (binop "-" (name "n_epochs") (lit "1"))]]]);
          kw "device" (name "device")]);
    expr_stmt (method (name "clf") "fit"
                 [name "windows_dataset"; kw "y" (name "y");
                  kw "epochs" (name "n_epochs")]) ].

Definition cell_plot_history : cell :=
  [ import_as "matplotlib.pyplot" "plt";
    from_import "matplotlib.lines" ["Line2D"];
    import_as "pandas" "pd";
    assign "results_columns"
      (list_ [lit "'train_loss'"; lit "'valid_loss'"; lit "'train_accuracy'";
              lit "'valid_accuracy'"]);
    assign "df"
      (method (name "pd") "DataFrame"
         [item (attr (name "clf") "history") [lit ":"; name "results_columns"];
          kw "columns" (name "results_columns");
          kw "index" (item (attr (name "clf") "history") [lit ":"; lit "'epoch'"])]);
    assign "df"
      (method (name "df") "assign"
         [kw "train_misclass"
            (binop "-" (lit "100")
               (binop "*" (lit "100") (attr (name "df") "train_accuracy")));
          kw "valid_misclass"
            (binop "-" (lit "100")
               (binop "*" (lit "100") (attr (name "df") "valid_accuracy")))]);
    expr_stmt (method (attr (name "plt") "style") "use" [lit "'seaborn'"]);
    assign_unpack w ["fig"; "ax1"]
      (method (name "plt") "subplots" [kw "figsize" (tuple [lit "8"; lit "3"])]);
    expr_stmt
      (method (item (attr (name "df") "loc")
                 [lit ":"; list_ [lit "'train_loss'"; lit "'valid_loss'"]])
         "plot"
         [kw "ax" (name "ax1"); kw "style" (list_ [lit "'-'"; lit "':'"]);
          kw "marker" (lit "'o'"); kw "color" (lit "'tab:blue'");
          kw "legend" (lit "False"); kw "fontsize" (lit "14")]);
    expr_stmt (method (name "ax1") "tick_params"
                 [kw "axis" (lit "'y'"); kw "labelcolor" (lit "'tab:blue'");
                  kw "labelsize" (lit "14")]);
    expr_stmt (method (name "ax1") "set_ylabel"
                 [lit "'Loss'"; kw "color" (lit "'tab:blue'");
                  kw "fontsize" (lit "14")]);
    assign "ax2" (method (name "ax1") "twinx" []);
    expr_stmt
      (method (item (attr (name "df") "loc")
                 [lit ":"; list_ [lit "'train_misclass'"; lit "'valid_misclass'"]])
         "plot"
         [kw "ax" (name "ax2"); kw "style" (list_ [lit "'-'"; lit "':'"]);
          kw "marker" (lit "'o'"); kw "color" (lit "'tab:red'");
          kw "legend" (lit "False")]);
    expr_stmt (method (name "ax2") "tick_params"
                 [kw "axis" (lit "'y'"); kw "labelcolor" (lit "'tab:red'");
                  kw "labelsize" (lit "14")]);
    expr_stmt (method (name "ax2") "set_ylabel"
                 [lit "'Misclassification Rate [%]'"; kw "color" (lit "'tab:red'");
                  kw "fontsize" (lit "14")]);
    expr_stmt (method (name "ax2") "set_ylim"
                 [item (method (name "ax2") "get_ylim" []) [lit "0"]; lit "85"]);
    expr_stmt (method (name "ax1") "set_xlabel"
                 [lit "'Epoch'"; kw "fontsize" (lit "14")]);
    assign "handles" (list_ []);
    expr_stmt
      (method (name "handles") "append"
         [call "Line2D"
            [list_ [lit "0"]; list_ [lit "0"]; kw "color" (lit "'black'");
             kw "linewidth" (lit "1"); kw "linestyle" (lit "'-'");
             kw "label" (lit "'Train'")]]);
    expr_stmt
      (method (name "handles") "append"
         [call "Line2D"
            [list_ [lit "0"]; list_ [lit "0"]; kw "color" (lit "'black'");
             kw "linewidth" (lit "1"); kw "linestyle" (lit "':'");
             kw "label" (lit "'Valid'")]]);
    expr_stmt
      (method (name "plt") "legend"
         [name "handles";
          comprehension w (method (name "h") "get_label" []) "h" (name "handles");
          kw "fontsize" (lit "14")]);
    expr_stmt (method (name "plt") "tight_layout" []) ].

(** The code cells of the notebook in document order (markdown cells are not
    executed). *)
Definition notebook : list cell :=
  [ cell_pip; cell_matplotlib; cell_load_and_prepare;
    cell_import_create_from_X_y; cell_sfreq_ch_names; cell_windows_dataset;
    cell_setup_model; cell_fit; cell_plot_history ].

(** Position of the cell that builds the windowed dataset. *)
Definition windows_cell_index : nat := 5.

End Cells.

(** Errors that come from outside the notebook. *)
Definition is_external_error (e : exn) : bool :=
  match e with
  | ImportError _ | LibraryError _ => true
  | _ => false
  end.

Definition never_called (routine : string) (log : list string) : bool :=
  forallb (fun c => negb (String.eqb c routine)) log.

Definition unbound {obj : Type} (x : string) (k : kernel obj) : bool :=
  match ns k !! x with Some _ => false | None => true end.

(** What a finished run must look like for the windowed-dataset cell to be
    the place where execution stops: the run raised, at that cell with
    [NameError: name 'X' is not defined], or earlier with an error of an
    import or of a library routine; [X] and [y] are unbound, no dataset,
    model or classifier is bound, and neither the dataset constructor, the
    network constructor, the classifier nor [fit] was entered. *)
Definition stops_at_windows_cell {obj : Type}
  (r : option (nat * exn) * kernel obj) : bool :=
  let (out, k) := r in
  match out with
  | None => false
  | Some (i, e) =>
      ((Nat.eqb i windows_cell_index
          && match e with NameError x => String.eqb x "X" | _ => false end)
       || (Nat.ltb i windows_cell_index && is_external_error e))
      && unbound "X" k && unbound "y" k
      && unbound "windows_dataset" k && unbound "model" k && unbound "clf" k
      && never_called "create_from_X_y()" (calls k)
      && never_called "ShallowFBCSPNet()" (calls k)
      && never_called "EEGClassifier()" (calls k)
      && never_called ".fit()" (calls k)
  end.

(** Position of the cell that fits the classifier. *)
Definition fit_cell_index : nat := 7.

Definition times_called (routine : string) (log : list string) : nat :=
  length (List.filter (String.eqb routine) log).

(** What a run in which [fit] raises must look like for the failure to be
    final: the run has stopped, at the fit cell at the latest, [fit] was
    entered at most once (exactly once if it is the error that stopped the
    run), and the training history was never read. *)
Definition fit_failure_is_final {obj : Type}
  (r : option (nat * exn) * kernel obj) : bool :=
  let (out, k) := r in
  match out with
  | None => false
  | Some (i, e) =>
      Nat.leb i fit_cell_index
      && Nat.leb (times_called ".fit()" (calls k)) 1
      && match e with
         | LibraryError r =>
             negb (String.eqb r ".fit()")
             || (Nat.eqb i fit_cell_index
                 && Nat.eqb (times_called ".fit()" (calls k)) 1)
         | _ => true
         end
      && never_called ".history" (calls k)
      && never_called ".DataFrame()" (calls k)
  end.

End Decoding.

(** A world in which every import and every library routine succeeds (and
    has nothing to say): the most favourable environment a run can have. *)
Definition cooperative {obj : Type} (w : Py.world obj) : Prop :=
  (forall m, is_Some (Py.import_module w m)) /\
  (forall op args, is_Some (Py.extern w op args)).

Definition silent_world : Py.world unit :=
  Py.World unit (fun _ => tt) (fun _ => tt) (fun _ _ => tt) (fun _ => false)
    (fun _ => Some [tt; tt]) (fun _ => Some tt) (fun _ _ => Some tt).

(** The kernel of a user who has bound [X] and [y] by hand before running
    the notebook. *)
Definition with_X_y {obj : Type} (x y : obj) : Py.kernel obj :=
  Py.Kernel (<["y" := y]> (<["X" := x]> ∅)) [].

(** ** The model-setup cell on typed data

    The same cell as [Decoding.cell_setup_model], now on the data it reads: the
    windowed dataset is a sequence of windows, [windows_dataset[i]] is the
    triple [(X, y, window_inds)] and [X] is an array with a shape. *)

Module Braindecode.
Import Py.

Record ndarray : Type := NdArray {
  shape : list nat;
  data : list Q
}.

Record window : Type := Window {
  X : ndarray;
  y : Z;
  window_inds : list Z
}.

Definition result (A : Type) : Type := exn + A.

(** [l[i]] for a non-negative index: [IndexError] out of range. *)
Definition getitem {A : Type} (l : list A) (i : nat) : result A :=
  match l !! i with
  | Some a => inr a
  | None => inl IndexError
  end.

Inductive conv_length : Type :=
| Auto
| Fixed (n : nat).

Record ShallowFBCSPNet : Type := Shallow {
  in_chans : nat;
  n_classes : nat;
  input_window_samples : nat;
  final_conv_length : conv_length
}.

(** [[
    n_classes=4
    n_chans = windows_dataset[0][0].shape[0]
    input_window_samples = windows_dataset[0][0].shape[1]
    model = ShallowFBCSPNet(n_chans, n_classes,
                            input_window_samples=input_window_samples,
                            final_conv_length='auto')
    ]] *)
Definition setup_model (windows_dataset : list window) : result ShallowFBCSPNet :=
  let n_classes := 4%nat in
  match getitem windows_dataset 0 with
  | inl e => inl e
  | inr w0 =>
      match getitem (shape (X w0)) 0 with
      | inl e => inl e
      | inr n_chans =>
          match getitem windows_dataset 0 with
          | inl e => inl e
          | inr w0' =>
              match getitem (shape (X w0')) 1 with
              | inl e => inl e
              | inr input_window_samples =>
                  inr (Shallow n_chans n_classes input_window_samples Auto)
              end
          end
      end
  end.

(** Modelled from the spec: the shape check of the fit routine (EEGClassifier.fit, in the
    braindecode/skorch/torch libraries, is not part of the repository).
    Section 4.4: fitting "fails if channel/sample dimensions of the dataset
    are inconsistent with the model's expected input shape".  The channel
    dimension is axis 0 and the time-sample dimension axis 1 of a window. *)
Definition consistent (model : ShallowFBCSPNet) (w : window) : bool :=
  match shape (X w) !! 0%nat, shape (X w) !! 1%nat with
  | Some c, Some t =>
      Nat.eqb c (in_chans model) && Nat.eqb t (input_window_samples model)
  | _, _ => false
  end.

Definition shape_mismatch (model : ShallowFBCSPNet) (ds : list window) : bool :=
  existsb (fun w => negb (consistent model w)) ds.

(** All windows of a dataset have one shape. *)
Definition uniform (ds : list window) : Prop :=
  forall w1 w2, w1 ∈ ds -> w2 ∈ ds -> shape (X w1) = shape (X w2).

Definition example_window : window :=
  Window (NdArray [2; 3]%nat [1; 2; 3; 4; 5; 6]%Q) 1 [0; 0; 3]%Z.

End Braindecode.

(** ** The signal-processing steps of the MNE library

    The notebooks call [raw.filter], [mne.Epochs] and [tfr_morlet]; the
    routines themselves belong to the MNE library and are not in the
    repository.  They are modelled from sections 3 and 4 of the specification,
    with amplitudes as rationals (comparison, maximum and minimum are exact
    on the floating-point values the library holds). *)

Module MNE.
Import Py.
Local Open Scope Q_scope.

Record channel : Type := Channel {
  ch_name : string;
  ch_type : string;
  samples : list Q
}.

(** Recording: sampling rate, channels with their type, bad-channel flags. *)
Record Raw : Type := MkRaw {
  sfreq : Q;
  channels : list channel;
  bads : list string
}.

Definition n_channels (raw : Raw) : nat := length (channels raw).

Definition n_times (raw : Raw) : nat :=
  match channels raw with
  | [] => 0%nat
  | c :: _ => length (samples c)
  end.

Definition Qltb (a b : Q) : bool := negb (Qle_bool b a).

(** *** Band-pass filtering (section 4.1) *)

(** Modelled from the spec: valid cutoffs are [0 < low < high < Nyquist]
    (section 8), the Nyquist frequency being half the sampling rate. *)
Definition nyquist (raw : Raw) : Q := sfreq raw / 2.

Definition valid_cutoffs (raw : Raw) (l_freq h_freq : Q) : bool :=
  Qltb 0 l_freq && Qltb l_freq h_freq && Qltb h_freq (nyquist raw).

(** Modelled from the spec: sample [i] of a signal, zero outside the
    recording. *)
Definition sample_at (x : list Q) (i : Z) : Q :=
  if (i <? 0)%Z then 0 else nth (Z.to_nat i) x 0.

(** Modelled from the spec: "zero-phase" application of FIR taps [h].  The
    taps are centred on the output sample, so the output has no delay and
    one value per input sample. *)
Definition fir_output (h x : list Q) (n : nat) : Q :=
  let half := Z.of_nat (length h / 2) in
  fold_right Qplus 0
    (map (fun j => nth j h 0 * sample_at x (Z.of_nat n + half - Z.of_nat j))
       (seq 0 (length h))).

Definition zero_phase_fir (h x : list Q) : list Q :=
  map (fir_output h x) (seq 0 (length x)).

Section Filter.
(** The band-pass design (window method in the library): the taps for a
    sampling rate and a pass band. *)
Variable design : Q -> Q -> Q -> list Q.

(** Modelled from the spec: [raw.filter(l_freq, h_freq)] of the MNE library.
    Section 4.1: "filtered recording (zero-phase band-pass applied), or fails
    if cutoffs are invalid (low >= high, or out of Nyquist range)"; section 3:
    the recording is "mutated in place by filtering". *)
Definition filter (raw : Raw) (l_freq h_freq : Q) : exn + Raw :=
  if valid_cutoffs raw l_freq h_freq then
    let h := design (sfreq raw) l_freq h_freq in
    inr (MkRaw (sfreq raw)
           (map (fun c => Channel (ch_name c) (ch_type c)
                            (zero_phase_fir h (samples c)))
              (channels raw))
           (bads raw))
  else inl (LibraryError "filter").

(** [raw.filter(2, 40)], the call of the decoding notebook. *)
Definition notebook_filter (raw : Raw) : exn + Raw := filter raw 2 40.

End Filter.

(** *** Epoching with amplitude rejection (section 4.2) *)

(** Event: (sample index, code). *)
Record event : Type := Event {
  onset : nat;
  code : Z
}.

(** One epoch: the event it is aligned to and the window of every picked
    channel. *)
Record epoch : Type := Epoch {
  ep_event : event;
  ep_channels : list channel
}.

(** Epoch collection with the log MNE keeps: one entry per input event,
    empty for a retained epoch, otherwise the reasons it was dropped. *)
Record EpochsObj : Type := MkEpochs {
  kept : list epoch;
  drop_log : list (list string)
}.

Definition Qround (x : Q) : Z := Qfloor (x + (1 # 2)).

(** Modelled from the spec: first sample and length of the window
    [tmin, tmax] around an onset, times converted to the nearest sample. *)
Definition window_start (raw : Raw) (tmin : Q) (ev : event) : Z :=
  (Z.of_nat (onset ev) + Qround (tmin * sfreq raw))%Z.

Definition window_length (raw : Raw) (tmin tmax : Q) : nat :=
  Z.to_nat (Qround (tmax * sfreq raw) - Qround (tmin * sfreq raw) + 1).

Definition picked (raw : Raw) (picks : list string) (c : channel) : bool :=
  existsb (String.eqb (ch_type c)) picks
  && negb (existsb (String.eqb (ch_name c)) (bads raw)).

(** Modelled from the spec: the window of one event on the picked channels
    (bad channels are excluded), if the recording covers it. *)
Definition cut (raw : Raw) (picks : list string) (tmin tmax : Q) (ev : event)
  : option epoch :=
  let start := window_start raw tmin ev in
  let len := window_length raw tmin tmax in
  if (0 <=? start)%Z && (Z.to_nat start + len <=? n_times raw)%nat then
    Some (Epoch ev
            (map (fun c => Channel (ch_name c) (ch_type c)
                             (firstn len (skipn (Z.to_nat start) (samples c))))
               (List.filter (picked raw picks) (channels raw))))
  else None.

Definition Qmaximum (x : Q) (l : list Q) : Q := fold_left Qmax l x.
Definition Qminimum (x : Q) (l : list Q) : Q := fold_left Qmin l x.

(** Modelled from the spec: peak-to-peak amplitude of a window, maximum
    minus minimum. *)
Definition ptp (l : list Q) : Q :=
  match l with
  | [] => 0
  | x :: l' => Qmaximum x l' - Qminimum x l'
  end.

(** [reject[ch_type]], when the dict has that key. *)
Definition threshold (reject : list (string * Q)) (ty : string) : option Q :=
  match List.find (fun p => String.eqb (fst p) ty) reject with
  | Some p => Some (snd p)
  | None => None
  end.

(** Modelled from the spec: a channel is monitored when its type has a
    threshold; it exceeds when its peak-to-peak amplitude is above the
    threshold. *)
Definition exceeds (reject : list (string * Q)) (c : channel) : bool :=
  match threshold reject (ch_type c) with
  | Some thr => Qltb thr (ptp (samples c))
  | None => false
  end.

Definition offending (reject : list (string * Q)) (ep : epoch) : list string :=
  map ch_name (List.filter (exceeds reject) (ep_channels ep)).

Inductive verdict : Type :=
| Kept (ep : epoch)
| Dropped (reasons : list string).

(** Events whose code has no label in [event_id] are ignored. *)
Definition known_code (event_id : list (string * Z)) (ev : event) : bool :=
  existsb (fun p => Z.eqb (snd p) (code ev)) event_id.

(** Modelled from the spec: the verdict on one event. *)
Definition judge (raw : Raw) (event_id : list (string * Z)) (tmin tmax : Q)
  (picks : list string) (reject : list (string * Q)) (ev : event) : verdict :=
  if known_code event_id ev then
    match cut raw picks tmin tmax ev with
    | None => Dropped ["TOO_SHORT"]
    | Some ep =>
        match offending reject ep with
        | [] => Kept ep
        | names => Dropped names
        end
    end
  else Dropped ["IGNORED"].

Definition retained (v : verdict) : option epoch :=
  match v with
  | Kept ep => Some ep
  | Dropped _ => None
  end.

Definition reasons_of (v : verdict) : list string :=
  match v with
  | Kept _ => []
  | Dropped rs => rs
  end.

(** Modelled from the spec: [mne.Epochs(raw, events, event_id, tmin, tmax,
    picks=..., reject=..., preload=True)] of the MNE library.  Section 4.2:
    "any epoch whose peak-to-peak amplitude on a monitored channel exceeds its
    threshold is dropped - reported, not fatal"; section 3: "all epochs share
    channel layout and sample count", so a window the recording does not
    cover yields no epoch. *)
Definition Epochs (raw : Raw) (events : list event)
  (event_id : list (string * Z)) (tmin tmax : Q) (picks : list string)
  (reject : list (string * Q)) : EpochsObj :=
  let verdicts := map (judge raw event_id tmin tmax picks reject) events in
  MkEpochs (omap retained verdicts) (map reasons_of verdicts).

(** [raw.info['bads'] += names] (section 4.1, side effect). *)
Definition add_bads (raw : Raw) (names : list string) : Raw :=
  MkRaw (sfreq raw) (channels raw) (bads raw ++ names).

(** Modelled from the spec: [epochs.pick_types(eeg=True, exclude='bads')],
    channel selection on the retained epochs. *)
Definition pick_types (types bad : list string) (eps : EpochsObj) : EpochsObj :=
  MkEpochs
    (map (fun ep =>
            Epoch (ep_event ep)
              (List.filter
                 (fun c => existsb (String.eqb (ch_type c)) types
                           && negb (existsb (String.eqb (ch_name c)) bad))
                 (ep_channels ep)))
       (kept eps))
    (drop_log eps).

(** The calls of the decoding notebook. *)
Definition notebook_event_id : list (string * Z) :=
  [("Auditory/Left", 1%Z); ("Auditory/Right", 2%Z);
   ("Visual/Left", 3%Z); ("Visual/Right", 4%Z)].

Definition notebook_reject : list (string * Q) :=
  [("eeg", 150 # 1000000); ("eog", 150 # 1000000)].

Definition notebook_epochs (raw : Raw) (events : list event) : EpochsObj :=
  Epochs raw events notebook_event_id (- (2 # 10)) (7 # 10) ["eeg"; "eog"]
    notebook_reject.

(** The cell [Decoding.cell_load_and_prepare] on typed data, from the
    recording read from disk and the events found on its trigger channel:
    [[
    raw.filter(2, 40)
    raw.info['bads'] += ['MEG 2443', 'EEG 053']
    epochs = mne.Epochs(raw, events, event_id, tmin, tmax, proj=True,
                        picks=('eeg', 'eog'), baseline=(None, 0.), preload=True,
                        reject=dict(eeg=150e-6, eog=150e-6), decim=1)
    epochs.pick_types(meg=False, eeg=True, exclude='bads')
    ]] *)
Definition load_and_prepare (design : Q -> Q -> Q -> list Q) (raw : Raw)
  (events : list event) : exn + EpochsObj :=
  match filter design raw 2 40 with
  | inl e => inl e
  | inr filtered =>
      let raw' := add_bads filtered ["MEG 2443"; "EEG 053"] in
      inr (pick_types ["eeg"] (bads raw') (notebook_epochs raw' events))
  end.

(** Every monitored channel of the epoch is within its threshold. *)
Definition within_thresholds (reject : list (string * Q)) (ep : epoch) : Prop :=
  forall c thr, c ∈ ep_channels ep -> threshold reject (ch_type c) = Some thr ->
                ptp (samples c) <= thr.

(** A small recording used to exercise the definitions: 10 Hz, one EEG and
    one EOG channel, six samples. *)
Definition example_raw : Raw :=
  MkRaw 10
    [Channel "EEG 001" "eeg" [0; 1 # 100000; 0; 3 # 10000; 0; 0];
     Channel "EOG 061" "eog" [0; 0; 0; 0; 0; 0]]
    [].

Definition example_taps (sfreq l_freq h_freq : Q) : list Q :=
  [1 # 4; 1 # 2; 1 # 4].

End MNE.

(** ** Time-frequency decomposition (section 4.3) *)

Module TimeFrequency.
Local Open Scope R_scope.

(** Complex numbers as pairs (real part, imaginary part). *)
Definition C : Type := (R * R)%type.

Definition Cadd (a b : C) : C := (fst a + fst b, snd a + snd b).

Definition Cscale (r : R) (a : C) : C := (r * fst a, r * snd a).

Definition Cabs (a : C) : R := sqrt (fst a * fst a + snd a * snd a).

Definition Csum (l : list C) : C := fold_right Cadd (0, 0) l.

(** Modelled from the spec: the "average ... across trials", the sum divided
    by the number of trials. *)
Definition Cmean (l : list C) : C := Cscale (/ INR (length l)) (Csum l).

(** Modelled from the spec: the "unit-magnitude phase vector" of a
    coefficient, [z / |z|] (for [z = 0] the division of the reals gives 0;
    the library's floating-point division gives NaN there). *)
Definition phase_vector (z : C) : C := Cscale (/ Cabs z) z.

Definition Rmean (l : list R) : R := fold_right Rplus 0 l / INR (length l).

Section Morlet.
(** A trial, and its complex Morlet coefficient at a channel, frequency and
    time bin (the wavelet convolution is the library's). *)
Variable trial : Type.
Variable coef : trial -> nat -> nat -> nat -> C.

(** Modelled from the spec: the inter-trial coherence [tfr_morlet(...,
    return_itc=True)] of the MNE library returns.  Section 4.3:
    "inter-trial consistency is the magnitude of the average of
    unit-magnitude phase vectors across trials". *)
Definition itc (trials : list trial) (ch f t : nat) : R :=
  Cabs (Cmean (map (fun e => phase_vector (coef e ch f t)) trials)).

(** Modelled from the spec: the power [tfr_morlet] returns, the trial
    average of the "squared magnitude of the complex time-frequency
    coefficients". *)
Definition power (trials : list trial) (ch f t : nat) : R :=
  Rmean (map (fun e => Cabs (coef e ch f t) * Cabs (coef e ch f t)) trials).

Definition tfr_morlet (trials : list trial)
  : (nat -> nat -> nat -> R) * (nat -> nat -> nat -> R) :=
  (power trials, itc trials).

End Morlet.

(** Two trials with coefficients [3 + 4i] and [-1] in every bin. *)
Definition example_coef (e : bool) (ch f t : nat) : C :=
  if e then (3, 4) else (-1, 0).

End TimeFrequency.

(** ** float64 values

    The phase-coherence column of the LIMO metadata is a float64 Series: a
    value is an IEEE binary64 number, finite, infinite or NaN.  The cells
    do no arithmetic on these values; they compare them ([==], and [<]
    inside [sorted]) and [unique()] hashes them. *)

Module Float64.

Definition float64 : Type := PrimFloat.float.

(** [x == y]: false as soon as one side is NaN; [0.0 == -0.0]. *)
Definition feq (x y : float64) : bool := PrimFloat.eqb x y.

(** The values that the hash table behind [Series.unique()] treats as one:
    equal under [==], or both NaN. *)
Definition same_value (x y : float64) : bool :=
  feq x y || (PrimFloat.is_nan x && PrimFloat.is_nan y).

Definition is_number (x : float64) : Prop := PrimFloat.is_nan x = false.

(** [x <= y], false as soon as one side is NaN. *)
Definition fle (x y : float64) : Prop := PrimFloat.leb x y = true.

(** [x < y] *)
Definition flt (x y : float64) : Prop := PrimFloat.ltb x y = true.

(** What is relied on of Python's builtin [sorted] over float64 values:
    the result is a rearrangement of the argument, always; when no value is
    NaN it is in non-decreasing order.  With a NaN among the values [<] is
    not an order and nothing is said about where the values end up. *)
Definition sorts (sorted : list float64 -> list float64) : Prop :=
  (forall l, Permutation (sorted l) l)
  /\ (forall l, Forall is_number l -> StronglySorted fle (sorted l)).

(** A routine that meets this: insertion by [<=]. *)
Fixpoint insert_sorted (x : float64) (l : list float64) : list float64 :=
  match l with
  | [] => [x]
  | y :: l' => if PrimFloat.leb x y then x :: l else y :: insert_sorted x l'
  end.

Definition insertion_sort (l : list float64) : list float64 :=
  fold_right insert_sorted [] l.

End Float64.

(** ** The LIMO notebook *)

Module Limo.
Import Py.

(** *** Averaging and time-frequency decomposition per coherence level

    On typed data: [limo_epochs] is a list of trials, each with the
    phase-coherence value of its stimulus (a float64 column of the
    metadata). *)

Section Levels.
Variable trial : Type.
Variable phase_coherence : trial -> Float64.float64.

(** Python's builtin [sorted], applied to the array of distinct values. *)
Variable sorted : list Float64.float64 -> list Float64.float64.

(** An evoked response, and [Epochs.average()]: the library's routine,
    which may raise. *)
Variable evoked : Type.
Variable average : list trial -> exn + evoked.

(** The complex Morlet coefficient of a trial at a channel, frequency and
    time bin. *)
Variable coef : trial -> nat -> nat -> nat -> TimeFrequency.C.

(** [phase_coh.unique()]: the distinct values in order of appearance; of
    several NaN the first is kept. *)
Fixpoint unique (l : list Float64.float64) : list Float64.float64 :=
  match l with
  | [] => []
  | x :: l' =>
      x :: List.filter (fun y => negb (Float64.same_value x y)) (unique l')
  end.

(** [[
    phase_coh = limo_epochs.metadata['phase-coherence']
    levels = sorted(phase_coh.unique())
    ]] *)
Definition levels (limo_epochs : list trial) : list Float64.float64 :=
  sorted (unique (map phase_coherence limo_epochs)).

(** [limo_epochs[phase_coh == level]]: a trial whose value is NaN is
    selected by no level, not even by NaN. *)
Definition select (limo_epochs : list trial) (level : Float64.float64)
  : list trial :=
  List.filter (fun e => Float64.feq (phase_coherence e) level) limo_epochs.

(** No trial has NaN for its phase coherence. *)
Definition all_numbers (limo_epochs : list trial) : Prop :=
  Forall (fun e => Float64.is_number (phase_coherence e)) limo_epochs.

(** [labels = ['{0:.2f}'.format(i) for i in np.arange(0., 0.90, 0.05)]] *)
Definition labels : list string :=
  [ "0.00"; "0.05"; "0.10"; "0.15"; "0.20"; "0.25"; "0.30"; "0.35"; "0.40";
    "0.45"; "0.50"; "0.55"; "0.60"; "0.65"; "0.70"; "0.75"; "0.80"; "0.85" ].

(** The body of the dict comprehension, one (level, label) pair at a time;
    the dict is kept as the list of its items. *)
Fixpoint average_each (limo_epochs : list trial)
  (pairs : list (Float64.float64 * string))
  : exn + list (string * evoked) :=
  match pairs with
  | [] => inr []
  | (level, label) :: pairs' =>
      match average (select limo_epochs level) with
      | inl e => inl e
      | inr ev =>
          match average_each limo_epochs pairs' with
          | inl e => inl e
          | inr items => inr ((label, ev) :: items)
          end
      end
  end.

(** The statement that averages the trials of each coherence level (the
    same cell goes on to plot the result):
    [[
    evokeds = {label: limo_epochs[phase_coh == level].average()
               for level, label in zip(levels, labels)}
    ]] *)
Definition evokeds (limo_epochs : list trial)
  : exn + list (string * evoked) :=
  average_each limo_epochs (combine (levels limo_epochs) labels).

(** [[
    power_high, itc_high = tfr_morlet(limo_epochs[phase_coh == levels[-1]], ...,
                                      return_itc=True, ...)
    power_low, itc_low = tfr_morlet(limo_epochs[phase_coh == levels[0]], ...,
                                    return_itc=True, ...)
    ]]
    The result is [((power_high, itc_high), (power_low, itc_low))];
    [levels[-1]] and [levels[0]] raise [IndexError] on an empty list. *)
Definition cell_power_itc (limo_epochs : list trial)
  : exn + ((nat -> nat -> nat -> R) * (nat -> nat -> nat -> R))
          * ((nat -> nat -> nat -> R) * (nat -> nat -> nat -> R)) :=
  match List.last (map Some (levels limo_epochs)) None with
  | None => inl IndexError
  | Some highest =>
      let high :=
        TimeFrequency.tfr_morlet trial coef (select limo_epochs highest) in
      match List.head (levels limo_epochs) with
      | None => inl IndexError
      | Some lowest =>
          inr (high,
               TimeFrequency.tfr_morlet trial coef (select limo_epochs lowest))
      end
  end.

End Levels.

Arguments levels {trial} _ _ _.
Arguments select {trial} _ _ _.
Arguments all_numbers {trial} _ _.
Arguments cell_power_itc {trial} _ _ _ _.
Arguments average_each {trial} _ {evoked} _ _ _.
Arguments evokeds {trial} _ _ {evoked} _ _.

(** An averaging routine that refuses every input, the strictest a library
    can be. *)
Definition strict_average (trials : list unit) : exn + unit :=
  inl (LibraryError ".average()").

(** *** The cell that compares power topographies *)


Definition newline : ascii := "010"%char.
Definition backslash : ascii := "\"%char.
Definition double_quote : ascii := "034"%char.

Definition is_space (c : ascii) : bool :=
  Ascii.eqb c " " || Ascii.eqb c "009" || Ascii.eqb c "013".

Definition is_quote (c : ascii) : bool :=
  Ascii.eqb c "'" || Ascii.eqb c double_quote.

Definition is_open (c : ascii) : bool :=
  Ascii.eqb c "(" || Ascii.eqb c "[" || Ascii.eqb c "{".

Definition is_close (c : ascii) : bool :=
  Ascii.eqb c ")" || Ascii.eqb c "]" || Ascii.eqb c "}".

Inductive mode : Type :=
| Code
| Comment
| Str (q : ascii) (triple : bool).

(** A logical line whose last token is [=] has an assignment (or a
    comparison) with nothing on its right: Python's parser rejects it.  Lines
    that IPython rewrites before parsing (magics, shell escapes, help) are
    exempt. *)
Definition dangling (first last : option ascii) : bool :=
  match last with
  | Some c =>
      Ascii.eqb c "="
      && match first with
         | Some f => negb (Ascii.eqb f "%" || Ascii.eqb f "!" || Ascii.eqb f "?")
         | None => true
         end
  | None => false
  end.

Definition or_first (first : option ascii) (c : ascii) : option ascii :=
  match first with
  | Some f => Some f
  | None => Some c
  end.

(** One pass over the characters of a cell.  [depth] counts open brackets
    (a newline inside brackets does not end the logical line), [first] and
    [last] are the first and last significant characters of the current
    logical line.  The result is [true] when the cell is certainly not
    parsable: a logical line is left dangling, a bracket is closed that was
    not opened or is still open at the end, or a string literal is not
    terminated. *)
Fixpoint scan (m : mode) (depth : nat) (first last : option ascii)
  (cs : list ascii) {struct cs} : bool :=
  match cs with
  | [] =>
      match m with
      | Str _ _ => true
      | _ => negb (Nat.eqb depth 0) || dangling first last
      end
  | c :: cs' =>
      match m with
      | Comment =>
          if Ascii.eqb c newline then
            if Nat.eqb depth 0 then
              if dangling first last then true else scan Code 0 None None cs'
            else scan Code depth first last cs'
          else scan Comment depth first last cs'
      | Str q triple =>
          if Ascii.eqb c backslash then
            match cs' with
            | [] => true
            | _ :: cs'' => scan (Str q triple) depth first last cs''
            end
          else if Ascii.eqb c q then
            if triple then
              match cs' with
              | q1 :: q2 :: cs'' =>
                  if Ascii.eqb q1 q && Ascii.eqb q2 q
                  then scan Code depth first (Some q) cs''
                  else scan (Str q true) depth first last cs'
              | _ => scan (Str q true) depth first last cs'
              end
            else scan Code depth first (Some q) cs'
          else if Ascii.eqb c newline then
            if triple then scan (Str q true) depth first last cs' else true
          else scan (Str q triple) depth first last cs'
      | Code =>
          if Ascii.eqb c newline then
            if Nat.eqb depth 0 then
              if dangling first last then true else scan Code 0 None None cs'
            else scan Code depth first last cs'
          else if Ascii.eqb c "#" then scan Comment depth first last cs'
          else if is_space c then scan Code depth first last cs'
          else if Ascii.eqb c backslash then
            match cs' with
            | [] => true
            | n :: cs'' =>
                if Ascii.eqb n newline then scan Code depth first last cs''
                else true
            end
          else if is_quote c then
            match cs' with
            | q1 :: q2 :: cs'' =>
                if Ascii.eqb q1 c && Ascii.eqb q2 c
                then scan (Str c true) depth (or_first first c) last cs''
                else scan (Str c false) depth (or_first first c) last cs'
            | _ => scan (Str c false) depth (or_first first c) last cs'
            end
          else if is_open c then
            scan Code (S depth) (or_first first c) (Some c) cs'
          else if is_close c then
            match depth with
            | O => true
            | S d => scan Code d (or_first first c) (Some c) cs'
            end
          else scan Code depth (or_first first c) (Some c) cs'
      end
  end.

(** The text of a cell: its physical lines, each ended by a newline. *)
Definition text (lines : list string) : list ascii :=
  flat_map (fun l => list_ascii_of_string l ++ [newline]) lines.

Definition unparsable (lines : list string) : bool :=
  scan Code 0 None None (text lines).

Section Cell.
Context {obj : Type}.
(** The interpreter proper, for a cell that parses. *)
Variable interp : list string -> M obj unit.

(** A cell is compiled as a whole before any of it runs: when it does not
    parse, [SyntaxError] is raised and nothing is executed. *)
Definition run_cell (lines : list string) : M obj unit := fun k =>
  if unparsable lines then (inl SyntaxError, k) else interp lines k.

End Cell.

(** The cell, with the text the user puts after the [=] of the placeholder
    line. *)
Definition cell_power_topomaps_with (values : string) : list string :=
  [ "# general definitions";
    "bl, tmax, ch = (-0.2, 0), 0.35, 'eeg'";
    EmptyString;
    "# relevant to the above plots definitions";
    "fmin1, fmax1, fmin2, fmax2, tmin, tmax = " +:+ values;
    EmptyString;
    "fig, axis = plt.subplots(2, 2, figsize=(13, 6))";
    "power_high.plot_topomap(ch_type=ch, tmin=tmin, tmax=tmax, fmin=fmin1, fmax=fmax1,";
    "                   baseline=bl, mode=blMode, axes=axis[0, 0],";
    "                   title=str(fmin1) + ':' + str(fmax1) + ' hz PC-H', show=False)";
    "power_high.plot_topomap(ch_type='eeg', tmin=tmin, tmax=tmax, fmin=fmin2, fmax=fmax2,";
    "                   baseline=bl, mode=blMode, axes=axis[1, 0],";
    "                   title=str(fmin2) + ':' + str(fmax2) + ' hz PC-H', show=False)";
    "power_low.plot_topomap(ch_type='eeg', tmin=tmin, tmax=tmax, fmin=fmin1, fmax=fmax1,";
    "                   baseline=bl, mode=blMode, axes=axis[0, 1],";
    "                   title=str(fmin1) + ':' + str(fmax1) + ' hz PC-L', show=False)";
    "power_low.plot_topomap(ch_type='eeg', tmin=tmin, tmax=tmax, fmin=fmin2, fmax=fmax2,";
    "                   baseline=bl, mode=blMode, axes=axis[1, 1],";
    "                   title=str(fmin2) + ':' + str(fmax2) + ' hz PC-L', show=False)";
    "mne.viz.tight_layout()";
    "plt.show();" ].

(** A run of [n] blanks. *)
Fixpoint spaces (n : nat) : string :=
  match n with
  | O => EmptyString
  | S n' => String " " (spaces n')
  end.

(** The cell as the notebook has it: nothing after the [=]. *)
Definition cell_power_topomaps : list string :=
  cell_power_topomaps_with EmptyString.

(** The values the notebook's next markdown cell suggests. *)
Definition suggested_values : string := "6, 8, 15, 25, 0.05, 0.35".

End Limo.

(** ** More of the LIMO notebook on typed data *)

Module LimoLevels.
Import Py Limo.

(** [l[k::step]] for [k >= 0] and [step >= 1]: the elements at positions
    [k], [k + step], [k + 2 step], ...  ([k] is the number of elements still
    to skip). *)
Fixpoint stride_from {A : Type} (k step : nat) (l : list A) : list A :=
  match l with
  | [] => []
  | x :: l' =>
      match k with
      | O => x :: stride_from (step - 1) step l'
      | S k' => stride_from k' step l'
      end
  end.

Section EveryFifth.
Variable trial : Type.
Variable phase_coherence : trial -> Float64.float64.
Variable sorted : list Float64.float64 -> list Float64.float64.
Variable evoked : Type.
Variable average : list trial -> exn + evoked.

(** The last cell builds the dict again for every fifth level:
    [[
    evokeds = {label: limo_epochs[phase_coh == level].average()
               for level, label in zip(levels[1::5], labels[1::5])}
    ]] *)
Definition evokeds_every_fifth (limo_epochs : list trial)
  : exn + list (string * evoked) :=
  average_each phase_coherence average limo_epochs
    (combine (stride_from 1 5 (levels phase_coherence sorted limo_epochs))
       (stride_from 1 5 labels)).

End EveryFifth.

Arguments evokeds_every_fifth {trial} _ _ {evoked} _ _.

(** No two entries of the list are the same value. *)
Definition distinct (l : list Float64.float64) : Prop :=
  ForallOrdPairs (fun a b => Float64.same_value a b = false) l.

Section PsdTopomaps.
Variable trial : Type.
Variable phase_coherence : trial -> Float64.float64.
Variable sorted : list Float64.float64 -> list Float64.float64.

(** [Epochs.plot_psd_topomap(bands=bands, ch_type='eeg', normalize=True)]:
    the library's routine, which may raise. *)
Variable plot_psd_topomap : list trial -> exn + unit.

(** The cell that maps band power at the two extremes:
    [[
    limo_epochs[phase_coh == levels[0]].plot_psd_topomap(...);
    limo_epochs[phase_coh == levels[-1]].plot_psd_topomap(...);
    ]] *)
Definition cell_psd_topomaps (limo_epochs : list trial) : exn + unit :=
  match List.head (levels phase_coherence sorted limo_epochs) with
  | None => inl IndexError
  | Some lowest =>
      match plot_psd_topomap (select phase_coherence limo_epochs lowest) with
      | inl e => inl e
      | inr _ =>
          match List.last (map Some (levels phase_coherence sorted limo_epochs)) None with
          | None => inl IndexError
          | Some highest =>
              plot_psd_topomap (select phase_coherence limo_epochs highest)
          end
      end
  end.

End PsdTopomaps.

Arguments cell_psd_topomaps {trial} _ _ _ _.

End LimoLevels.

(** Example trials for the statements about coherence levels. *)
Module LimoExamples.
Import PrimFloat.

Definition half : Float64.float64 := 0.5%float.
Definition quarter : Float64.float64 := 0.25%float.

(** A trial is [true] (phase coherence 0.5) or [false] (0.25). *)
Definition coherence (e : bool) : Float64.float64 :=
  if e then half else quarter.

Definition trials : list bool := [true; false; true].

(** A plotting routine that accepts every input. *)
Definition plot (es : list bool) : Py.exn + unit := inr tt.

End LimoExamples.


(** ** Loops and comprehensions over several targets *)

Module PyLoops.
Import Py.
Local Open Scope py_scope.

Section Loops.
Context {obj : Type} (w : world obj).

(** [*e] in an argument list. *)
Definition star (e : M obj obj) : M obj obj :=
  let* o := e in ret (display w "*" [o]).

(** The targets of a [for] clause take one item: a single name takes the
    item itself, several names unpack it. *)
Definition bind_targets (targets : list string) (v : obj) : M obj unit :=
  match targets with
  | [x] => store x v
  | _ =>
      match iterate w v with
      | Some vs => if Nat.eqb (length vs) (length targets)
                   then store_all targets vs
                   else raise (LibraryError "unpack")
      | None => raise (LibraryError "unpack")
      end
  end.

Fixpoint loop {A : Type} (step : obj -> M obj A) (vs : list obj)
  : M obj (list A) :=
  match vs with
  | [] => ret []
  | v :: vs' =>
      let* r := step v in
      let* rs := loop step vs' in
      ret (r :: rs)
  end.

(** The body of a [for] statement over the items [vs]; the targets and
    whatever the body binds stay bound afterwards. *)
Definition for_items (targets : list string) (body : list (M obj unit))
  (vs : list obj) : M obj unit :=
  loop (fun v => bind_targets targets v ;; exec body) vs ;; ret tt.

(** [for targets in it: body] *)
Definition for_ (targets : list string) (it : M obj obj)
  (body : list (M obj unit)) : M obj unit :=
  let* o := it in
  match iterate w o with
  | None => raise (LibraryError "iter")
  | Some vs => for_items targets body vs
  end.

(** Put back what the names were bound to before a comprehension. *)
Fixpoint restore (saved : list (string * option obj)) (N : gmap string obj)
  : gmap string obj :=
  match saved with
  | [] => N
  | (x, Some old) :: saved' => restore saved' (<[x := old]> N)
  | (x, None) :: saved' => restore saved' (delete x N)
  end.

(** A dict comprehension over the items [vs]: for each item the key is
    evaluated before the value; the targets are local to the
    comprehension. *)
Definition dict_items (key value : M obj obj) (targets : list string)
  (vs : list obj) : M obj obj := fun k =>
  let saved := map (fun x => (x, ns k !! x)) targets in
  match loop (fun v => bind_targets targets v ;;
                       let* a := key in
                       let* b := value in
                       ret (display w "item" [a; b])) vs k with
  | (inl err, k') => (inl err, k')
  | (inr items, k') =>
      (inr (display w "dict" items), Kernel (restore saved (ns k')) (calls k'))
  end.

(** [{key: value for targets in it}]: the iterable is evaluated first. *)
Definition dict_comprehension (key value : M obj obj) (targets : list string)
  (it : M obj obj) : M obj obj :=
  let* o := it in
  match iterate w o with
  | None => raise (LibraryError "iter")
  | Some vs => dict_items key value targets vs
  end.

End Loops.

(** The namespace [N] with the names [xs] bound to [vs]. *)
Fixpoint bind_all {obj : Type} (xs : list string) (vs : list obj)
  (N : gmap string obj) : gmap string obj :=
  match xs, vs with
  | x :: xs', v :: vs' => bind_all xs' vs' (<[x := v]> N)
  | _, _ => N
  end.

(** What the namespace can be while and after a loop runs from [N], when
    the loop binds the names [xs] and nothing else: [N] itself (no
    iteration yet) or [N] with all of [xs] bound. *)
Definition loop_shape {obj : Type} (xs : list string) (N N1 : gmap string obj)
  : Prop :=
  N1 = N \/ exists vs, length vs = length xs /\ N1 = bind_all xs vs N.

End PyLoops.


(** ** How runs of the decoding notebook end *)

Module DecodingRun.
Import Py Decoding.

(** A run that finished, or stopped with an error of an import or of a
    library routine: no name was read unbound. *)
Definition only_external_errors (out : option (nat * exn)) : bool :=
  match out with
  | None => true
  | Some (_, e) => is_external_error e
  end.

(** The call log is kept newest first.  [seeded_first log]: wherever the
    log records that the network constructor or [fit] was entered, an older
    entry records [set_random_seeds]. *)
Fixpoint seeded_first (log : list string) : bool :=
  match log with
  | [] => true
  | c :: older =>
      (if String.eqb c "ShallowFBCSPNet()" || String.eqb c ".fit()"
       then existsb (String.eqb "set_random_seeds()") older
       else true)
      && seeded_first older
  end.

(** [torch.backends.cudnn.benchmark = True] was executed. *)
Definition benchmark_enabled (log : list string) : bool :=
  existsb (String.eqb ".benchmark=") log.

(** Once the model is bound: [device] is ['cuda'] or ['cpu'] as [cuda] is
    true or not, and the cudnn benchmark was switched on exactly when it
    is. *)
Definition device_follows_cuda {obj : Type} (w : world obj) (k : kernel obj)
  : Prop :=
  match ns k !! "model" with
  | None => True
  | Some _ =>
      match ns k !! "cuda", ns k !! "device" with
      | Some c, Some d =>
          d = literal w (if truthy w c then "'cuda'" else "'cpu'")
          /\ benchmark_enabled (calls k) = truthy w c
      | _, _ => False
      end
  end.

(** What holds of every run from a kernel in which [X] and [y] are bound,
    wherever it stops. *)
Definition run_invariants {obj : Type} (w : world obj)
  (r : option (nat * exn) * kernel obj) : Prop :=
  only_external_errors (fst r) = true
  /\ seeded_first (calls (snd r)) = true
  /\ device_follows_cuda w (snd r).

(** Position of the cell that loads, filters and epochs the recording. *)
Definition load_cell_index : nat := 2.

(** Past the loading cell the continuous recording is gone and the epochs
    and events are there. *)
Definition raw_released {obj : Type} (r : option (nat * exn) * kernel obj)
  : bool :=
  let (out, k) := r in
  match out with
  | Some (i, _) =>
      if Nat.leb i load_cell_index then true
      else unbound "raw" k && negb (unbound "epochs" k)
           && negb (unbound "events" k)
  | None =>
      unbound "raw" k && negb (unbound "epochs" k) && negb (unbound "events" k)
  end.

(** A world in which everything succeeds except [fit], which raises. *)
Definition fit_raises : world unit :=
  World unit (fun _ => tt) (fun _ => tt) (fun _ _ => tt) (fun _ => false)
    (fun _ => Some [tt; tt]) (fun _ => Some tt)
    (fun op _ => if String.eqb op ".fit()" then None else Some tt).

End DecodingRun.

(** ** The LIMO notebook, cell by cell *)

Module LimoNotebook.
Import Py PyLoops.
Local Open Scope py_scope.

Section Cells.
Context {obj : Type} (w : world obj).
(** The interpreter proper, for the one cell that is kept as text. *)
Variable interp : list string -> M obj unit.

Local Abbreviation name := (name w).
Local Abbreviation lit := (lit w).
Local Abbreviation call := (call w).
Local Abbreviation method := (method w).
Local Abbreviation attr := (attr w).
Local Abbreviation item := (item w).
Local Abbreviation binop := (binop w).
Local Abbreviation tuple := (tuple w).
Local Abbreviation list_ := (list_ w).
Local Abbreviation import_as := (import_as w).
Local Abbreviation from_import := (from_import w).
Local Abbreviation cell := (cell obj).

Definition cell_matplotlib : cell :=
  [ magic w "matplotlib inline" ].

Definition cell_imports : cell :=
  [ import_as "numpy" "np";
    import_as "matplotlib.pyplot" "plt";
    import_as "mne" "mne";
    from_import "mne.datasets.limo" ["load_data"];
    from_import "mne.stats" ["linear_regression"];
    from_import "mne.viz" ["plot_events"; "plot_compare_evokeds"];
    from_import "mne" ["combine_evoked"];
    from_import "mne.time_frequency" ["tfr_morlet"; "psd_multitaper"; "psd_welch"];
    expr_stmt (call "print" [name "__doc__"]);
    assign "subj" (lit "1") ].

Definition cell_load_data : cell :=
  [ assign "limo_epochs" (call "load_data" [kw "subject" (name "subj")]) ].

Definition cell_print_epochs : cell :=
  [ expr_stmt (call "print" [name "limo_epochs"]) ].

Definition cell_plot_events : cell :=
  [ assign "fig"
      (call "plot_events"
         [attr (name "limo_epochs") "events";
          kw "event_id" (attr (name "limo_epochs") "event_id")]);
    expr_stmt (method (name "fig") "suptitle"
                 [lit "'Distribution of events in LIMO epochs'"]) ].

Definition cell_summary : cell :=
  [ assign "epochs_summary"
      (method (method (attr (name "limo_epochs") "metadata") "describe"
                 [kw "include" (lit "'all'")])
         "round" [lit "3"]);
    expr_stmt (call "print" [name "epochs_summary"]) ].

Definition cell_faces : cell :=
  [ assign "ts_args" (call "dict" [kw "xlim" (tuple [lit "-0.25"; lit "0.5"])]);
    expr_stmt
      (method (method (item (name "limo_epochs") [lit "'Face/A'"]) "average" [])
         "plot_joint"
         [kw "times" (list_ [lit "0.15"]);
          kw "title" (lit "'Evoked response: Face A'");
          kw "ts_args" (name "ts_args")]);
    expr_stmt
      (method (method (item (name "limo_epochs") [lit "'Face/B'"]) "average" [])
         "plot_joint"
         [kw "times" (list_ [lit "0.15"]);
          kw "title" (lit "'Evoked response: Face B'");
          kw "ts_args" (name "ts_args")]) ].

Definition cell_difference_wave : cell :=
  [ assign "difference_wave"
      (call "combine_evoked"
         [list_ [method (item (name "limo_epochs") [lit "'Face/A'"]) "average" [];
                 method (item (name "limo_epochs") [lit "'Face/B'"]) "average" []];
          kw "weights" (list_ [lit "1"; lit "-1"])]);
    expr_stmt
      (method (name "difference_wave") "plot_joint"
         [kw "times" (list_ [lit "0.15"]);
          kw "title" (lit "'Difference Face A - Face B'")]) ].

(** [[
    for electrode in electrodes:
        fig, ax = plt.subplots(figsize=(8, 4))
        plot_compare_evokeds(evokeds, axes=ax, ylim=dict(eeg=(-20, 15)),
                             picks=electrode,
                             cmap=('Phase coherence', 'magma'))
    ]] *)
Definition plot_each_electrode : M obj unit :=
  for_ w ["electrode"] (name "electrodes")
    [ assign_unpack w ["fig"; "ax"]
        (method (name "plt") "subplots" [kw "figsize" (tuple [lit "8"; lit "4"])]);
      expr_stmt
        (call "plot_compare_evokeds"
           [name "evokeds";
            kw "axes" (name "ax");
            kw "ylim" (call "dict" [kw "eeg" (tuple [lit "-20"; lit "15"])]);
            kw "picks" (name "electrode");
            kw "cmap" (tuple [lit "'Phase coherence'"; lit "'magma'"])]) ].

(** [limo_epochs[phase_coh == level]] *)
Definition epochs_at (level : M obj obj) : M obj obj :=
  item (name "limo_epochs") [binop "==" (name "phase_coh") level].

Definition cell_evokeds : cell :=
  [ assign "phase_coh"
      (item (attr (name "limo_epochs") "metadata") [lit "'phase-coherence'"]);
    assign "levels" (call "sorted" [method (name "phase_coh") "unique" []]);
    assign "labels"
      (comprehension w (method (lit "'{0:.2f}'") "format" [name "i"]) "i"
         (method (name "np") "arange" [lit "0."; lit "0.90"; lit "0.05"]));
    assign "evokeds"
      (dict_comprehension w (name "label")
         (method (epochs_at (name "level")) "average" [])
         ["level"; "label"]
         (call "zip" [name "levels"; name "labels"]));
    assign "electrodes" (list_ [lit "'C22'"; lit "'B11'"]);
    plot_each_electrode ].

Definition cell_bands : cell :=
  [ assign "bands"
      (list_ [tuple [lit "0"; lit "4"; lit "'Delta'"];
              tuple [lit "4"; lit "8"; lit "'Theta'"];
              tuple [lit "8"; lit "12"; lit "'Alpha'"];
              tuple [lit "12"; lit "30"; lit "'Beta'"]]) ].

Definition cell_psd_topomaps : cell :=
  [ expr_stmt
      (method (epochs_at (item (name "levels") [lit "0"])) "plot_psd_topomap"
         [kw "bands" (name "bands"); kw "ch_type" (lit "'eeg'");
          kw "normalize" (lit "True")]);
    expr_stmt
      (method (epochs_at (item (name "levels") [lit "-1"])) "plot_psd_topomap"
         [kw "bands" (name "bands"); kw "ch_type" (lit "'eeg'");
          kw "normalize" (lit "True")]) ].

(** [tfr_morlet(epochs, freqs=freqs, n_cycles=n_cycles, use_fft=True,
                return_itc=True, decim=3, n_jobs=1, picks=picks)] *)
Definition tfr_of (epochs : M obj obj) : M obj obj :=
  call "tfr_morlet"
    [epochs;
     kw "freqs" (name "freqs"); kw "n_cycles" (name "n_cycles");
     kw "use_fft" (lit "True"); kw "return_itc" (lit "True");
     kw "decim" (lit "3"); kw "n_jobs" (lit "1"); kw "picks" (name "picks")].

Definition cell_power_itc : cell :=
  [ assign "picks"
      (method (name "mne") "pick_types"
         [attr (name "limo_epochs") "info";
          kw "meg" (lit "False"); kw "eeg" (lit "True");
          kw "eog" (lit "False"); kw "stim" (lit "False")]);
    assign "freqs"
      (method (name "np") "logspace"
         [star w (method (name "np") "log10" [list_ [lit "6"; lit "35"]]);
          kw "num" (lit "8")]);
    assign "n_cycles" (binop "/" (name "freqs") (lit "2."));
    assign_unpack w ["power_high"; "itc_high"]
      (tfr_of (epochs_at (item (name "levels") [lit "-1"])));
    assign_unpack w ["power_low"; "itc_low"]
      (tfr_of (epochs_at (item (name "levels") [lit "0"]))) ].

(** A cell of comments only. *)
Definition cell_popout_hint : cell := [].

Definition cell_pick : cell :=
  [ assign "pick" (lit "36");
    expr_stmt
      (call "print" [item (attr (name "power_high") "ch_names") [name "pick"]]) ].

Definition cell_power_plots : cell :=
  [ assign "blMode" (lit "'logratio'");
    assign_unpack w ["figch"; "axis"]
      (method (name "plt") "subplots"
         [lit "1"; lit "2"; kw "figsize" (tuple [lit "13"; lit "6"])]);
    expr_stmt
      (method (name "power_high") "plot"
         [list_ [name "pick"];
          kw "baseline" (tuple [lit "-0.2"; lit "0"]);
          kw "mode" (name "blMode");
          kw "axes" (item (name "axis") [lit "0"]);
          kw "show" (lit "False")]);
    expr_stmt
      (method (name "power_low") "plot"
         [list_ [name "pick"];
          kw "baseline" (tuple [lit "-0.2"; lit "0"]);
          kw "mode" (name "blMode");
          kw "axes" (item (name "axis") [lit "1"]);
          kw "show" (lit "False")]);
    expr_stmt
      (method (item (name "axis") [lit "0"]) "set"
         [kw "title"
            (binop "+" (item (attr (name "power_high") "ch_names") [name "pick"])
               (lit "' high PC'"))]);
    expr_stmt
      (method (item (name "axis") [lit "1"]) "set"
         [kw "title"
            (binop "+" (item (attr (name "power_high") "ch_names") [name "pick"])
               (lit "' low PC'"))]);
    expr_stmt (method (attr (name "mne") "viz") "tight_layout" []);
    expr_stmt (method (name "plt") "show" []) ].

(** The cell with the placeholder line, kept as text: it is compiled as a
    whole before any of it runs. *)
Definition cell_power_topomaps : cell :=
  [ Limo.run_cell interp Limo.cell_power_topomaps ].

(** [tfr.plot(pick, baseline=(-0.3, -0.01), mode=blMode, axes=axis[i,j],
              show=False)] *)
Definition plot_at (tfr i j : string) : M obj unit :=
  expr_stmt
    (method (name tfr) "plot"
       [name "pick";
        kw "baseline" (tuple [lit "-0.3"; lit "-0.01"]);
        kw "mode" (name "blMode");
        kw "axes" (item (name "axis") [lit i; lit j]);
        kw "show" (lit "False")]).

(** [axis[i,j].set(title=...)] *)
Definition set_title (i j title : string) : M obj unit :=
  expr_stmt (method (item (name "axis") [lit i; lit j]) "set"
               [kw "title" (lit title)]).

Definition cell_itc_plots : cell :=
  [ assign "blMode" (lit "'logratio'");
    assign_unpack w ["fig"; "axis"]
      (method (name "plt") "subplots"
         [lit "2"; lit "2"; kw "figsize" (tuple [lit "15"; lit "8"])]);
    plot_at "itc_high" "0" "0";
    plot_at "itc_low" "0" "1";
    expr_stmt (method (attr (name "mne") "viz") "tight_layout" []);
    set_title "0" "0" "'High-PC ITC'";
    set_title "0" "1" "'Low-PC ITC'";
    plot_at "power_low" "1" "1";
    plot_at "power_high" "1" "0";
    set_title "1" "1" "'Low-PC PWR'";
    set_title "1" "0" "'High-PC PWR'";
    expr_stmt (method (name "plt") "show" []) ].

Definition cell_picks : cell :=
  [ assign "picks"
      (method (name "mne") "pick_channels_regexp"
         [attr (name "itc_high") "ch_names"; lit "'^B1.'"]);
    assign "picks" (list_ [lit "36"; lit "37"]) ].

(** [tfr.plot_joint(baseline=(-0.3, -0.001), mode=blMode, tmin=-.2, tmax=0.5,
                    timefreqs=[(.12, 21), (.14, 7.5)], picks=picks,
                    title=...)] *)
Definition plot_joint_of (tfr title : string) : M obj unit :=
  expr_stmt
    (method (name tfr) "plot_joint"
       [kw "baseline" (tuple [lit "-0.3"; lit "-0.001"]);
        kw "mode" (name "blMode");
        kw "tmin" (lit "-.2"); kw "tmax" (lit "0.5");
        kw "timefreqs" (list_ [tuple [lit ".12"; lit "21"];
                               tuple [lit ".14"; lit "7.5"]]);
        kw "picks" (name "picks");
        kw "title" (lit title)]).

Definition cell_joint_plots : cell :=
  [ plot_joint_of "itc_high" "'High-PC'";
    plot_joint_of "itc_low" "'Low-PC'";
    assign "evokeds"
      (dict_comprehension w (name "label")
         (method (epochs_at (name "level")) "average" [])
         ["level"; "label"]
         (call "zip" [item (name "levels") [lit "1::5"];
                      item (name "labels") [lit "1::5"]]));
    assign "electrodes" (list_ [lit "'B11'"]);
    plot_each_electrode ].

(** The code cells before and after the placeholder cell, in document
    order. *)
Definition cells_before : list cell :=
  [ cell_matplotlib; cell_imports; cell_load_data; cell_print_epochs;
    cell_plot_events; cell_summary; cell_faces; cell_difference_wave;
    cell_evokeds; cell_bands; cell_psd_topomaps; cell_power_itc;
    cell_popout_hint; cell_pick; cell_power_plots ].

Definition cells_after : list cell :=
  [ cell_itc_plots; cell_picks; cell_joint_plots ].

Definition notebook : list cell :=
  cells_before ++ [cell_power_topomaps] ++ cells_after.

(** The notebook with the placeholder cell taken out. *)
Definition notebook_without_topomaps : list cell :=
  cells_before ++ cells_after.

End Cells.

(** Position of the placeholder cell among the code cells. *)
Definition topomaps_cell_index : nat := 15.

(** A run that stopped at the placeholder cell with [SyntaxError], or
    earlier with an error of an import or of a library routine. *)
Definition stops_at_topomaps (out : option (nat * exn)) : bool :=
  match out with
  | None => false
  | Some (i, e) =>
      (Nat.eqb i topomaps_cell_index
         && match e with SyntaxError => true | _ => false end)
      || (Nat.ltb i topomaps_cell_index && Decoding.is_external_error e)
  end.

End LimoNotebook.

(* ------------------------------------------------------------------ *)
(** * Proofs *)

(** ** Stepping rules of the kernel monad *)

Module PyRules.
Import Py.
Local Open Scope py_scope.

Section Rules.
Context {obj : Type} (w : world obj).

Lemma after_ret {A} (a : A) k (K : (exn + A) * kernel obj -> Prop) :
  K (inr a, k) -> after (ret a) k K.
Proof. exact (fun H => H). Qed.

Lemma after_raise {A} e k (K : (exn + A) * kernel obj -> Prop) :
  K (inl e, k) -> after (raise e) k K.
Proof. exact (fun H => H). Qed.

Lemma after_bind {A B} (m : M obj A) (f : A -> M obj B) k
  (K : (exn + B) * kernel obj -> Prop) :
  after m k (fun r => match r with
                      | (inl e, k') => K (inl e, k')
                      | (inr a, k') => after (f a) k' K
                      end) ->
  after (bind m f) k K.
Proof.
  unfold after, bind. destruct (m k) as [[e|a] k']; trivial.
Qed.

Lemma after_load x r N C (K : (exn + obj) * kernel obj -> Prop) :
  N !! x = r ->
  match r with
  | Some o => K (inr o, Kernel N C)
  | None => if bool_decide (x ∈ builtins)
            then K (inr (builtin w x), Kernel N C)
            else K (inl (NameError x), Kernel N C)
  end ->
  after (load w x) (Kernel N C) K.
Proof.
  unfold after, load; cbn. intros ->.
  destruct r; [trivial |]. destruct (bool_decide _); trivial.
Qed.

Lemma after_load_builtin x N C (K : (exn + obj) * kernel obj -> Prop) :
  N !! x = None -> bool_decide (x ∈ builtins) = true ->
  K (inr (builtin w x), Kernel N C) -> after (load w x) (Kernel N C) K.
Proof. unfold after, load; cbn. intros -> ->. trivial. Qed.

Lemma after_load_unbound x N C (K : (exn + obj) * kernel obj -> Prop) :
  N !! x = None -> bool_decide (x ∈ builtins) = false ->
  K (inl (NameError x), Kernel N C) -> after (load w x) (Kernel N C) K.
Proof. unfold after, load; cbn. intros -> ->. trivial. Qed.

Lemma after_store x o N C (K : (exn + unit) * kernel obj -> Prop) :
  K (inr tt, Kernel (<[x := o]> N) C) -> after (store x o) (Kernel N C) K.
Proof. exact (fun H => H). Qed.

Lemma after_del_bound x o N C (K : (exn + unit) * kernel obj -> Prop) :
  N !! x = Some o -> K (inr tt, Kernel (delete x N) C) ->
  after (del x) (Kernel N C) K.
Proof. unfold after, del; cbn. intros ->. trivial. Qed.

Lemma after_external op args N C (K : (exn + obj) * kernel obj -> Prop) :
  (forall o, K (inr o, Kernel N (op :: C))) ->
  K (inl (LibraryError op), Kernel N (op :: C)) ->
  after (external w op args) (Kernel N C) K.
Proof.
  unfold after, external; cbn. intros Hok Herr.
  destruct (extern w op args); [apply Hok | apply Herr].
Qed.

Lemma after_import_as module x N C (K : (exn + unit) * kernel obj -> Prop) :
  (forall o, K (inr tt, Kernel (<[x := o]> N) C)) ->
  K (inl (ImportError module), Kernel N C) ->
  after (import_as w module x) (Kernel N C) K.
Proof.
  unfold after, import_as, store; cbn. intros Hok Herr.
  destruct (import_module w module); [apply Hok | apply Herr].
Qed.

Lemma after_shell cmd N C (K : (exn + unit) * kernel obj -> Prop) :
  K (inr tt, Kernel N (("!" +:+ cmd) :: C)) -> after (shell cmd) (Kernel N C) K.
Proof. exact (fun H => H). Qed.

Lemma after_exec_nil k (K : (exn + unit) * kernel obj -> Prop) :
  K (inr tt, k) -> after (exec []) k K.
Proof. exact (fun H => H). Qed.

Lemma after_exec_cons s stmts k (K : (exn + unit) * kernel obj -> Prop) :
  after (bind s (fun _ => exec stmts)) k K -> after (exec (s :: stmts)) k K.
Proof. exact (fun H => H). Qed.

Lemma after_eval_nil k (K : (exn + list obj) * kernel obj -> Prop) :
  K (inr [], k) -> after (eval_all []) k K.
Proof. exact (fun H => H). Qed.

Lemma after_eval_cons e es k (K : (exn + list obj) * kernel obj -> Prop) :
  after (bind e (fun v => bind (eval_all es) (fun vs => ret (v :: vs)))) k K ->
  after (eval_all (e :: es)) k K.
Proof. exact (fun H => H). Qed.

Lemma after_store_all_nil vs k (K : (exn + unit) * kernel obj -> Prop) :
  K (inr tt, k) -> after (store_all [] vs) k K.
Proof. exact (fun H => H). Qed.

Lemma after_store_all_cons x xs v vs k (K : (exn + unit) * kernel obj -> Prop) :
  after (bind (store x v) (fun _ => store_all xs vs)) k K ->
  after (store_all (x :: xs) (v :: vs)) k K.
Proof. exact (fun H => H). Qed.

Lemma after_from_import_nil module k (K : (exn + unit) * kernel obj -> Prop) :
  K (inr tt, k) -> after (from_import w module []) k K.
Proof. exact (fun H => H). Qed.

Lemma after_from_import_cons module x xs k (K : (exn + unit) * kernel obj -> Prop) :
  after (bind (import_as w (module +:+ "." +:+ x) x)
           (fun _ => from_import w module xs)) k K ->
  after (from_import w module (x :: xs)) k K.
Proof. exact (fun H => H). Qed.

Lemma after_external_ok op args N C (K : (exn + obj) * kernel obj -> Prop) :
  is_Some (extern w op args) ->
  (forall o, K (inr o, Kernel N (op :: C))) ->
  after (external w op args) (Kernel N C) K.
Proof.
  unfold after, external; cbn. intros [o ->] Hok. apply Hok.
Qed.

Lemma after_import_as_ok module x N C (K : (exn + unit) * kernel obj -> Prop) :
  is_Some (import_module w module) ->
  (forall o, K (inr tt, Kernel (<[x := o]> N) C)) ->
  after (import_as w module x) (Kernel N C) K.
Proof.
  unfold after, import_as, store; cbn. intros [o ->] Hok. apply Hok.
Qed.

Lemma after_external_raises op args N C (K : (exn + obj) * kernel obj -> Prop) :
  extern w op args = None ->
  K (inl (LibraryError op), Kernel N (op :: C)) ->
  after (external w op args) (Kernel N C) K.
Proof. unfold after, external; cbn. intros ->. trivial. Qed.

(** One cell of a run. *)
Lemma run_from_cons (P : option (nat * exn) * kernel obj -> Prop) i c cells k :
  after (exec c) k (fun r => match r with
                             | (inl e, k') => P (Some (i, e), k')
                             | (inr _, k') => P (run_from (S i) cells k')
                             end) ->
  P (run_from i (c :: cells) k).
Proof.
  unfold after; cbn. destruct (exec c k) as [[e|[]] k']; trivial.
Qed.

End Rules.

(** Symbolic execution of a cell from a namespace whose keys are known. *)
Ltac py_step ext imp :=
  lazymatch goal with
  | |- after (bind _ _) _ _ => apply after_bind
  | |- after (ret _) _ _ => apply after_ret
  | |- after (raise _) _ _ => apply after_raise
  | |- after (exec []) _ _ => apply after_exec_nil
  | |- after (exec (_ :: _)) _ _ => apply after_exec_cons
  | |- after (eval_all []) _ _ => apply after_eval_nil
  | |- after (eval_all (_ :: _)) _ _ => apply after_eval_cons
  | |- after (store_all [] _) _ _ => apply after_store_all_nil
  | |- after (store_all (_ :: _) (_ :: _)) _ _ => apply after_store_all_cons
  | |- after (from_import _ _ []) _ _ => apply after_from_import_nil
  | |- after (from_import _ _ (_ :: _)) _ _ => apply after_from_import_cons
  | |- after (store _ _) _ _ => apply after_store
  | |- after (shell _) _ _ => apply after_shell
  | |- after (load _ ?x) (Kernel ?N _) _ =>
      let r := eval vm_compute in (N !! x) in
      lazymatch r with
      | Some _ => apply (after_load _ x r); [vm_compute; reflexivity |]
      | None =>
          let b := eval vm_compute in (bool_decide (x ∈ builtins)) in
          lazymatch b with
          | true => apply after_load_builtin; [vm_compute; reflexivity ..|]
          | false => apply after_load_unbound; [vm_compute; reflexivity ..|]
          end
      end
  | |- after (del ?x) (Kernel ?N _) _ =>
      let r := eval vm_compute in (N !! x) in
      lazymatch r with
      | Some ?o => apply (after_del_bound x o); [vm_compute; reflexivity |]
      end
  | |- after (external _ _ _) _ _ => ext
  | |- after (import_as _ _ _) _ _ => imp
  | |- after (name _ _) _ _ => unfold name
  | |- after (lit _ _) _ _ => unfold lit
  | |- after (kw _ _) _ _ => unfold kw
  | |- after (tuple _ _) _ _ => unfold tuple
  | |- after (list_ _ _) _ _ => unfold list_
  | |- after (dict_ _ _) _ _ => unfold dict_
  | |- after (attr _ _ _) _ _ => unfold attr
  | |- after (item _ _ _) _ _ => unfold item
  | |- after (binop _ _ _ _) _ _ => unfold binop
  | |- after (call _ _ _) _ _ => unfold call
  | |- after (method _ _ _ _) _ _ => unfold method
  | |- after (expr_stmt _) _ _ => unfold expr_stmt
  | |- after (assign _ _) _ _ => unfold assign
  | |- after (assign_tuple _ _) _ _ => unfold assign_tuple
  | |- after (aug_assign_item _ _ _ _ _) _ _ => unfold aug_assign_item
  | |- after (magic _ _) _ _ => unfold magic
  | |- after (set_attr _ _ _ _) _ _ => unfold set_attr
  | |- after (if_ _ _ _) _ _ => unfold if_
  | |- after (Decoding.if_else _ _ _ _) _ _ => unfold Decoding.if_else
  | |- after (if truthy ?w ?o then _ else _) _ _ => destruct (truthy w o)
  end; cbv beta iota.

(** Run the next cell of a list: [P] is the property claimed of the run,
    [open_cell] unfolds the cell, [ext] and [imp] say how a library call and
    an import are entered, [leaf] closes a run that has stopped. *)
Ltac py_cell P open_cell ext imp leaf :=
  apply (run_from_cons P); open_cell;
  repeat first [ py_step ext imp | leaf ].

End PyRules.

Module DecodingProofs.
Import Py PyRules Decoding.

Section Run.
Context {obj : Type} (w : world obj).

Ltac open_cell :=
  unfold cell_pip, cell_matplotlib, cell_load_and_prepare,
    cell_import_create_from_X_y, cell_sfreq_ch_names, cell_windows_dataset,
    cell_setup_model, cell_fit.

(** In any world each routine either returns or raises. *)
Ltac any_extern := idtac; apply after_external; [intros ? |].
Ltac any_import := idtac; apply after_import_as; [intros ? |].

Lemma run_stops_bool : stops_at_windows_cell (run_all (notebook w)) = true.
Proof.
  unfold run_all, notebook, fresh.
  do 6 py_cell (fun r : option (nat * exn) * kernel obj =>
                  stops_at_windows_cell r = true)
         open_cell any_extern any_import
         ltac:(idtac; lazymatch goal with
               | |- stops_at_windows_cell (Some _, _) = true =>
                   vm_compute; reflexivity
               end).
Qed.

Lemma never_called_sound routine log :
  never_called routine log = true -> routine ∉ log.
Proof.
  unfold never_called. intros H Hin.
  apply list_elem_of_In in Hin.
  rewrite forallb_forall in H. specialize (H _ Hin).
  rewrite String.eqb_refl in H. discriminate.
Qed.

Lemma unbound_sound x (k : kernel obj) : unbound x k = true -> ns k !! x = None.
Proof. unfold unbound. destruct (ns k !! x); [discriminate | reflexivity]. Qed.

Lemma run_reaches_windows_cell :
  cooperative w ->
  exists k, run_all (notebook w)
            = (Some (windows_cell_index, NameError "X"), k).
Proof.
  intros [Himp Hext].
  unfold run_all, notebook, fresh.
  do 6 py_cell (fun r : option (nat * exn) * kernel obj =>
                  exists k, r = (Some (windows_cell_index, NameError "X"), k))
         open_cell
         ltac:(idtac; apply after_external_ok; [apply Hext | intros ?])
         ltac:(idtac; apply after_import_as_ok; [apply Himp | intros ?])
         ltac:(idtac; lazymatch goal with
               | |- exists k, (Some _, _) = _ => eexists; reflexivity
               end).
Qed.

(** With [X] and [y] bound beforehand the same notebook runs to its end in
    the silent world: these two names are all the cell was missing. *)
Example run_with_X_y_bound :
  fst (run_from 0 (notebook silent_world) (with_X_y tt tt)) = None.
Proof. vm_compute. reflexivity. Qed.

(** The fit cell calls [fit] once, outside any loop or handler: when [fit]
    raises, the run stops there and nothing reads the training history. *)
Lemma failed_fit_is_final_bool (ox oy : obj) :
  (forall args, extern w ".fit()" args = None) ->
  fit_failure_is_final (run_from 0 (notebook w) (with_X_y ox oy)) = true.
Proof.
  intros Hfit. unfold notebook, with_X_y.
  do 8 py_cell (fun r : option (nat * exn) * kernel obj =>
                  fit_failure_is_final r = true)
         open_cell
         ltac:(idtac; first [ apply after_external_raises; [apply Hfit |]
                     | any_extern ])
         any_import
         ltac:(idtac; lazymatch goal with
               | |- fit_failure_is_final (Some _, _) = true =>
                   vm_compute; reflexivity
               end).
Qed.


(** C9.  In the decoding notebook the cell that builds the windowed dataset
    reads [X] and [y], which no earlier cell binds.  Whatever the libraries
    do, a top-to-bottom run stops: at that cell with [NameError] for [X], or
    earlier if an import or a library routine raised; at the point where it
    stops [X] and [y] are unbound, no dataset, model or classifier exists and
    neither the network constructor nor [fit] has been entered.  When every
    import and library routine succeeds, the run stops exactly at that
    cell. *)
Theorem windows_cell_stops_the_run :
  (exists i e k,
      run_all (notebook w) = (Some (i, e), k)
      /\ (i = windows_cell_index /\ e = NameError "X"
          \/ (i < windows_cell_index)%nat /\ is_external_error e = true)
      /\ ns k !! "X" = None /\ ns k !! "y" = None
      /\ ns k !! "windows_dataset" = None
      /\ ns k !! "model" = None /\ ns k !! "clf" = None
      /\ ("create_from_X_y()" ∉ calls k)
      /\ ("ShallowFBCSPNet()" ∉ calls k)
      /\ ("EEGClassifier()" ∉ calls k)
      /\ (".fit()" ∉ calls k))
  /\ (cooperative w ->
      exists k, run_all (notebook w)
                = (Some (windows_cell_index, NameError "X"), k)).
Proof.
  split; [| exact run_reaches_windows_cell].
  pose proof run_stops_bool as H.
  destruct (run_all (notebook w)) as [[[i e]|] k]; cbn in H; [| discriminate].
  exists i, e, k.
  repeat (apply andb_prop in H; destruct H as [H ?]).
  split; [reflexivity |].
  repeat split; auto using never_called_sound, unbound_sound.
  apply orb_prop in H. destruct H as [H | H];
    apply andb_prop in H; destruct H as [Hi He].
  - left. apply Nat.eqb_eq in Hi. split; [exact Hi |].
    destruct e; try discriminate. apply String.eqb_eq in He. now subst.
  - right. split; [| exact He]. apply Nat.leb_le in Hi.
    unfold windows_cell_index. lia.
Qed.

End Run.
End DecodingProofs.


(** ** The placeholder cell of the LIMO notebook *)

Module LimoProofs.
Import Py Limo.

(** The scanner on small cells: an [=] that ends a physical line inside
    brackets, in a comment or in a string literal is not dangling. *)
Example keyword_argument_across_lines :
  unparsable ["f(a="; "  1)"] = false.
Proof. reflexivity. Qed.

Example equals_in_comment_and_string :
  unparsable ["x = 1  # then y ="; "s = 'a ='"] = false.
Proof. reflexivity. Qed.

Example assignment_without_value : unparsable ["x, y = "] = true.
Proof. reflexivity. Qed.

Lemma text_cons l ls :
  text (l :: ls) = list_ascii_of_string l ++ newline :: text ls.
Proof. unfold text; cbn [flat_map]. now rewrite <- app_assoc. Qed.

Lemma chars_append (a b : string) :
  list_ascii_of_string (a +:+ b)
  = list_ascii_of_string a ++ list_ascii_of_string b.
Proof.
  induction a as [| c a IH]; [reflexivity |].
  change (String c a +:+ b) with (String c (a +:+ b)).
  cbn [list_ascii_of_string app]. f_equal. exact IH.
Qed.

Lemma scan_blank_tail n first tail :
  dangling first (Some "="%char) = true ->
  scan Code 0 first (Some "="%char)
    (list_ascii_of_string (spaces n) ++ newline :: tail) = true.
Proof.
  intros Hd. induction n as [| n IH].
  - change ((if dangling first (Some "="%char) then true
             else scan Code 0 None None tail) = true).
    now rewrite Hd.
  - exact IH.
Qed.

(** Blanks after the [=] do not help. *)
Lemma blank_placeholder_unparsable n :
  unparsable (cell_power_topomaps_with (spaces n)) = true.
Proof.
  unfold unparsable, cell_power_topomaps_with.
  rewrite !text_cons, chars_append, <- app_assoc.
  exact (scan_blank_tail n (Some "f"%char) _ eq_refl).
Qed.

Lemma placeholder_unparsable : unparsable cell_power_topomaps = true.
Proof. exact (blank_placeholder_unparsable 0). Qed.

Lemma suggested_parsable :
  unparsable (cell_power_topomaps_with suggested_values) = false.
Proof. vm_compute. reflexivity. Qed.

(** C8.  The cell that compares power topographies assigns nothing to
    [fmin1, fmax1, fmin2, fmax2, tmin, tmax]: the line ends after the [=].
    From every kernel state, and whatever the interpreter would do with a
    well-formed cell, running it raises [SyntaxError] and leaves the kernel
    as it was (no name bound, no routine entered, so no topographic map);
    blanks after the [=] change nothing; with values written after the [=]
    the cell is handed to the interpreter. *)
Theorem topomap_cell_cannot_run {obj : Type}
  (interp : list string -> M obj unit) (k : kernel obj) :
  run_cell interp cell_power_topomaps k = (inl SyntaxError, k)
  /\ (forall n, run_cell interp (cell_power_topomaps_with (spaces n)) k
                = (inl SyntaxError, k))
  /\ run_cell interp (cell_power_topomaps_with suggested_values) k
     = interp (cell_power_topomaps_with suggested_values) k.
Proof.
  unfold run_cell.
  rewrite placeholder_unparsable, suggested_parsable.
  split; [reflexivity |]. split; [| reflexivity].
  intros n. now rewrite blank_placeholder_unparsable.
Qed.

End LimoProofs.

(** ** The model is sized from the dataset it is fitted on *)

Module BraindecodeProofs.
Import Py Braindecode.

Lemma setup_model_reads_first_window ds m :
  setup_model ds = inr m ->
  exists w0 c t, ds !! 0%nat = Some w0
                 /\ shape (X w0) !! 0%nat = Some c
                 /\ shape (X w0) !! 1%nat = Some t
                 /\ m = Shallow c 4 t Auto.
Proof.
  unfold setup_model, getitem. intros H.
  destruct (ds !! 0%nat) as [w0|] eqn:Hw; [| discriminate].
  destruct (shape (X w0) !! 0%nat) as [c|] eqn:Hc; [| discriminate].
  destruct (shape (X w0) !! 1%nat) as [t|] eqn:Ht; [| discriminate].
  injection H as <-. eauto 8.
Qed.

Lemma setup_model_empty : setup_model [] = inl IndexError.
Proof. reflexivity. Qed.

(** C10.  The model's channel count and window length are read from the
    first window of the dataset, with [final_conv_length='auto'].  So for a
    dataset whose windows all have one shape, either the cell builds a model
    that is consistent with every window of that dataset (fitting on it
    cannot fail on a shape mismatch), or the cell itself stops with
    [IndexError] (no first window, or fewer than two axes) and no model
    exists to be fitted. *)
Theorem shape_mismatch_unreachable (ds : list window) :
  uniform ds ->
  match setup_model ds with
  | inr m =>
      final_conv_length m = Auto
      /\ shape_mismatch m ds = false
      /\ forall w, w ∈ ds ->
           shape (X w) !! 0%nat = Some (in_chans m)
           /\ shape (X w) !! 1%nat = Some (input_window_samples m)
  | inl e => e = IndexError
  end.
Proof.
  intros Huni.
  destruct (setup_model ds) as [e | m] eqn:Hm.
  - unfold setup_model, getitem in Hm.
    repeat match type of Hm with
           | context [match ?o with Some _ => _ | None => _ end] =>
               destruct o; cbn in Hm
           end; congruence.
  - destruct (setup_model_reads_first_window ds m Hm)
      as (w0 & c & t & Hw0 & Hc & Ht & ->).
    assert (Hin0 : w0 ∈ ds) by (eapply list_elem_of_lookup_2; exact Hw0).
    assert (Hall : forall w, w ∈ ds ->
                     shape (X w) !! 0%nat = Some c /\ shape (X w) !! 1%nat = Some t).
    { intros w Hin. rewrite (Huni w w0 Hin Hin0). now split. }
    split; [reflexivity |]. split; [| exact Hall].
    unfold shape_mismatch.
    apply not_true_is_false. intros Hex.
    apply existsb_exists in Hex. destruct Hex as (w & Hin & Hbad).
    apply list_elem_of_In in Hin.
    destruct (Hall w Hin) as [H0 H1].
    unfold consistent in Hbad. rewrite H0, H1 in Hbad. cbn in Hbad.
    rewrite !Nat.eqb_refl in Hbad. discriminate.
Qed.

End BraindecodeProofs.

(** ** Epoching and filtering *)

Module MNEProofs.
Import Py MNE.
Local Open Scope Q_scope.

Lemma omap_length_le {A B : Type} (f : A -> option B) (l : list A) :
  (length (omap f l) <= length l)%nat.
Proof.
  induction l as [| a l IH]; cbn; [lia |].
  destruct (f a); cbn; lia.
Qed.

Lemma lookup_map {A B : Type} (f : A -> B) (l : list A) (i : nat) (a : A) :
  l !! i = Some a -> map f l !! i = Some (f a).
Proof.
  revert i. induction l as [| x l IH]; intros [| i] H; try discriminate.
  - injection H as ->. reflexivity.
  - cbn in *. now apply IH.
Qed.

Lemma Qltb_false (a b : Q) : Qltb a b = false -> b <= a.
Proof.
  unfold Qltb. intros H. apply negb_false_iff in H.
  now apply Qle_bool_iff.
Qed.

Lemma Qltb_true (a b : Q) : a < b -> Qltb a b = true.
Proof.
  unfold Qltb. intros H. apply negb_true_iff.
  destruct (Qle_bool b a) eqn:E; [| reflexivity].
  apply Qle_bool_iff in E. exfalso. exact (Qlt_not_le _ _ H E).
Qed.

(** An epoch none of whose channels is reported satisfies every threshold. *)
Lemma offending_nil reject ep :
  offending reject ep = [] -> within_thresholds reject ep.
Proof.
  unfold offending, within_thresholds. intros Hnil c thr Hc Hthr.
  apply map_eq_nil in Hnil.
  assert (Hex : exceeds reject c = false).
  { destruct (exceeds reject c) eqn:E; [| reflexivity].
    assert (Hin : In c (List.filter (exceeds reject) (ep_channels ep))).
    { apply filter_In. split; [now apply list_elem_of_In | exact E]. }
    rewrite Hnil in Hin. destruct Hin. }
  unfold exceeds in Hex. rewrite Hthr in Hex. now apply Qltb_false.
Qed.

(** A channel above its threshold is reported by name. *)
Lemma offending_reports reject ep c thr :
  c ∈ ep_channels ep -> threshold reject (ch_type c) = Some thr ->
  thr < ptp (samples c) -> ch_name c ∈ offending reject ep.
Proof.
  intros Hc Hthr Hlt. unfold offending.
  apply list_elem_of_In, in_map, filter_In.
  split; [now apply list_elem_of_In |].
  unfold exceeds. rewrite Hthr. now apply Qltb_true.
Qed.

Lemma judge_kept raw event_id tmin tmax picks reject ev ep :
  judge raw event_id tmin tmax picks reject ev = Kept ep ->
  known_code event_id ev = true
  /\ cut raw picks tmin tmax ev = Some ep
  /\ within_thresholds reject ep.
Proof.
  unfold judge. destruct (known_code event_id ev); [| discriminate].
  destruct (cut raw picks tmin tmax ev) as [ep' |]; [| discriminate].
  destruct (offending reject ep') eqn:Hoff; [| discriminate].
  intros [= <-]. auto using offending_nil.
Qed.

Lemma kept_within raw events event_id tmin tmax picks reject ep :
  ep ∈ kept (Epochs raw events event_id tmin tmax picks reject) ->
  within_thresholds reject ep.
Proof.
  unfold Epochs; cbn [kept]. intros Hin.
  apply list_elem_of_omap in Hin. destruct Hin as (v & Hv & Hret).
  apply list_elem_of_In, in_map_iff in Hv. destruct Hv as (ev & <- & _).
  destruct (judge raw event_id tmin tmax picks reject ev) as [ep' | rs] eqn:Hj;
    [| discriminate].
  injection Hret as ->. now apply judge_kept in Hj.
Qed.

(** The epochs the decoding notebook ends up with: at most one per event,
    EEG channels only, each within 150 microvolts peak to peak. *)
Lemma load_and_prepare_within_150uV design raw events eps :
  load_and_prepare design raw events = inr eps ->
  (length (kept eps) <= length events)%nat
  /\ forall ep c, ep ∈ kept eps -> c ∈ ep_channels ep ->
       ch_type c = "eeg" /\ ptp (samples c) <= 150 # 1000000.
Proof.
  unfold load_and_prepare.
  destruct (filter design raw 2 40) as [e | filtered]; [discriminate |].
  intros [= <-]. unfold pick_types; cbn [kept].
  set (raw' := add_bads filtered _).
  assert (Hin : forall ep, ep ∈ kept (notebook_epochs raw' events) ->
                 within_thresholds notebook_reject ep)
    by (intros ep; apply kept_within).
  split.
  { rewrite length_map. unfold notebook_epochs, Epochs; cbn [kept].
    etransitivity; [apply omap_length_le |]. now rewrite length_map. }
  intros ep c Hep Hc.
  apply list_elem_of_In, in_map_iff in Hep. destruct Hep as (ep0 & <- & Hep0).
  cbn [ep_channels] in Hc.
  apply list_elem_of_In, filter_In in Hc. destruct Hc as [Hc Hty].
  apply andb_prop in Hty. destruct Hty as [Hty _].
  cbn in Hty. rewrite orb_false_r in Hty. apply String.eqb_eq in Hty.
  split; [exact Hty |].
  apply (Hin ep0); [now apply list_elem_of_In | now apply list_elem_of_In |].
  rewrite Hty. reflexivity.
Qed.

(** C2.  For every recording, event table, label map, window, channel
    selection and rejection thresholds, the epoching step returns a
    collection (it cannot fail) with at most one epoch per input event and
    one log entry per event; every retained epoch is within the threshold on
    every monitored channel; and an epoch with a channel above its threshold
    is not retained, its log entry naming the channel. *)
Theorem epochs_reject_by_amplitude (raw : Raw) (events : list event)
  (event_id : list (string * Z)) (tmin tmax : Q) (picks : list string)
  (reject : list (string * Q)) :
  let eps := Epochs raw events event_id tmin tmax picks reject in
  (length (kept eps) <= length events)%nat
  /\ length (drop_log eps) = length events
  /\ (forall ep, ep ∈ kept eps -> within_thresholds reject ep)
  /\ (forall i ev ep c thr,
        events !! i = Some ev ->
        known_code event_id ev = true ->
        cut raw picks tmin tmax ev = Some ep ->
        c ∈ ep_channels ep ->
        threshold reject (ch_type c) = Some thr ->
        thr < ptp (samples c) ->
        (ep ∉ kept eps)
        /\ exists reasons, drop_log eps !! i = Some reasons
                           /\ ch_name c ∈ reasons).
Proof.
  cbn zeta. split; [| split; [| split]].
  - unfold Epochs; cbn [kept].
    etransitivity; [apply omap_length_le |]. now rewrite length_map.
  - unfold Epochs; cbn [drop_log]. now rewrite !length_map.
  - intros ep. apply kept_within.
  - intros i ev ep c thr Hev Hknown Hcut Hc Hthr Hlt. split.
    + intros Hkept. apply kept_within in Hkept.
      specialize (Hkept c thr Hc Hthr). exact (Qlt_not_le _ _ Hlt Hkept).
    + pose proof (offending_reports reject ep c thr Hc Hthr Hlt) as Hrep.
      exists (offending reject ep). split; [| exact Hrep].
      unfold Epochs; cbn [drop_log].
      erewrite lookup_map; [| erewrite lookup_map; [reflexivity | exact Hev]].
      unfold judge. rewrite Hknown, Hcut.
      destruct (offending reject ep) eqn:Hoff; [| reflexivity].
      apply list_elem_of_In in Hrep. destruct Hrep.
Qed.

(** *** Filtering keeps the shape of the recording *)

Lemma zero_phase_fir_length (h x : list Q) :
  length (zero_phase_fir h x) = length x.
Proof. unfold zero_phase_fir. now rewrite length_map, length_seq. Qed.

Lemma valid_cutoffs_true raw l_freq h_freq :
  0 < l_freq -> l_freq < h_freq -> h_freq < nyquist raw ->
  valid_cutoffs raw l_freq h_freq = true.
Proof.
  intros H1 H2 H3. unfold valid_cutoffs.
  now rewrite !Qltb_true.
Qed.

(** C4.  For every recording and every valid cutoff pair
    [0 < low < high < Nyquist] the band-pass filter returns a recording with
    the same number of channels and the same number of samples (in every
    channel), and the same sampling rate, channel names and types. *)
Theorem filter_preserves_shape (design : Q -> Q -> Q -> list Q) (raw : Raw)
  (l_freq h_freq : Q) :
  0 < l_freq -> l_freq < h_freq -> h_freq < nyquist raw ->
  exists raw', filter design raw l_freq h_freq = inr raw'
    /\ n_channels raw' = n_channels raw
    /\ n_times raw' = n_times raw
    /\ map (fun c => length (samples c)) (channels raw')
       = map (fun c => length (samples c)) (channels raw)
    /\ map ch_name (channels raw') = map ch_name (channels raw)
    /\ map ch_type (channels raw') = map ch_type (channels raw)
    /\ sfreq raw' = sfreq raw.
Proof.
  intros H1 H2 H3. unfold filter.
  rewrite valid_cutoffs_true by assumption.
  eexists. split; [reflexivity |].
  unfold n_channels, n_times; cbn [channels sfreq].
  rewrite length_map, !map_map; cbn [samples ch_name ch_type].
  repeat split.
  - destruct (channels raw) as [| c cs]; [reflexivity |].
    cbn [map samples]. apply zero_phase_fir_length.
  - apply map_ext. intros c. apply zero_phase_fir_length.
Qed.

End MNEProofs.

(** ** Inter-trial coherence is bounded *)

Module TimeFrequencyProofs.
Import TimeFrequency.
Local Open Scope R_scope.

Lemma norm2_nonneg (a b : R) : 0 <= a * a + b * b.
Proof. nra. Qed.

Lemma Cabs_nonneg (z : C) : 0 <= Cabs z.
Proof. apply sqrt_pos. Qed.

Lemma sqrt_le_of_square (x y : R) : 0 <= y -> x <= y * y -> sqrt x <= y.
Proof.
  intros Hy Hxy.
  rewrite <- (sqrt_square y Hy). now apply sqrt_le_1_alt.
Qed.

Lemma Cabs_sqr (z : C) : Cabs z * Cabs z = fst z * fst z + snd z * snd z.
Proof. unfold Cabs. apply sqrt_sqrt, norm2_nonneg. Qed.

Lemma Cabs_triangle (a b : C) : Cabs (Cadd a b) <= Cabs a + Cabs b.
Proof.
  destruct a as [a1 a2], b as [b1 b2].
  pose proof (Cabs_nonneg (a1, a2)) as Ha.
  pose proof (Cabs_nonneg (b1, b2)) as Hb.
  pose proof (Cabs_sqr (a1, a2)) as Ha2.
  pose proof (Cabs_sqr (b1, b2)) as Hb2.
  pose proof (sqrt_cauchy a1 a2 b1 b2) as Hcs.
  unfold Rsqr in Hcs. fold (Cabs (a1, a2)) in Hcs.
  change (sqrt (b1 * b1 + b2 * b2)) with (Cabs (b1, b2)) in Hcs.
  change (sqrt (a1 * a1 + a2 * a2)) with (Cabs (a1, a2)) in Hcs.
  cbn [fst snd] in Ha2, Hb2.
  unfold Cadd; cbn [fst snd].
  unfold Cabs at 1; cbn [fst snd].
  apply sqrt_le_of_square; [lra | nra].
Qed.

Lemma Cabs_scale (r : R) (z : C) : Cabs (Cscale r z) = Rabs r * Cabs z.
Proof.
  destruct z as [a b]. unfold Cabs, Cscale; cbn [fst snd].
  replace (r * a * (r * a) + r * b * (r * b)) with (Rsqr r * (a * a + b * b))
    by (unfold Rsqr; ring).
  rewrite sqrt_mult_alt by apply Rle_0_sqr.
  now rewrite sqrt_Rsqr_abs.
Qed.

Lemma Cabs_zero : Cabs (0, 0) = 0.
Proof.
  unfold Cabs; cbn [fst snd].
  replace (0 * 0 + 0 * 0) with 0 by ring. apply sqrt_0.
Qed.

(** The phase vector of a non-zero coefficient has magnitude 1. *)
Lemma phase_vector_unit (z : C) : Cabs z <> 0 -> Cabs (phase_vector z) = 1.
Proof.
  intros Hz. unfold phase_vector. rewrite Cabs_scale.
  pose proof (Cabs_nonneg z) as Hpos.
  rewrite Rabs_right.
  - now apply Rinv_l.
  - apply Rle_ge. left. apply Rinv_0_lt_compat. lra.
Qed.

Lemma phase_vector_le_1 (z : C) : Cabs (phase_vector z) <= 1.
Proof.
  destruct (Req_dec (Cabs z) 0) as [Hz | Hz].
  - unfold phase_vector. rewrite Cabs_scale, Hz. rewrite Rmult_0_r. lra.
  - rewrite phase_vector_unit by assumption. lra.
Qed.

Lemma Cabs_sum_le (l : list C) :
  Forall (fun z => Cabs z <= 1) l -> Cabs (Csum l) <= INR (length l).
Proof.
  induction 1 as [| z l Hz _ IH].
  - cbn. rewrite Cabs_zero. lra.
  - change (Csum (z :: l)) with (Cadd z (Csum l)).
    change (length (z :: l)) with (S (length l)). rewrite S_INR.
    pose proof (Cabs_triangle z (Csum l)). lra.
Qed.

Lemma Cabs_mean_le_1 (l : list C) :
  l <> [] -> Forall (fun z => Cabs z <= 1) l -> Cabs (Cmean l) <= 1.
Proof.
  intros Hne Hall. unfold Cmean. rewrite Cabs_scale.
  assert (Hn : 0 < INR (length l)).
  { apply lt_0_INR. destruct l; [congruence | cbn; lia]. }
  rewrite Rabs_right by (apply Rle_ge; left; now apply Rinv_0_lt_compat).
  pose proof (Cabs_sum_le l Hall) as Hsum.
  apply (Rmult_le_reg_l (INR (length l))); [exact Hn |].
  rewrite <- Rmult_assoc, Rinv_r by lra. lra.
Qed.

Lemma itc_bounds (trial : Type) (coef : trial -> nat -> nat -> nat -> C)
  (trials : list trial) (ch f t : nat) :
  trials <> [] -> 0 <= itc trial coef trials ch f t <= 1.
Proof.
  intros Hne. unfold itc.
  split; [apply Cabs_nonneg |].
  apply Cabs_mean_le_1.
  - destruct trials; [congruence | discriminate].
  - apply Forall_forall. intros z Hz.
    apply list_elem_of_In, in_map_iff in Hz. destruct Hz as (e & <- & _).
    apply phase_vector_le_1.
Qed.

(** C1.  For a non-empty set of trials and every channel, frequency and
    time bin, the inter-trial coherence of the time-frequency step is the
    magnitude of the mean over trials of the phase vectors of the complex
    coefficients; these have magnitude 1 wherever the coefficient is not
    zero, and the coherence lies in [0, 1]. *)
Theorem itc_in_unit_interval (trial : Type)
  (coef : trial -> nat -> nat -> nat -> C) (trials : list trial)
  (ch f t : nat) :
  trials <> [] ->
  snd (tfr_morlet trial coef trials) ch f t
  = Cabs (Cmean (map (fun e => phase_vector (coef e ch f t)) trials))
  /\ (forall e, Cabs (coef e ch f t) <> 0 ->
                Cabs (phase_vector (coef e ch f t)) = 1)
  /\ 0 <= snd (tfr_morlet trial coef trials) ch f t <= 1.
Proof.
  intros Hne. cbn [snd tfr_morlet].
  split; [reflexivity |].
  split; [intros e He; now apply phase_vector_unit |].
  now apply itc_bounds.
Qed.

End TimeFrequencyProofs.

(** ** Comparing float64 values *)

Module Float64Proofs.
Import Float64.
Import SpecFloat FloatOps FloatAxioms.

(** A non-NaN value is placed by sign, then exponent, then mantissa. *)
Definition key (f : spec_float) : Z * Z * Z :=
  match f with
  | S754_nan => (0, 0, 0)%Z
  | S754_infinity true => (-2, 0, 0)%Z
  | S754_infinity false => (2, 0, 0)%Z
  | S754_zero _ => (0, 0, 0)%Z
  | S754_finite true m e => (-1, - e, - Zpos m)%Z
  | S754_finite false m e => (1, e, Zpos m)%Z
  end.

Definition lex (k1 k2 : Z * Z * Z) : comparison :=
  let '(a1, b1, c1) := k1 in
  let '(a2, b2, c2) := k2 in
  match Z.compare a1 a2 with
  | Eq => match Z.compare b1 b2 with
          | Eq => Z.compare c1 c2
          | c => c
          end
  | c => c
  end.

Definition klt (k1 k2 : Z * Z * Z) : Prop :=
  let '(a1, b1, c1) := k1 in
  let '(a2, b2, c2) := k2 in
  (a1 < a2 \/ (a1 = a2 /\ (b1 < b2 \/ (b1 = b2 /\ c1 < c2))))%Z.

Lemma lex_Lt k1 k2 : lex k1 k2 = Lt <-> klt k1 k2.
Proof.
  destruct k1 as [[a1 b1] c1], k2 as [[a2 b2] c2]. unfold lex, klt.
  destruct (Z.compare_spec a1 a2); destruct (Z.compare_spec b1 b2);
    destruct (Z.compare_spec c1 c2); split; intros HH;
    try discriminate; try reflexivity; try lia.
Qed.

Lemma lex_Gt k1 k2 : lex k1 k2 = Gt <-> klt k2 k1.
Proof.
  destruct k1 as [[a1 b1] c1], k2 as [[a2 b2] c2]. unfold lex, klt.
  destruct (Z.compare_spec a1 a2); destruct (Z.compare_spec b1 b2);
    destruct (Z.compare_spec c1 c2); split; intros HH;
    try discriminate; try reflexivity; try lia.
Qed.

Lemma lex_Eq k1 k2 : lex k1 k2 = Eq <-> k1 = k2.
Proof.
  destruct k1 as [[a1 b1] c1], k2 as [[a2 b2] c2]. unfold lex.
  destruct (Z.compare_spec a1 a2); destruct (Z.compare_spec b1 b2);
    destruct (Z.compare_spec c1 c2); split; intros HH;
    try discriminate; try reflexivity; try (injection HH; lia);
    try (f_equal; [f_equal |]; lia).
Qed.

Lemma SFcompare_key f1 f2 :
  f1 <> S754_nan -> f2 <> S754_nan ->
  SFcompare f1 f2 = Some (lex (key f1) (key f2)).
Proof.
  intros H1 H2.
  destruct f1 as [s1 | s1 | | s1 m1 e1]; [| | contradiction |];
    destruct f2 as [s2 | s2 | | s2 m2 e2]; try contradiction;
    try (destruct s1; destruct s2; reflexivity);
    try (destruct s1; reflexivity); try (destruct s2; reflexivity).
  all: try (destruct s1; reflexivity).
  all: try (destruct s2; reflexivity).
  destruct s1, s2; cbn [SFcompare key lex]; try reflexivity.
  - rewrite Z.compare_opp.
    change (Z.neg m1 ?= Z.neg m2)%Z with (CompOpp (Pos.compare m1 m2)).
    rewrite (Z.compare_antisym e1 e2).
    unfold Pos.compare.
    destruct (Z.compare e1 e2); reflexivity.
Qed.

Lemma is_nan_spec x : PrimFloat.is_nan x = true <-> Prim2SF x = S754_nan.
Proof.
  unfold PrimFloat.is_nan. rewrite eqb_spec. unfold SFeqb.
  destruct (Prim2SF x) as [s | s | | s m e] eqn:Hx.
  - cbn. split; discriminate.
  - destruct s; cbn; split; discriminate.
  - cbn. split; reflexivity.
  - rewrite (SFcompare_key (S754_finite s m e) (S754_finite s m e))
      by discriminate.
    rewrite (proj2 (lex_Eq _ _) eq_refl). cbn. split; discriminate.
Qed.

Lemma not_nan_spec x : PrimFloat.is_nan x = false <-> Prim2SF x <> S754_nan.
Proof.
  rewrite <- is_nan_spec. destruct (PrimFloat.is_nan x); split; congruence.
Qed.

Definition fkey (x : float64) : Z * Z * Z := key (Prim2SF x).

Lemma leb_key x y :
  PrimFloat.leb x y = true
  <-> PrimFloat.is_nan x = false /\ PrimFloat.is_nan y = false
      /\ ~ klt (fkey y) (fkey x).
Proof.
  rewrite leb_spec, !not_nan_spec. unfold SFleb, fkey.
  destruct (Prim2SF x) as [s | s | | s m e] eqn:Hx;
    try (cbn; split; [discriminate | intros (H & _); now destruct H]);
    destruct (Prim2SF y) as [s' | s' | | s' m' e'] eqn:Hy;
    try (destruct s; cbn; split; [discriminate | intros (_ & H & _); now destruct H]);
    try (cbn; split; [discriminate | intros (_ & H & _); now destruct H]).
  all: rewrite SFcompare_key by discriminate.
  all: rewrite <- lex_Gt.
  all: match goal with |- context [lex ?a ?b] => destruct (lex a b) end.
  all: split; [intros H; try discriminate H; repeat split; discriminate
              | intros (_ & _ & H); try reflexivity; now destruct H].
Qed.

Lemma ltb_key x y :
  PrimFloat.ltb x y = true
  <-> PrimFloat.is_nan x = false /\ PrimFloat.is_nan y = false
      /\ klt (fkey x) (fkey y).
Proof.
  rewrite ltb_spec, !not_nan_spec. unfold SFltb, fkey.
  destruct (Prim2SF x) as [s | s | | s m e] eqn:Hx;
    try (cbn; split; [discriminate | intros (H & _); now destruct H]);
    destruct (Prim2SF y) as [s' | s' | | s' m' e'] eqn:Hy;
    try (destruct s; cbn; split; [discriminate | intros (_ & H & _); now destruct H]);
    try (cbn; split; [discriminate | intros (_ & H & _); now destruct H]).
  all: rewrite SFcompare_key by discriminate.
  all: rewrite <- lex_Lt.
  all: match goal with |- context [lex ?a ?b] => destruct (lex a b) end.
  all: split; [intros H; try discriminate H; repeat split; discriminate
              | intros (_ & _ & H); try reflexivity; discriminate].
Qed.

Lemma eqb_key x y :
  PrimFloat.eqb x y = true
  <-> PrimFloat.is_nan x = false /\ PrimFloat.is_nan y = false
      /\ fkey x = fkey y.
Proof.
  rewrite eqb_spec, !not_nan_spec. unfold SFeqb, fkey.
  destruct (Prim2SF x) as [s | s | | s m e] eqn:Hx;
    try (cbn; split; [discriminate | intros (H & _); now destruct H]);
    destruct (Prim2SF y) as [s' | s' | | s' m' e'] eqn:Hy;
    try (destruct s; cbn; split; [discriminate | intros (_ & H & _); now destruct H]);
    try (cbn; split; [discriminate | intros (_ & H & _); now destruct H]).
  all: rewrite SFcompare_key by discriminate.
  all: rewrite <- lex_Eq.
  all: match goal with |- context [lex ?a ?b] => destruct (lex a b) end.
  all: split; [intros H; try discriminate H; repeat split; discriminate
              | intros (_ & _ & H); try reflexivity; discriminate].
Qed.


Ltac open_keys :=
  repeat match goal with
         | |- context [fkey ?x] => destruct (fkey x) as [[? ?] ?]
         | H : context [fkey ?x] |- _ => destruct (fkey x) as [[? ?] ?]
         end;
  unfold klt in *.

Lemma feq_refl x : is_number x -> feq x x = true.
Proof.
  unfold is_number, PrimFloat.is_nan, feq.
  now destruct (PrimFloat.eqb x x).
Qed.

Lemma feq_numbers x y : feq x y = true -> is_number x /\ is_number y.
Proof. intros H. apply eqb_key in H as (Hx & Hy & _). now split. Qed.

Lemma feq_sym x y : feq x y = true -> feq y x = true.
Proof.
  intros H. apply eqb_key in H as (Hx & Hy & Hk).
  apply eqb_key. now repeat split.
Qed.

Lemma feq_trans x y z : feq x y = true -> feq y z = true -> feq x z = true.
Proof.
  intros H1 H2. apply eqb_key in H1 as (Hx & Hy & Hk1).
  apply eqb_key in H2 as (_ & Hz & Hk2).
  apply eqb_key. repeat split; congruence.
Qed.

Lemma fle_numbers x y : fle x y -> is_number x /\ is_number y.
Proof. intros H. apply leb_key in H as (Hx & Hy & _). now split. Qed.

Lemma fle_refl x : is_number x -> fle x x.
Proof.
  intros H. apply leb_key. split; [exact H |]. split; [exact H |].
  open_keys. lia.
Qed.

Lemma fle_trans x y z : fle x y -> fle y z -> fle x z.
Proof.
  intros H1 H2. apply leb_key in H1 as (Hx & Hy & Hk1).
  apply leb_key in H2 as (_ & Hz & Hk2).
  apply leb_key. split; [exact Hx |]. split; [exact Hz |].
  open_keys. lia.
Qed.

Lemma fle_total x y : is_number x -> is_number y -> fle x y \/ fle y x.
Proof.
  intros Hx Hy.
  destruct (PrimFloat.leb x y) eqn:E; [now left |]. right.
  apply leb_key. split; [exact Hy |]. split; [exact Hx |].
  intros Hlt. assert (Hle : PrimFloat.leb x y = true); [| congruence].
  apply leb_key. split; [exact Hx |]. split; [exact Hy |].
  open_keys. lia.
Qed.

Lemma feq_fle x y : feq x y = true -> fle x y.
Proof.
  intros H. apply eqb_key in H as (Hx & Hy & Hk).
  apply leb_key. split; [exact Hx |]. split; [exact Hy |].
  rewrite Hk. open_keys. lia.
Qed.

Lemma flt_fle x y : flt x y -> fle x y.
Proof.
  intros H. apply ltb_key in H as (Hx & Hy & Hk).
  apply leb_key. split; [exact Hx |]. split; [exact Hy |].
  open_keys. lia.
Qed.

Lemma fle_not_feq_flt x y : fle x y -> feq x y = false -> flt x y.
Proof.
  intros H Hne. apply leb_key in H as (Hx & Hy & Hk).
  apply ltb_key. split; [exact Hx |]. split; [exact Hy |].
  assert (Hkk : fkey x <> fkey y).
  { intros E. unfold feq in Hne.
    rewrite (proj2 (eqb_key x y)) in Hne by now repeat split.
    discriminate. }
  open_keys.
  match type of Hkk with
  | (?a, ?b, ?c) <> (?a', ?b', ?c') =>
      assert (~ (a = a' /\ b = b' /\ c = c'))
        by (intros (-> & -> & ->); now apply Hkk)
  end.
  lia.
Qed.

Lemma flt_not_feq x y : flt x y -> feq x y = false.
Proof.
  intros H. apply ltb_key in H as (Hx & Hy & Hk).
  destruct (feq x y) eqn:E; [| reflexivity]. exfalso.
  apply eqb_key in E as (_ & _ & Ek). rewrite Ek in Hk.
  open_keys. lia.
Qed.

Lemma fle_feq_r x y z : fle x y -> feq y z = true -> fle x z.
Proof. intros H1 H2. apply (fle_trans x y z H1). now apply feq_fle. Qed.

Lemma fle_feq_l x y z : feq x y = true -> fle y z -> fle x z.
Proof. intros H1 H2. apply (fle_trans x y z); [now apply feq_fle | exact H2]. Qed.

(** *** The values [unique()] identifies *)

Lemma same_value_refl x : same_value x x = true.
Proof.
  unfold same_value, feq, PrimFloat.is_nan.
  now destruct (PrimFloat.eqb x x).
Qed.

Lemma same_value_number x y :
  is_number x \/ is_number y -> same_value x y = feq x y.
Proof.
  unfold same_value, is_number. intros [-> | ->]; cbn;
    rewrite ?andb_false_r; apply orb_false_r.
Qed.

Lemma same_value_cases x y :
  same_value x y = true <->
  feq x y = true
  \/ (PrimFloat.is_nan x = true /\ PrimFloat.is_nan y = true).
Proof.
  unfold same_value. rewrite orb_true_iff, andb_true_iff. reflexivity.
Qed.

Lemma same_value_sym x y : same_value x y = same_value y x.
Proof.
  apply eq_true_iff_eq. rewrite !same_value_cases.
  split; (intros [H | [H1 H2]]; [left; now apply feq_sym | right; now split]).
Qed.

Lemma same_value_trans x y z :
  same_value x y = true -> same_value y z = true -> same_value x z = true.
Proof.
  rewrite !same_value_cases. intros [H1 | [H1 H1']] [H2 | [H2 H2']].
  - left. now apply (feq_trans x y z).
  - apply feq_numbers in H1 as [_ Hy]. unfold is_number in Hy. congruence.
  - apply feq_numbers in H2 as [Hy _]. unfold is_number in Hy. congruence.
  - right. now split.
Qed.

(** *** Sorting by insertion meets what is relied on of [sorted] *)

Lemma insert_sorted_perm x l : Permutation (insert_sorted x l) (x :: l).
Proof.
  induction l as [| y l IH]; cbn; [reflexivity |].
  destruct (PrimFloat.leb x y); [reflexivity |].
  rewrite IH. apply perm_swap.
Qed.

Lemma insertion_sort_perm l : Permutation (insertion_sort l) l.
Proof.
  induction l as [| x l IH]; cbn; [reflexivity |].
  rewrite insert_sorted_perm. now constructor.
Qed.

Lemma insert_sorted_sorted x l :
  is_number x -> Forall is_number l ->
  StronglySorted fle l -> StronglySorted fle (insert_sorted x l).
Proof.
  intros Hx Hl Hs. induction Hs as [| y l Hs IH Hy]; cbn.
  - repeat constructor.
  - apply Forall_cons_iff in Hl as [Hy' Hl].
    destruct (PrimFloat.leb x y) eqn:E.
    + constructor; [now constructor |].
      constructor; [exact E |].
      eapply List.Forall_impl; [| exact Hy].
      intros z Hz. now apply (fle_trans x y z).
    + constructor; [now apply IH |].
      assert (Hyx : fle y x).
      { destruct (fle_total x y Hx Hy') as [H | H]; [| exact H].
        unfold fle in H. congruence. }
      apply List.Forall_forall. intros z Hz.
      apply (Permutation_in _ (insert_sorted_perm x l)) in Hz.
      destruct Hz as [<- | Hz]; [exact Hyx |].
      rewrite List.Forall_forall in Hy. now apply Hy.
Qed.

Lemma insertion_sort_sorts : sorts insertion_sort.
Proof.
  split; [exact insertion_sort_perm |].
  intros l Hl. induction l as [| x l IH]; cbn; [constructor |].
  apply Forall_cons_iff in Hl as [Hx Hl].
  apply insert_sorted_sorted; [exact Hx | | now apply IH].
  apply List.Forall_forall. intros y Hy.
  apply (Permutation_in _ (insertion_sort_perm l)) in Hy.
  rewrite List.Forall_forall in Hl. now apply Hl.
Qed.

End Float64Proofs.

(** ** The power and coherence cell of the LIMO notebook *)

Module LimoCellProofs.
Import Py Limo.

Section PowerITC.
Variable trial : Type.
Variable phase_coherence : trial -> Float64.float64.
Variable sorted : list Float64.float64 -> list Float64.float64.
Hypothesis sorted_sorts : Float64.sorts sorted.
Variable coef : trial -> nat -> nat -> nat -> TimeFrequency.C.

Lemma In_unique x l : In x (unique l) -> In x l.
Proof.
  induction l as [| y l IH]; cbn; [tauto |].
  intros [-> | Hin]; [now left |].
  right. apply IH. apply filter_In in Hin. tauto.
Qed.

Lemma In_sorted y l : In y (sorted l) <-> In y l.
Proof.
  destruct sorted_sorts as [Hperm _]. split; apply Permutation_in.
  - apply Hperm.
  - symmetry. apply Hperm.
Qed.

(** Every level is the value of some trial. *)
Lemma level_is_observed limo_epochs lv :
  In lv (levels phase_coherence sorted limo_epochs) ->
  exists e, In e limo_epochs /\ phase_coherence e = lv.
Proof.
  unfold levels. intros Hin.
  apply In_sorted, In_unique, in_map_iff in Hin.
  destruct Hin as (e & <- & He). eauto.
Qed.

(** A level that is a number selects at least the trial it was read
    from; NaN selects nothing. *)
Lemma level_has_trial limo_epochs level :
  In level (levels phase_coherence sorted limo_epochs) ->
  Float64.is_number level ->
  select phase_coherence limo_epochs level <> [].
Proof.
  intros Hin Hnum.
  destruct (level_is_observed limo_epochs level Hin) as (e & He & Heq).
  assert (Hsel : In e (select phase_coherence limo_epochs level)).
  { apply filter_In. split; [exact He |]. rewrite Heq.
    now apply Float64Proofs.feq_refl. }
  intros Hnil. rewrite Hnil in Hsel. destruct Hsel.
Qed.

Lemma last_of_Some {A : Type} (l : list A) :
  match List.last (map Some l) None with
  | None => l = []
  | Some x => In x l
  end.
Proof.
  induction l as [| x l IH]; [reflexivity |].
  destruct l as [| y l]; [now left |].
  change (List.last (map Some (x :: y :: l)) None)
    with (List.last (map Some (y :: l)) None).
  destruct (List.last (map Some (y :: l)) None); [now right | discriminate].
Qed.

Lemma levels_nil limo_epochs :
  levels phase_coherence sorted limo_epochs = [] -> limo_epochs = [].
Proof.
  destruct limo_epochs as [| e l]; [reflexivity |].
  intros Hnil. exfalso.
  assert (Hin : In (phase_coherence e)
                  (levels phase_coherence sorted (e :: l))).
  { apply In_sorted. now left. }
  rewrite Hnil in Hin. destruct Hin.
Qed.

Lemma all_numbers_level limo_epochs lv :
  all_numbers phase_coherence limo_epochs ->
  In lv (levels phase_coherence sorted limo_epochs) ->
  Float64.is_number lv.
Proof.
  intros Hall Hin.
  destruct (level_is_observed limo_epochs lv Hin) as (e & He & <-).
  unfold all_numbers in Hall. rewrite List.Forall_forall in Hall.
  now apply Hall.
Qed.

(** The cell stops with [IndexError] exactly when there is no epoch at all;
    otherwise, when no phase-coherence value is NaN, both subsets handed to
    [tfr_morlet] are non-empty and both coherence arrays lie in [0, 1] at
    every channel, frequency and time bin. *)
Lemma cell_power_itc_outcome (limo_epochs : list trial) :
  match cell_power_itc phase_coherence sorted coef limo_epochs with
  | inl e => e = IndexError /\ limo_epochs = []
  | inr (high, low) =>
      exists highest lowest,
        high = TimeFrequency.tfr_morlet trial coef
                 (select phase_coherence limo_epochs highest)
        /\ low = TimeFrequency.tfr_morlet trial coef
                   (select phase_coherence limo_epochs lowest)
        /\ (all_numbers phase_coherence limo_epochs ->
            select phase_coherence limo_epochs highest <> []
            /\ select phase_coherence limo_epochs lowest <> []
            /\ forall ch f t, (0 <= snd high ch f t <= 1)%R
                              /\ (0 <= snd low ch f t <= 1)%R)
  end.
Proof.
  unfold cell_power_itc.
  pose proof (last_of_Some (levels phase_coherence sorted limo_epochs))
    as Hlast.
  destruct (List.last (map Some (levels phase_coherence sorted limo_epochs))
              None) as [highest |].
  - destruct (List.head (levels phase_coherence sorted limo_epochs))
      as [lowest |] eqn:Hlo.
    + assert (Hlo_in : In lowest (levels phase_coherence sorted limo_epochs)).
      { destruct (levels phase_coherence sorted limo_epochs);
          [discriminate |]. cbn in Hlo. injection Hlo as ->. now left. }
      exists highest, lowest. split; [reflexivity |]. split; [reflexivity |].
      intros Hall.
      assert (Hhi : select phase_coherence limo_epochs highest <> []).
      { apply level_has_trial; [exact Hlast |].
        now apply (all_numbers_level limo_epochs). }
      assert (Hlow : select phase_coherence limo_epochs lowest <> []).
      { apply level_has_trial; [exact Hlo_in |].
        now apply (all_numbers_level limo_epochs). }
      split; [exact Hhi |]. split; [exact Hlow |]. intros ch f t.
      cbn [snd TimeFrequency.tfr_morlet].
      split; now apply TimeFrequencyProofs.itc_bounds.
    + destruct (levels phase_coherence sorted limo_epochs);
        [destruct Hlast | discriminate].
  - split; [reflexivity |]. now apply levels_nil.
Qed.

End PowerITC.
End LimoCellProofs.

(** The run in the silent world reaches the cell and stops there. *)
Lemma windows_cell_stops_the_run_witness :
  cooperative silent_world
  /\ exists k, Py.run_all (Decoding.notebook silent_world)
               = (Some (Decoding.windows_cell_index, Py.NameError "X"), k).
Proof.
  assert (Hc : cooperative silent_world).
  { split; intros; eexists; reflexivity. }
  split; [exact Hc |].
  exact (proj2 (DecodingProofs.windows_cell_stops_the_run silent_world) Hc).
Defined.

(** Two windows of shape (2, 3): the model gets 2 channels and 3 samples. *)
Lemma shape_mismatch_unreachable_witness :
  Braindecode.uniform [Braindecode.example_window; Braindecode.example_window]
  /\ Braindecode.shape_mismatch (Braindecode.Shallow 2 4 3 Braindecode.Auto)
       [Braindecode.example_window; Braindecode.example_window] = false.
Proof.
  assert (Hu : Braindecode.uniform
                 [Braindecode.example_window; Braindecode.example_window]).
  { intros w1 w2 H1 H2.
    apply list_elem_of_In in H1. apply list_elem_of_In in H2.
    destruct H1 as [<- | [<- | []]]; destruct H2 as [<- | [<- | []]];
      reflexivity. }
  split; [exact Hu |].
  exact (proj1 (proj2 (BraindecodeProofs.shape_mismatch_unreachable
                         [Braindecode.example_window; Braindecode.example_window]
                         Hu))).
Defined.

(** Two trials, coefficients [3 + 4i] and [-1]. *)
Lemma itc_in_unit_interval_witness :
  [true; false] <> []
  /\ (0 <= snd (TimeFrequency.tfr_morlet bool TimeFrequency.example_coef
                  [true; false]) 0%nat 0%nat 0%nat <= 1)%R.
Proof.
  assert (Hne : [true; false] <> []) by discriminate.
  split; [exact Hne |].
  exact (proj2 (proj2 (TimeFrequencyProofs.itc_in_unit_interval bool
                         TimeFrequency.example_coef [true; false]
                         0%nat 0%nat 0%nat Hne))).
Defined.

(** The example recording (10 Hz, Nyquist 5 Hz) filtered between 1 and 4 Hz. *)
Lemma filter_preserves_shape_witness :
  exists raw',
    MNE.filter MNE.example_taps MNE.example_raw 1 4 = inr raw'
    /\ MNE.n_channels raw' = 2%nat /\ MNE.n_times raw' = 6%nat.
Proof.
  destruct (MNEProofs.filter_preserves_shape MNE.example_taps MNE.example_raw
              1 4 ltac:(reflexivity) ltac:(reflexivity) ltac:(reflexivity))
    as (raw' & Hf & Hc & Ht & _).
  exists raw'. split; [exact Hf |]. split; [exact Hc | exact Ht].
Defined.

(** On the example recording, with events at samples 1 (code 1), 3 (code 1)
    and 4 (code 7), a window of one sample either side and a 150 microvolt
    threshold: the first epoch is retained, the second is dropped for the
    300 microvolt deflection of the EEG channel, the third is ignored. *)
Lemma epochs_reject_by_amplitude_witness :
  (length (MNE.kept (MNE.Epochs MNE.example_raw
                       [MNE.Event 1 1; MNE.Event 3 1; MNE.Event 4 7]
                       MNE.notebook_event_id (- (1 # 10)) (1 # 10)
                       ["eeg"; "eog"] MNE.notebook_reject)) <= 3)%nat
  /\ MNE.drop_log (MNE.Epochs MNE.example_raw
                     [MNE.Event 1 1; MNE.Event 3 1; MNE.Event 4 7]
                     MNE.notebook_event_id (- (1 # 10)) (1 # 10)
                     ["eeg"; "eog"] MNE.notebook_reject)
     = [[]; ["EEG 001"]; ["IGNORED"]].
Proof.
  split.
  - exact (proj1 (MNEProofs.epochs_reject_by_amplitude MNE.example_raw
                    [MNE.Event 1 1; MNE.Event 3 1; MNE.Event 4 7]
                    MNE.notebook_event_id (- (1 # 10)) (1 # 10)
                    ["eeg"; "eog"] MNE.notebook_reject)).
  - vm_compute. reflexivity.
Defined.

(** ** Rules for loops and comprehensions *)

Module PyLoopRules.
Import Py PyRules PyLoops.
Local Open Scope py_scope.

Section Rules.
Context {obj : Type} (w : world obj).

Lemma after_loop {A : Type} (F : exn -> kernel obj -> Prop) (I : kernel obj -> Prop)
  (step : obj -> M obj A) vs N C (K : (exn + list A) * kernel obj -> Prop) :
  (forall e k', F e k' -> K (inl e, k')) ->
  (forall v N0 C0, I (Kernel N0 C0) ->
     after (step v) (Kernel N0 C0)
       (fun r => match r with
                 | (inl e, k') => F e k'
                 | (inr _, k') => I k'
                 end)) ->
  I (Kernel N C) ->
  (forall rs N1 C1, I (Kernel N1 C1) -> K (inr rs, Kernel N1 C1)) ->
  after (loop step vs) (Kernel N C) K.
Proof.
  intros Hfail Hstep HI Hdone. unfold after.
  revert N C HI K Hfail Hdone.
  induction vs as [| v vs IH]; intros N C HI K Hfail Hdone.
  - apply Hdone, HI.
  - cbn [loop]. unfold bind at 1.
    specialize (Hstep v N C HI). unfold after in Hstep.
    destruct (step v (Kernel N C)) as [[e | r] [N1 C1]].
    + now apply Hfail.
    +       apply (IH N1 C1 Hstep
               (fun r' => K (match r' with
                             | (inl e, k') => (inl e, k')
                             | (inr rs, k') => ret (r :: rs) k'
                             end))).
      * intros e k' He. now apply Hfail.
      * intros rs N2 C2 HI2. now apply Hdone.
Qed.

Lemma after_comprehension_loop (F : exn -> kernel obj -> Prop) (I : kernel obj -> Prop)
  x (e : M obj obj) vs N C (K : (exn + list obj) * kernel obj -> Prop) :
  (forall err k', F err k' -> K (inl err, k')) ->
  (forall v N0 C0, I (Kernel N0 C0) ->
     after e (Kernel (<[x := v]> N0) C0)
       (fun r => match r with
                 | (inl err, k') => F err k'
                 | (inr _, k') => I k'
                 end)) ->
  I (Kernel N C) ->
  (forall rs N1 C1, I (Kernel N1 C1) -> K (inr rs, Kernel N1 C1)) ->
  after (comprehension_loop x e vs) (Kernel N C) K.
Proof.
  intros Hfail Hstep HI Hdone. unfold after.
  revert N C HI K Hfail Hdone.
  induction vs as [| v vs IH]; intros N C HI K Hfail Hdone.
  - apply Hdone, HI.
  - cbn [comprehension_loop]. unfold bind at 1. unfold store at 1.
    cbn [ns calls]. unfold bind at 1.
    specialize (Hstep v N C HI). unfold after in Hstep.
    destruct (e (Kernel (<[x := v]> N) C)) as [[err | r] [N1 C1]].
    + now apply Hfail.
    +       apply (IH N1 C1 Hstep
               (fun r' => K (match r' with
                             | (inl e', k') => (inl e', k')
                             | (inr rs, k') => ret (r :: rs) k'
                             end))).
      * intros e' k' He. now apply Hfail.
      * intros rs N2 C2 HI2. now apply Hdone.
Qed.

(** The rest of [Py.comprehension] once the iterable has yielded [vs]. *)
Lemma after_comprehension_tail (F : exn -> kernel obj -> Prop)
  (I : kernel obj -> Prop) x (e : M obj obj) vs N C
  (K : (exn + obj) * kernel obj -> Prop) :
  (forall err k', F err k' -> K (inl err, k')) ->
  (forall v N0 C0, I (Kernel N0 C0) ->
     after e (Kernel (<[x := v]> N0) C0)
       (fun r => match r with
                 | (inl err, k') => F err k'
                 | (inr _, k') => I k'
                 end)) ->
  I (Kernel N C) ->
  (forall N1 C1, I (Kernel N1 C1) ->
     match N !! x with
     | Some old => <[x := old]> N1
     | None => delete x N1
     end = N) ->
  (forall rs N1 C1, I (Kernel N1 C1) ->
     K (inr (display w "list" rs), Kernel N C1)) ->
  after (fun k =>
           let saved := ns k !! x in
           match comprehension_loop x e vs k with
           | (inl err, k') => (inl err, k')
           | (inr rs, k') =>
               let ns' := match saved with
                          | Some old => <[x := old]> (ns k')
                          | None => delete x (ns k')
                          end in
               (inr (display w "list" rs), Kernel ns' (calls k'))
           end) (Kernel N C) K.
Proof.
  intros Hfail Hstep HI Hback Hdone. unfold after. cbv zeta. cbn [ns].
  apply (after_comprehension_loop F I x e vs N C
           (fun r => K (match r with
                        | (inl err, k') => (inl err, k')
                        | (inr rs, k') =>
                            (inr (display w "list" rs),
                             Kernel (match N !! x with
                                     | Some old => <[x := old]> (ns k')
                                     | None => delete x (ns k')
                                     end) (calls k'))
                        end))); try assumption.
  intros rs N1 C1 HI1. cbn [ns calls]. rewrite (Hback N1 C1 HI1).
  exact (Hdone rs N1 C1 HI1).
Qed.

Lemma after_dict_items (F : exn -> kernel obj -> Prop) (I : kernel obj -> Prop)
  (key value : M obj obj) targets vs N C
  (K : (exn + obj) * kernel obj -> Prop) :
  (forall err k', F err k' -> K (inl err, k')) ->
  (forall v N0 C0, I (Kernel N0 C0) ->
     after (bind (bind_targets w targets v)
              (fun _ => bind key (fun a => bind value (fun b =>
                 ret (display w "item" [a; b])))))
       (Kernel N0 C0)
       (fun r => match r with
                 | (inl err, k') => F err k'
                 | (inr _, k') => I k'
                 end)) ->
  I (Kernel N C) ->
  (forall N1 C1, I (Kernel N1 C1) ->
     restore (map (fun x => (x, N !! x)) targets) N1 = N) ->
  (forall items N1 C1, I (Kernel N1 C1) ->
     K (inr (display w "dict" items), Kernel N C1)) ->
  after (dict_items w key value targets vs) (Kernel N C) K.
Proof.
  intros Hfail Hstep HI Hback Hdone. unfold after, dict_items. cbv zeta.
  cbn [ns].
  apply (after_loop F I _ vs N C
           (fun r => K (match r with
                        | (inl err, k') => (inl err, k')
                        | (inr items, k') =>
                            (inr (display w "dict" items),
                             Kernel (restore (map (fun x => (x, N !! x)) targets)
                                       (ns k')) (calls k'))
                        end))); try assumption.
  intros rs N1 C1 HI1. cbn [ns calls]. rewrite (Hback N1 C1 HI1).
  exact (Hdone rs N1 C1 HI1).
Qed.

Lemma after_for_items (F : exn -> kernel obj -> Prop) (I : kernel obj -> Prop)
  targets body vs N C (K : (exn + unit) * kernel obj -> Prop) :
  (forall err k', F err k' -> K (inl err, k')) ->
  (forall v N0 C0, I (Kernel N0 C0) ->
     after (bind (bind_targets w targets v) (fun _ => exec body))
       (Kernel N0 C0)
       (fun r => match r with
                 | (inl err, k') => F err k'
                 | (inr _, k') => I k'
                 end)) ->
  I (Kernel N C) ->
  (forall N1 C1, I (Kernel N1 C1) -> K (inr tt, Kernel N1 C1)) ->
  after (for_items w targets body vs) (Kernel N C) K.
Proof.
  intros Hfail Hstep HI Hdone. unfold for_items.
  apply after_bind.
  apply (after_loop F I _ vs N C); try assumption.
  intros rs N1 C1 HI1. now apply Hdone.
Qed.

(** Unpacking into the names [xs]. *)
Lemma after_unpack xs vs e k (K : (exn + unit) * kernel obj -> Prop) :
  (forall vs', length vs' = length xs -> after (store_all xs vs') k K) ->
  K (inl e, k) ->
  after (if Nat.eqb (length vs) (length xs) then store_all xs vs else raise e)
    k K.
Proof.
  intros Hok Herr. destruct (Nat.eqb (length vs) (length xs)) eqn:E.
  - apply Hok. now apply Nat.eqb_eq.
  - exact Herr.
Qed.

(** *** Namespaces around a loop *)

Lemma bind_all_notin xs (vs : list obj) N y :
  y ∉ xs -> bind_all xs vs N !! y = N !! y.
Proof.
  revert vs N. induction xs as [| x xs IH]; intros vs N Hy; [reflexivity |].
  destruct vs as [| v vs]; [reflexivity |]. cbn [bind_all].
  apply not_elem_of_cons in Hy as [Hne Hy].
  rewrite IH by exact Hy. now apply lookup_insert_ne.
Qed.

Lemma bind_all_agree xs (vs : list obj) M M' :
  length vs = length xs ->
  (forall y, y ∉ xs -> M !! y = M' !! y) ->
  bind_all xs vs M = bind_all xs vs M'.
Proof.
  revert vs M M'. induction xs as [| x xs IH]; intros vs M M' Hlen Hag.
  - destruct vs; [| discriminate]. cbn [bind_all].
    apply map_eq. intros y. apply Hag. apply not_elem_of_nil.
  - destruct vs as [| v vs]; [discriminate |]. cbn [bind_all].
    apply IH; [now injection Hlen |].
    intros y Hy. destruct (decide (x = y)) as [-> | Hne].
    + now rewrite !lookup_insert_eq.
    + rewrite !lookup_insert_ne by exact Hne.
      apply Hag. now apply not_elem_of_cons.
Qed.

(** Rebinding the same names forgets what they were bound to. *)
Lemma bind_all_again xs (vs us : list obj) N :
  length vs = length xs ->
  bind_all xs vs (bind_all xs us N) = bind_all xs vs N.
Proof.
  intros Hlen. apply bind_all_agree; [exact Hlen |].
  intros y Hy. now apply bind_all_notin.
Qed.

Lemma restore_agree xs (M N : gmap string obj) :
  (forall y, y ∉ xs -> M !! y = N !! y) ->
  restore (map (fun x => (x, N !! x)) xs) M = N.
Proof.
  revert M. induction xs as [| x xs IH]; intros M Hag.
  - cbn. apply map_eq. intros y. apply Hag, not_elem_of_nil.
  - cbn [map restore]. destruct (N !! x) as [old |] eqn:Hx.
    + apply IH. intros y Hy. destruct (decide (x = y)) as [-> | Hne].
      * now rewrite lookup_insert_eq.
      * rewrite lookup_insert_ne by exact Hne.
        apply Hag. now apply not_elem_of_cons.
    + apply IH. intros y Hy. destruct (decide (x = y)) as [-> | Hne].
      * now rewrite lookup_delete_eq.
      * rewrite lookup_delete_ne by exact Hne.
        apply Hag. now apply not_elem_of_cons.
Qed.

(** After a comprehension the namespace is the one it started from. *)
Lemma restore_loop_shape xs (N N1 : gmap string obj) :
  loop_shape xs N N1 -> restore (map (fun x => (x, N !! x)) xs) N1 = N.
Proof.
  intros [-> | (vs & _ & ->)]; apply restore_agree.
  - reflexivity.
  - intros y Hy. now apply bind_all_notin.
Qed.

Lemma restore_one x (N N1 : gmap string obj) :
  loop_shape [x] N N1 ->
  match N !! x with
  | Some old => <[x := old]> N1
  | None => delete x N1
  end = N.
Proof.
  intros H. apply (restore_loop_shape [x]) in H. exact H.
Qed.

End Rules.
End PyLoopRules.

(** ** Tactics for whole runs *)

Module RunTactics.
Import Py PyRules PyLoops PyLoopRules.

(** Split a list of known length into its items. *)
Ltac destruct_len vs H :=
  destruct vs as [| ?o vs]; cbn [length] in H;
  [ first [ discriminate H | idtac ]
  | first [ discriminate H
          | apply Nat.succ_inj in H; destruct_len vs H ] ].

Ltac py_more ext imp :=
  first
    [ lazymatch goal with
      | |- after (exec (_ :: ?stmts)) _ _ =>
          (* the statements that follow are set aside while this one runs *)
          let rest := fresh "rest" in
          apply after_exec_cons; set (rest := exec stmts)
      | |- after (if truthy ?w ?o then _ else _) _ _ =>
          lazymatch goal with
          | E : truthy w o = _ |- _ => rewrite E
          | _ => destruct (truthy w o) eqn:?
          end
      | |- after (star _ _) _ _ => unfold star
      | |- after (for_ _ _ _ _) _ _ => unfold for_
      | |- after (dict_comprehension _ _ _ _ _) _ _ => unfold dict_comprehension
      | |- after (comprehension _ _ _ _) _ _ => unfold comprehension
      | |- after (assign_unpack _ _ _) _ _ => unfold assign_unpack
      | |- after (bind_targets _ _ _) _ _ => unfold bind_targets
      | |- after (match iterate ?w ?o with Some _ => _ | None => _ end) _ _ =>
          destruct (iterate w o) as [?vs |]
      | |- after (if Nat.eqb (length ?vs) (length ?xs)
                  then store_all ?xs ?vs else raise _) _ _ =>
          apply after_unpack;
          [ let vs' := fresh "vs" in
            let H := fresh "Hlen" in
            intros vs' H; destruct_len vs' H
          | ]
      | |- after ?rest _ _ => is_var rest; subst rest
      end; cbv beta iota
    | py_step ext imp ].

(** The values the names [xs] have in [N]. *)
Ltac lookups obj N xs :=
  lazymatch xs with
  | [] => constr:(@nil obj)
  | ?x :: ?xs' =>
      let r := eval vm_compute in (N !! x) in
      lazymatch r with
      | Some ?v => let rest := lookups obj N xs' in constr:(v :: rest)
      end
  end.

(** The namespace reached is the one the loop started from, or that one
    with the loop's names rebound. *)
Ltac loop_shape_leaf :=
  lazymatch goal with
  | |- @loop_shape ?obj ?xs ?N ?N1 =>
      first
        [ left; reflexivity
        | let vs := lookups obj N1 xs in
          right; exists vs; split;
          [ reflexivity
          | first [ reflexivity
                  | refine (eq_sym (bind_all_again xs vs _ N eq_refl)) ] ] ]
  end.

(** Enter a loop with the failure condition [F] and the invariant [I]. *)
Ltac py_loop F I :=
  lazymatch goal with
  | |- after (for_items _ _ _ _) _ _ => apply (after_for_items _ F I)
  | |- after (dict_items _ _ _ _ _) _ _ => apply (after_dict_items _ F I)
  | |- after (fun _ => _) _ _ => apply (after_comprehension_tail _ F I)
  end.

Ltac open_shape H :=
  let vals := fresh "vals" in
  let Hlen := fresh "Hlen" in
  destruct H as [-> | (vals & Hlen & ->)];
  [ | destruct_len vals Hlen ].

(** The call log decides nothing about how a run ends: forget it. *)
Ltac forget_calls :=
  lazymatch goal with
  | |- context [Kernel _ ?C] =>
      tryif is_var C then idtac
      else (let C' := fresh "C" in generalize C; intros C')
  end.

(** Objects that are no longer reachable from the kernel state. *)
Ltac forget_objects :=
  repeat match goal with
         | x : ?T |- _ =>
             lazymatch type of T with
             | Prop => fail
             | _ => idtac
             end;
             lazymatch T with
             | world _ => fail
             | _ -> _ => fail
             | Type => fail
             | _ => idtac
             end;
             clear x
         end.

(** Name the namespace a cell starts from. *)
Ltac name_ns :=
  lazymatch goal with
  | |- context [Kernel ?N _] =>
      tryif is_var N then idtac
      else (let N' := fresh "N" in set (N' := N))
  end.

(** Name the call log a cell starts from. *)
Ltac name_calls :=
  lazymatch goal with
  | |- context [Kernel _ ?C] =>
      tryif is_var C then idtac
      else (let C' := fresh "C" in set (C' := C))
  end.

Ltac head_of t :=
  lazymatch t with
  | ?f _ => head_of f
  | _ => t
  end.

(** Unfold the cell that runs next. *)
Ltac open_next_cell :=
  lazymatch goal with
  | |- after (exec ?c) _ _ => let h := head_of c in unfold h
  end.

End RunTactics.

(** ** Runs of the LIMO notebook *)

Module LimoNotebookProofs.
Import Py PyRules PyLoops PyLoopRules RunTactics LimoNotebook.
Import DecodingRun.

Section Run.
Context {obj : Type} (w : world obj).
Variable interp : list string -> M obj unit.

(** Unfold the cell that runs next, and the abbreviations it uses. *)
Ltac open_cell :=
  open_next_cell;
  unfold plot_each_electrode, epochs_at, tfr_of, plot_at, set_title,
    plot_joint_of.

Ltac any_extern := idtac; apply after_external; [intros ? |].
Ltac any_import := idtac; apply after_import_as; [intros ? |].

Lemma topomaps_unparsable : Limo.unparsable Limo.cell_power_topomaps = true.
Proof. vm_compute. reflexivity. Qed.

Lemma after_run_cell_unparsable lines k
  (K : (exn + unit) * kernel obj -> Prop) :
  Limo.unparsable lines = true ->
  K (inl SyntaxError, k) -> after (Limo.run_cell interp lines) k K.
Proof. unfold after, Limo.run_cell. intros ->. trivial. Qed.

(** [Q] is the property claimed of the way the run ends. *)
Ltac stop_leaf Q :=
  idtac;
  lazymatch goal with
  | |- Q (fst (Some _, _)) = true =>
      cbn [fst]; first [ vm_compute; reflexivity | assumption ]
  | |- Q (fst (run_from _ [] _)) = true => vm_compute; reflexivity
  | |- loop_shape _ _ _ => cbn [ns]; loop_shape_leaf
  | |- after (Limo.run_cell _ _) _ _ =>
      apply after_run_cell_unparsable; [exact topomaps_unparsable |]
  end.

Ltac run_on Q := repeat first [ py_more any_extern any_import | stop_leaf Q ].

Ltac next_cell Q :=
  forget_calls; forget_objects; name_ns;
  apply (run_from_cons (fun r : option (nat * exn) * kernel obj =>
                          Q (fst r) = true));
  open_cell; run_on Q.

(** A comprehension of cell [i] with the targets [xs]: afterwards the
    namespace is the one it started from. *)
Ltac through_comprehension Q i xs :=
  lazymatch goal with
  | |- after _ (Kernel ?N _) _ =>
      py_loop (fun (e : exn) (k : kernel obj) => Q (fst (Some (i, e), k)) = true)
              (fun k : kernel obj => loop_shape xs N (ns k))
  end;
  [ intros ? ? HF; cbv beta iota; exact HF
  | let HI := fresh "HI" in
    intros ? ? ? HI; cbn [ns] in HI; open_shape HI; run_on Q
  | cbn [ns]; left; reflexivity
  | let HI := fresh "HI" in
    intros ? ? HI; cbn [ns] in HI;
    first [ exact (restore_loop_shape _ _ _ HI) | exact (restore_one _ _ _ HI) ]
  | intros ? ? ? _; cbv beta iota; run_on Q ].

(** A [for] loop of cell [i] that binds the names [xs]: afterwards they
    are bound if the loop ran at all. *)
Ltac through_for Q i xs :=
  lazymatch goal with
  | |- after _ (Kernel ?N _) _ =>
      py_loop (fun (e : exn) (k : kernel obj) => Q (fst (Some (i, e), k)) = true)
              (fun k : kernel obj => loop_shape xs N (ns k))
  end;
  [ intros ? ? HF; cbv beta iota; exact HF
  | let HI := fresh "HI" in
    intros ? ? ? HI; cbn [ns] in HI; open_shape HI; run_on Q
  | cbn [ns]; left; reflexivity
  | let HI := fresh "HI" in
    intros ? ? HI; cbn [ns] in HI; open_shape HI; cbv beta iota; run_on Q ].

(** The cell that averages per coherence level. *)
Ltac evokeds_cell Q :=
  next_cell Q;
  through_comprehension Q 8%nat ["i"];
  through_comprehension Q 8%nat ["level"; "label"];
  through_for Q 8%nat ["electrode"; "fig"; "ax"].

Lemma run_stops_at_topomaps :
  stops_at_topomaps (fst (run_all (notebook w interp))) = true.
Proof.
  unfold run_all, notebook, cells_before, cells_after, fresh.
  cbn [app].
  do 8 next_cell stops_at_topomaps.
  evokeds_cell stops_at_topomaps.
  all: do 7 next_cell stops_at_topomaps.
Qed.

Lemma run_without_topomaps :
  only_external_errors (fst (run_all (notebook_without_topomaps w))) = true.
Proof.
  unfold run_all, notebook_without_topomaps, cells_before, cells_after, fresh.
  cbn [app].
  do 8 next_cell only_external_errors.
  evokeds_cell only_external_errors.
  all: do 8 next_cell only_external_errors.
  all: next_cell only_external_errors.
  all: through_comprehension only_external_errors 17%nat ["level"; "label"].
  all: through_for only_external_errors 17%nat ["electrode"; "fig"; "ax"].
Qed.

(** X7.  In a top-to-bottom run of the LIMO notebook every cell before the
    placeholder cell finds the names it reads: whatever the libraries (and
    the interpreter handed the placeholder cell) do, the run stops, at the
    placeholder cell with [SyntaxError] or earlier on an error raised by an
    import or by a library routine, and the three cells after it never
    run.  When every import and routine succeeds, the run stops exactly at
    the placeholder cell. *)
Theorem run_stops_at_placeholder_cell :
  (exists i e k,
      run_all (notebook w interp) = (Some (i, e), k)
      /\ (i = topomaps_cell_index /\ e = SyntaxError
          \/ (i < topomaps_cell_index)%nat
             /\ ((exists m, e = ImportError m)
                 \/ (exists r, e = LibraryError r))))
  /\ (forall interp' : list string -> M unit unit,
        fst (run_all (notebook silent_world interp'))
        = Some (topomaps_cell_index, SyntaxError)).
Proof.
  split; [| intros interp'; vm_compute; reflexivity].
  pose proof run_stops_at_topomaps as H.
  destruct (run_all (notebook w interp)) as [[[i e] |] k]; cbn in H;
    [| discriminate].
  exists i, e, k. split; [reflexivity |].
  apply orb_prop in H. destruct H as [H | H];
    apply andb_prop in H; destruct H as [Hi He].
  - left. apply Nat.eqb_eq in Hi. split; [exact Hi |].
    now destruct e.
  - right. apply Nat.leb_le in Hi. split; [unfold topomaps_cell_index; lia |].
    destruct e; try discriminate; eauto.
Qed.

(** X8.  With the placeholder cell taken out, no cell of the LIMO notebook
    reads a name that is unbound (the cells after the placeholder cell use
    nothing it would have bound): whatever the libraries do, the run either
    completes or stops on an error raised by an import or by a library
    routine, never on [NameError].  When every import and routine succeeds
    the run completes. *)
Theorem remaining_cells_find_their_names :
  match fst (run_all (notebook_without_topomaps w)) with
  | None => True
  | Some (_, e) =>
      (exists m, e = ImportError m) \/ (exists r, e = LibraryError r)
  end
  /\ fst (run_all (notebook_without_topomaps silent_world)) = None.
Proof.
  split; [| vm_compute; reflexivity].
  pose proof run_without_topomaps as H.
  destruct (fst (run_all (notebook_without_topomaps w))) as [[i e] |];
    [| exact I].
  cbn in H. destruct e; try discriminate; eauto.
Qed.

End Run.
End LimoNotebookProofs.


(** ** Runs of the decoding notebook with [X] and [y] bound *)

Module DecodingRunProofs.
Import Py PyRules PyLoops PyLoopRules RunTactics Decoding DecodingRun.

Lemma seeded_first_other c log :
  String.eqb c "ShallowFBCSPNet()" || String.eqb c ".fit()" = false ->
  seeded_first log = true -> seeded_first (c :: log) = true.
Proof. intros Hc Hlog. cbn [seeded_first]. now rewrite Hc, Hlog. Qed.

Lemma benchmark_enabled_other c log :
  String.eqb ".benchmark=" c = false ->
  benchmark_enabled (c :: log) = benchmark_enabled log.
Proof. intros Hc. unfold benchmark_enabled. cbn [existsb]. now rewrite Hc. Qed.

Section Run.
Context {obj : Type} (w : world obj).

Lemma device_follows_cuda_unbound (k : kernel obj) :
  ns k !! "model" = None -> device_follows_cuda w k.
Proof. unfold device_follows_cuda. now intros ->. Qed.

Lemma device_follows_cuda_bound (k : kernel obj) m c d :
  ns k !! "model" = Some m -> ns k !! "cuda" = Some c ->
  ns k !! "device" = Some d ->
  d = literal w (if truthy w c then "'cuda'" else "'cpu'") ->
  benchmark_enabled (calls k) = truthy w c ->
  device_follows_cuda w k.
Proof. unfold device_follows_cuda. intros -> -> ->. now split. Qed.

Ltac open_cell := open_next_cell.

Ltac any_extern := idtac; apply after_external; [intros ? |].
Ltac any_import := idtac; apply after_import_as; [intros ? |].

(** The log is older entries followed by what has been called since. *)
Ltac seeded_leaf :=
  first [ vm_compute; reflexivity
        | repeat (apply seeded_first_other; [reflexivity |]); assumption ].

Ltac benchmark_leaf :=
  first
    [ match goal with
      | E : truthy _ _ = _ |- _ => rewrite E; vm_compute; reflexivity
      end
    | rewrite ?benchmark_enabled_other by reflexivity; assumption ].

Ltac cuda_leaf :=
  lazymatch goal with
  | |- device_follows_cuda _ (Kernel ?N _) =>
      let r := eval vm_compute in (N !! "model") in
      lazymatch r with
      | None => apply device_follows_cuda_unbound; vm_compute; reflexivity
      | Some ?m =>
          let rc := eval vm_compute in (N !! "cuda") in
          let rd := eval vm_compute in (N !! "device") in
          lazymatch rc with
          | Some ?c =>
              lazymatch rd with
              | Some ?d =>
                  apply (device_follows_cuda_bound _ m c d);
                  [ vm_compute; reflexivity
                  | vm_compute; reflexivity
                  | vm_compute; reflexivity
                  | match goal with
                    | E : truthy _ c = _ |- _ => rewrite E; reflexivity
                    end
                  | cbn [calls]; benchmark_leaf ]
              end
          end
      end
  end.

Ltac invariants_leaf :=
  unfold run_invariants; cbn [fst snd calls];
  split; [ first [ reflexivity | assumption ] | split; [ seeded_leaf | cuda_leaf ] ].

Ltac stop_leaf :=
  idtac;
  lazymatch goal with
  | |- run_invariants _ (Some _, _) => invariants_leaf
  | |- run_invariants _ (run_from _ [] _) => cbn [run_from]; invariants_leaf
  | |- loop_shape _ _ _ /\ _ =>
      cbn [ns calls];
      split; [loop_shape_leaf | split; [seeded_leaf | benchmark_leaf]]
  end.

Ltac run_on := repeat first [ py_more any_extern any_import | stop_leaf ].

Ltac next_cell :=
  forget_objects; name_ns; name_calls;
  apply (run_from_cons (run_invariants w)); open_cell; run_on.

Lemma run_invariants_hold (ox oy : obj) :
  run_invariants w (run_from 0 (notebook w) (with_X_y ox oy)).
Proof.
  unfold notebook, with_X_y.
  do 8 next_cell.
  all: next_cell.
  all: lazymatch goal with
  | E : truthy _ ?c = _ |- after _ (Kernel ?N _) _ =>
      py_loop (fun (e : exn) (k : kernel obj) =>
                 run_invariants w (Some (8%nat, e), k))
              (fun k : kernel obj =>
                 loop_shape ["h"] N (ns k)
                 /\ seeded_first (calls k) = true
                 /\ benchmark_enabled (calls k) = truthy w c)
  end;
  [ intros ? ? HF; cbv beta iota; exact HF
  | intros ? ? ? (HI & Hs & Hb); cbn [ns calls] in HI, Hs, Hb;
    open_shape HI; run_on
  | cbn [ns calls]; split; [left; reflexivity | split; [seeded_leaf | benchmark_leaf]]
  | intros ? ? (HI & _); cbn [ns] in HI; exact (restore_one _ _ _ HI)
  | intros ? ? ? (_ & Hs & Hb); cbn [calls] in Hs, Hb; cbv beta iota; run_on ].
Qed.

Ltac raw_leaf :=
  idtac;
  lazymatch goal with
  | |- raw_released (Some _, _) = true => vm_compute; reflexivity
  end.

Lemma raw_released_bool : raw_released (run_all (notebook w)) = true.
Proof.
  unfold run_all, notebook, fresh.
  do 6 (forget_objects; name_ns; name_calls;
        apply (run_from_cons (fun r : option (nat * exn) * kernel obj =>
                                raw_released r = true));
        open_cell;
        repeat first [ py_more any_extern any_import | raw_leaf ]).
Qed.

Lemma seeded_first_sound log :
  seeded_first log = true ->
  forall i c, log !! i = Some c ->
    c = "ShallowFBCSPNet()" \/ c = ".fit()" ->
    exists j, (i < j)%nat /\ log !! j = Some "set_random_seeds()".
Proof.
  induction log as [| a log IH]; intros H i c Hi Hc; [discriminate |].
  cbn [seeded_first] in H. apply andb_prop in H as [Ha Hlog].
  destruct i as [| i]; cbn in Hi.
  - injection Hi as ->.
    assert (Hc' : (String.eqb c "ShallowFBCSPNet()" || String.eqb c ".fit()")
                  = true).
    { destruct Hc as [-> | ->]; reflexivity. }
    rewrite Hc' in Ha. apply existsb_exists in Ha as (x & Hin & Hx).
    apply String.eqb_eq in Hx. subst x.
    apply list_elem_of_In, list_elem_of_lookup_1 in Hin as [j Hj].
    exists (S j). split; [lia | exact Hj].
  - destruct (IH Hlog i c Hi Hc) as (j & Hlt & Hj).
    exists (S j). split; [lia | exact Hj].
Qed.

Lemma benchmark_enabled_sound log :
  benchmark_enabled log = true <-> ".benchmark=" ∈ log.
Proof.
  unfold benchmark_enabled. split.
  - intros H. apply existsb_exists in H as (x & Hin & Hx).
    apply String.eqb_eq in Hx. subst x. now apply list_elem_of_In.
  - intros Hin. apply existsb_exists. exists ".benchmark=".
    split; [now apply list_elem_of_In |]. apply String.eqb_refl.
Qed.

Lemma external_error_cases e :
  is_external_error e = true ->
  (exists m, e = ImportError m) \/ (exists r, e = LibraryError r).
Proof. destruct e; try discriminate; eauto. Qed.

(** X9.  With [X] and [y] bound by hand, no cell of the decoding notebook
    reads a name that is unbound: whatever the libraries do, a run from
    such a kernel either completes or stops on an error raised by an import
    or by a library routine, never on [NameError].  When every import and
    routine succeeds the run completes. *)
Theorem only_X_and_y_are_missing (ox oy : obj) :
  match fst (run_from 0 (notebook w) (with_X_y ox oy)) with
  | None => True
  | Some (_, e) =>
      (exists m, e = ImportError m) \/ (exists r, e = LibraryError r)
  end
  /\ fst (run_from 0 (notebook silent_world) (with_X_y tt tt)) = None.
Proof.
  split; [| vm_compute; reflexivity].
  destruct (run_invariants_hold ox oy) as (H & _).
  destruct (fst (run_from 0 (notebook w) (with_X_y ox oy))) as [[i e] |];
    [| exact I].
  now apply external_error_cases.
Qed.

(** X12.  In every run of the decoding notebook from a kernel with [X] and
    [y] bound, wherever it stops: each entry of the call log (newest
    first) that records the network constructor or [fit] has an older
    entry that records [set_random_seeds]; the generators are seeded
    before the model is built and before it is trained. *)
Theorem seeds_set_before_model_and_fit (ox oy : obj) (i : nat) (c : string) :
  calls (snd (run_from 0 (notebook w) (with_X_y ox oy))) !! i = Some c ->
  c = "ShallowFBCSPNet()" \/ c = ".fit()" ->
  exists j, (i < j)%nat
            /\ calls (snd (run_from 0 (notebook w) (with_X_y ox oy))) !! j
               = Some "set_random_seeds()".
Proof.
  destruct (run_invariants_hold ox oy) as (_ & H & _).
  now apply seeded_first_sound.
Qed.

(** X13.  In every such run, once the model is bound: [device] is the
    literal ['cuda'] if [cuda] (the result of [torch.cuda.is_available()])
    is true and ['cpu'] otherwise, and [torch.backends.cudnn.benchmark] was
    assigned exactly when [cuda] is true. *)
Theorem device_and_benchmark_follow_cuda (ox oy : obj) :
  let k := snd (run_from 0 (notebook w) (with_X_y ox oy)) in
  match ns k !! "model" with
  | None => True
  | Some _ =>
      exists c,
        ns k !! "cuda" = Some c
        /\ ns k !! "device"
           = Some (literal w (if truthy w c then "'cuda'" else "'cpu'"))
        /\ (".benchmark=" ∈ calls k <-> truthy w c = true)
  end.
Proof.
  intros k. destruct (run_invariants_hold ox oy) as (_ & _ & H).
  fold k in H. unfold device_follows_cuda in H.
  destruct (ns k !! "model"); [| exact I].
  destruct (ns k !! "cuda") as [c |]; [| contradiction].
  destruct (ns k !! "device") as [d |]; [| contradiction].
  destruct H as [-> Hb]. exists c. split; [reflexivity |].
  split; [reflexivity |].
  rewrite <- Hb. symmetry. apply benchmark_enabled_sound.
Qed.

(** X11.  In a top-to-bottom run of the decoding notebook that got past the
    cell that loads, filters and epochs the recording, the name [raw] is
    unbound again ([del raw]) while [epochs] and [events] are bound,
    whatever the libraries do. *)
Theorem raw_is_released_after_epoching i e (k : kernel obj) :
  run_all (notebook w) = (Some (i, e), k) ->
  (load_cell_index < i)%nat ->
  ns k !! "raw" = None
  /\ is_Some (ns k !! "epochs") /\ is_Some (ns k !! "events").
Proof.
  intros Hrun Hi. pose proof raw_released_bool as H.
  rewrite Hrun in H. cbn [raw_released] in H.
  destruct (Nat.leb i load_cell_index) eqn:Hle.
  - apply Nat.leb_le in Hle. lia.
  - apply andb_prop in H as [H Hev]. apply andb_prop in H as [Hraw Hep].
    unfold unbound in Hraw, Hep, Hev.
    destruct (ns k !! "raw"); [discriminate |].
    destruct (ns k !! "epochs"); [| discriminate].
    destruct (ns k !! "events"); [| discriminate].
    eauto.
Qed.

(** X10.  The fit cell calls [fit] once, outside any loop or handler.  In a
    world where [fit] raises, a run from a kernel with [X] and [y] bound
    stops at the fit cell at the latest; [fit] is entered at most once,
    and exactly once, at the fit cell, when its error is what stopped the
    run; the training history is never read and no results table is
    built. *)
Theorem failed_fit_ends_the_run (ox oy : obj) :
  (forall args, extern w ".fit()" args = None) ->
  exists i e k,
    run_from 0 (notebook w) (with_X_y ox oy) = (Some (i, e), k)
    /\ (i <= fit_cell_index)%nat
    /\ (times_called ".fit()" (calls k) <= 1)%nat
    /\ (e = LibraryError ".fit()" ->
        i = fit_cell_index /\ times_called ".fit()" (calls k) = 1%nat)
    /\ (".history" ∉ calls k)
    /\ (".DataFrame()" ∉ calls k).
Proof.
  intros Hfit.
  pose proof (DecodingProofs.failed_fit_is_final_bool w ox oy Hfit) as H.
  destruct (run_from 0 (notebook w) (with_X_y ox oy)) as [[[i e] |] k];
    unfold fit_failure_is_final in H; cbv beta iota in H; [| discriminate].
  exists i, e, k. split; [reflexivity |].
  apply andb_prop in H as [H Hdf]. apply andb_prop in H as [H Hhist].
  apply andb_prop in H as [H He]. apply andb_prop in H as [Hi Hn].
  apply Nat.leb_le in Hi. apply Nat.leb_le in Hn.
  split; [exact Hi |]. split; [exact Hn |].
  split; [| split; now apply DecodingProofs.never_called_sound].
  intros ->. rewrite String.eqb_refl in He. cbn [negb orb] in He.
  apply andb_prop in He as [Hi' Hn']. apply Nat.eqb_eq in Hi', Hn'.
  now split.
Qed.

End Run.
End DecodingRunProofs.

(** ** The coherence levels and the per-level averages *)

Module LimoLevelsProofs.
Import Py Limo LimoLevels Float64.

Lemma filter_distinct (f : float64 -> bool) l :
  distinct l -> distinct (List.filter f l).
Proof.
  induction 1 as [| a l Ha _ IH]; cbn; [constructor |].
  destruct (f a); [| exact IH].
  constructor; [| exact IH].
  rewrite List.Forall_forall in *. intros y Hy. apply filter_In in Hy.
  apply Ha. tauto.
Qed.

Lemma unique_distinct l : distinct (unique l).
Proof.
  induction l as [| x l IH]; cbn; [constructor |].
  constructor; [| now apply filter_distinct].
  apply List.Forall_forall. intros y Hy. apply filter_In in Hy.
  destruct Hy as [_ Hy]. now apply negb_true_iff in Hy.
Qed.

Lemma unique_covers y l :
  In y l -> exists y', In y' (unique l) /\ same_value y' y = true.
Proof.
  induction l as [| x l IH]; [intros [] |].
  intros [-> | Hin].
  - exists y. split; [now left | apply Float64Proofs.same_value_refl].
  - destruct (IH Hin) as (y' & Hy' & Heq).
    destruct (same_value x y') eqn:E.
    + exists x. split; [now left |].
      now apply (Float64Proofs.same_value_trans x y' y).
    + exists y'. split; [| exact Heq].
      right. apply filter_In. split; [exact Hy' |]. now rewrite E.
Qed.

Lemma distinct_perm l l' : Permutation l l' -> distinct l -> distinct l'.
Proof.
  induction 1 as [| x l l' Hp IH | x y l | l l' l'' _ IH1 _ IH2]; intros Hd.
  - exact Hd.
  - inversion Hd as [| a l0 Hx Hl]; subst.
    constructor; [| now apply IH].
    eapply Permutation_Forall; eassumption.
  - inversion Hd as [| a l0 Hy Hl]; subst.
    inversion Hl as [| a l0 Hx Hl']; subst.
    inversion Hy as [| a l0 Hyx Hy']; subst.
    constructor; [| now constructor].
    constructor; [| exact Hx].
    now rewrite Float64Proofs.same_value_sym.
  - auto.
Qed.

Lemma distinct_lookup l i j a b :
  distinct l -> i <> j -> l !! i = Some a -> l !! j = Some b ->
  same_value a b = false.
Proof.
  intros Hd. revert i j.
  induction Hd as [| x l Hx _ IH]; intros i j Hij Hi Hj; [discriminate |].
  rewrite List.Forall_forall in Hx.
  destruct i as [| i], j as [| j]; cbn in Hi, Hj.
  - congruence.
  - injection Hi as ->. apply Hx.
    apply list_elem_of_In. eapply list_elem_of_lookup_2. exact Hj.
  - injection Hj as ->. rewrite Float64Proofs.same_value_sym. apply Hx.
    apply list_elem_of_In. eapply list_elem_of_lookup_2. exact Hi.
  - apply (IH i j); [congruence | assumption..].
Qed.

Lemma strongly_sorted_lookup {A : Type} (R : A -> A -> Prop) (l : list A)
  i j a b :
  StronglySorted R l -> (i < j)%nat ->
  l !! i = Some a -> l !! j = Some b -> R a b.
Proof.
  intros Hs. revert i j. induction Hs as [| x l Hs IH Hx]; intros i j Hij Hi Hj.
  - discriminate.
  - destruct j as [| j]; [lia |]. cbn in Hj.
    destruct i as [| i].
    + injection Hi as ->. rewrite List.Forall_forall in Hx.
      apply Hx. apply list_elem_of_In. eapply list_elem_of_lookup_2. exact Hj.
    + cbn in Hi. apply (IH i j); [lia | assumption..].
Qed.

Lemma list_sum_cons a l : list_sum (a :: l) = (a + list_sum l)%nat.
Proof. reflexivity. Qed.

Lemma list_sum_perm l l' : Permutation l l' -> list_sum l = list_sum l'.
Proof.
  induction 1; rewrite ?list_sum_cons; lia.
Qed.

Section Levels.
Variable trial : Type.
Variable phase_coherence : trial -> float64.
Variable sorted : list float64 -> list float64.
Hypothesis sorted_sorts : sorts sorted.

Lemma levels_distinct limo_epochs :
  distinct (levels phase_coherence sorted limo_epochs).
Proof.
  unfold levels. destruct sorted_sorts as [Hperm _].
  eapply distinct_perm; [symmetry; apply Hperm | apply unique_distinct].
Qed.

Lemma levels_sorted limo_epochs :
  all_numbers phase_coherence limo_epochs ->
  StronglySorted fle (levels phase_coherence sorted limo_epochs).
Proof.
  intros Hall. unfold levels. destruct sorted_sorts as [_ Hsorted].
  apply Hsorted. apply List.Forall_forall. intros x Hx.
  apply LimoCellProofs.In_unique, in_map_iff in Hx.
  destruct Hx as (e & <- & He).
  unfold all_numbers in Hall. rewrite List.Forall_forall in Hall.
  now apply Hall.
Qed.

Lemma observed_has_level limo_epochs e :
  In e limo_epochs ->
  exists lv, In lv (levels phase_coherence sorted limo_epochs)
             /\ same_value lv (phase_coherence e) = true.
Proof.
  intros He. unfold levels.
  destruct (unique_covers (phase_coherence e) (map phase_coherence limo_epochs))
    as (lv & Hlv & Heq); [now apply in_map |].
  exists lv. split; [| exact Heq].
  now apply (LimoCellProofs.In_sorted sorted sorted_sorts).
Qed.

Lemma levels_increasing limo_epochs i j a b :
  all_numbers phase_coherence limo_epochs -> (i < j)%nat ->
  levels phase_coherence sorted limo_epochs !! i = Some a ->
  levels phase_coherence sorted limo_epochs !! j = Some b ->
  flt a b.
Proof.
  intros Hall Hij Hi Hj.
  pose proof (strongly_sorted_lookup fle _ i j a b
                (levels_sorted limo_epochs Hall) Hij Hi Hj) as Hle.
  apply Float64Proofs.fle_not_feq_flt; [exact Hle |].
  rewrite <- (Float64Proofs.same_value_number a b).
  - apply (distinct_lookup _ i j a b (levels_distinct limo_epochs));
      [lia | assumption..].
  - left. now apply (Float64Proofs.fle_numbers a b).
Qed.

(** X1.  [levels = sorted(phase_coh.unique())] holds the phase-coherence
    values of the trials, each once: every entry is the value of some
    trial, the value of every trial is the same value as an entry (equal
    under [==], or both NaN), and entries at different positions are
    different values.  When no trial has NaN for its phase coherence the
    list is strictly increasing.  All that is used of [sorted] is that
    it rearranges its argument and orders it when no value is NaN. *)
Theorem levels_strictly_increasing (limo_epochs : list trial) :
  (forall lv, In lv (levels phase_coherence sorted limo_epochs) ->
     exists e, In e limo_epochs /\ phase_coherence e = lv)
  /\ (forall e, In e limo_epochs ->
        exists lv, In lv (levels phase_coherence sorted limo_epochs)
                   /\ same_value lv (phase_coherence e) = true)
  /\ (forall i j a b, i <> j ->
        levels phase_coherence sorted limo_epochs !! i = Some a ->
        levels phase_coherence sorted limo_epochs !! j = Some b ->
        same_value a b = false)
  /\ (all_numbers phase_coherence limo_epochs ->
      forall i j a b, (i < j)%nat ->
        levels phase_coherence sorted limo_epochs !! i = Some a ->
        levels phase_coherence sorted limo_epochs !! j = Some b ->
        flt a b).
Proof.
  split; [| split; [| split]].
  - apply (LimoCellProofs.level_is_observed trial phase_coherence sorted
             sorted_sorts).
  - apply observed_has_level.
  - intros i j a b. apply distinct_lookup, levels_distinct.
  - intros Hall i j a b. now apply levels_increasing.
Qed.

End Levels.

(** *** Which trials the high and the low decomposition use *)

Lemma last_lookup {A : Type} (l : list A) x :
  List.last (map Some l) None = Some x -> l !! (length l - 1)%nat = Some x.
Proof.
  induction l as [| y l IH]; [discriminate |].
  destruct l as [| z l].
  - cbn. now intros [= ->].
  - change (List.last (map Some (y :: z :: l)) None)
      with (List.last (map Some (z :: l)) None).
    intros H. apply IH in H. cbn [length] in *.
    replace (S (S (length l)) - 1)%nat with (S (length l)) by lia.
    replace (S (length l) - 1)%nat with (length l) in H by lia.
    exact H.
Qed.

Section Extremes.
Variable trial : Type.
Variable phase_coherence : trial -> float64.
Variable sorted : list float64 -> list float64.
Hypothesis sorted_sorts : sorts sorted.
Variable coef : trial -> nat -> nat -> nat -> TimeFrequency.C.

Lemma head_lookup {A : Type} (l : list A) x :
  List.head l = Some x -> l !! 0%nat = Some x.
Proof. destruct l; [discriminate |]. cbn. now intros [= ->]. Qed.

Lemma level_bounds limo_epochs lowest highest e :
  all_numbers phase_coherence limo_epochs ->
  List.head (levels phase_coherence sorted limo_epochs) = Some lowest ->
  List.last (map Some (levels phase_coherence sorted limo_epochs)) None
  = Some highest ->
  In e limo_epochs ->
  fle lowest (phase_coherence e) /\ fle (phase_coherence e) highest.
Proof.
  intros Hall Hlo Hhi He.
  destruct (observed_has_level trial phase_coherence sorted sorted_sorts
              limo_epochs e He) as (lv & Hlv & Heq).
  assert (Hnum : is_number lv)
    by (now apply (LimoCellProofs.all_numbers_level trial phase_coherence
                     sorted sorted_sorts limo_epochs)).
  rewrite Float64Proofs.same_value_number in Heq by (now left).
  apply list_elem_of_In, list_elem_of_lookup in Hlv. destruct Hlv as [i Hi].
  pose proof (levels_sorted trial phase_coherence sorted sorted_sorts
                limo_epochs Hall) as Hs.
  apply last_lookup in Hhi. apply head_lookup in Hlo.
  pose proof (lookup_lt_Some _ _ _ Hi) as Hlen.
  split.
  - apply (Float64Proofs.fle_feq_r _ lv); [| exact Heq].
    destruct i as [| i].
    + rewrite Hlo in Hi. injection Hi as ->.
      now apply Float64Proofs.fle_refl.
    + apply (strongly_sorted_lookup fle _ 0%nat (S i) _ _ Hs);
        [lia | assumption..].
  - apply (Float64Proofs.fle_feq_l _ lv);
      [now apply Float64Proofs.feq_sym |].
    destruct (Nat.eq_dec i
                (length (levels phase_coherence sorted limo_epochs) - 1)%nat)
      as [-> | Hne].
    + rewrite Hhi in Hi. injection Hi as ->.
      now apply Float64Proofs.fle_refl.
    + apply (strongly_sorted_lookup fle _ i
               (length (levels phase_coherence sorted limo_epochs) - 1)%nat
               _ _ Hs); [lia | assumption..].
Qed.


(** *** The level subsets partition the trials *)

Lemma select_cons e es lv :
  select phase_coherence (e :: es) lv
  = if feq (phase_coherence e) lv
    then e :: select phase_coherence es lv
    else select phase_coherence es lv.
Proof. reflexivity. Qed.

Lemma no_level_matches (L : list float64) q :
  (forall lv, In lv L -> feq q lv = false) ->
  list_sum (map (fun lv => if feq q lv then 1%nat else 0%nat) L) = 0%nat.
Proof.
  induction L as [| z L IH]; intros H; [reflexivity |].
  cbn [map]; rewrite list_sum_cons.
  rewrite (H z (or_introl eq_refl)). cbn. apply IH.
  intros lv Hlv. apply H. now right.
Qed.

(** A value that is a number is matched by exactly one of the distinct
    values that cover it, NaN by none. *)
Lemma one_level_matches (L : list float64) q lv0 :
  distinct L -> In lv0 L -> same_value lv0 q = true ->
  list_sum (map (fun lv => if feq q lv then 1%nat else 0%nat) L)
  = if PrimFloat.is_nan q then 0%nat else 1%nat.
Proof.
  destruct (PrimFloat.is_nan q) eqn:Hq.
  { intros _ _ _. apply no_level_matches. intros lv _.
    destruct (feq q lv) eqn:E; [| reflexivity].
    apply Float64Proofs.feq_numbers in E as [E _].
    unfold is_number in E. congruence. }
  intros Hd. revert lv0. induction Hd as [| x L Hx _ IH]; intros lv0 Hin Heq.
  - destruct Hin.
  - rewrite Float64Proofs.same_value_number in Heq by (now right).
    cbn [map]; rewrite list_sum_cons. rewrite List.Forall_forall in Hx.
    destruct Hin as [-> | Hin].
    + rewrite (Float64Proofs.feq_sym _ _ Heq).
      rewrite no_level_matches; [reflexivity |].
      intros z Hz. destruct (feq q z) eqn:Ez; [| reflexivity].
      pose proof (Hx z Hz) as Hne.
      rewrite Float64Proofs.same_value_number in Hne
        by (right; now apply (Float64Proofs.feq_numbers q z)).
      rewrite (Float64Proofs.feq_trans lv0 q z Heq Ez) in Hne.
      discriminate.
    + assert (E : feq q x = false).
      { destruct (feq q x) eqn:E; [| reflexivity].
        pose proof (Hx lv0 Hin) as Hne.
        rewrite Float64Proofs.same_value_number in Hne
          by (right; now apply (Float64Proofs.feq_numbers lv0 q)).
        rewrite (Float64Proofs.feq_trans x q lv0) in Hne;
          [discriminate | now apply Float64Proofs.feq_sym |
           now apply Float64Proofs.feq_sym]. }
      rewrite E. cbn. apply (IH lv0 Hin).
      rewrite Float64Proofs.same_value_number by (now right). exact Heq.
Qed.

Lemma subsets_partition (L : list float64) (es : list trial) :
  distinct L ->
  (forall e, In e es ->
     exists lv, In lv L /\ same_value lv (phase_coherence e) = true) ->
  list_sum (map (fun lv => length (select phase_coherence es lv)) L)
  = length (List.filter (fun e => negb (PrimFloat.is_nan (phase_coherence e)))
              es).
Proof.
  intros Hd. induction es as [| e es IH]; intros Hcov.
  - clear Hd Hcov. induction L as [| x L IHL]; [reflexivity |].
    cbn [map]; rewrite !list_sum_cons. rewrite IHL. reflexivity.
  - assert (Hsplit :
      list_sum (map (fun lv => length (select phase_coherence (e :: es) lv)) L)
      = (list_sum (map (fun lv => if feq (phase_coherence e) lv
                                  then 1%nat else 0%nat) L)
         + list_sum (map (fun lv => length (select phase_coherence es lv)) L))%nat).
    { clear. induction L as [| x L IHL]; [reflexivity |].
      cbn [map]; rewrite !list_sum_cons. rewrite IHL, select_cons.
      destruct (feq (phase_coherence e) x); cbn [length]; lia. }
    rewrite Hsplit, IH by (intros e' He'; apply Hcov; now right).
    destruct (Hcov e (or_introl eq_refl)) as (lv0 & Hlv0 & Heq).
    rewrite (one_level_matches L _ lv0 Hd Hlv0 Heq).
    cbn [List.filter].
    destruct (PrimFloat.is_nan (phase_coherence e)); reflexivity.
Qed.

Lemma all_numbers_filter limo_epochs :
  all_numbers phase_coherence limo_epochs ->
  List.filter (fun e => negb (PrimFloat.is_nan (phase_coherence e)))
    limo_epochs = limo_epochs.
Proof.
  induction 1 as [| e es He _ IH]; [reflexivity |].
  cbn. unfold is_number in He. now rewrite He, IH.
Qed.

(** X2.  The subsets [limo_epochs[phase_coh == level]], one per level,
    are pairwise disjoint (a trial selected by one level is selected by no
    level at another position) and together hold exactly the trials whose
    phase coherence is not NaN: their sizes add up to the number of those
    trials, which is the number of all trials when no value is NaN.  A
    trial whose value is NaN is selected by no level. *)
Theorem level_subsets_partition (limo_epochs : list trial) :
  list_sum (map (fun lv => length (select phase_coherence limo_epochs lv))
              (levels phase_coherence sorted limo_epochs))
  = length (List.filter
              (fun e => negb (PrimFloat.is_nan (phase_coherence e)))
              limo_epochs)
  /\ (all_numbers phase_coherence limo_epochs ->
      list_sum (map (fun lv => length (select phase_coherence limo_epochs lv))
                  (levels phase_coherence sorted limo_epochs))
      = length limo_epochs)
  /\ (forall i j a b e,
        i <> j ->
        levels phase_coherence sorted limo_epochs !! i = Some a ->
        levels phase_coherence sorted limo_epochs !! j = Some b ->
        In e (select phase_coherence limo_epochs a) ->
        ~ In e (select phase_coherence limo_epochs b))
  /\ (forall e lv,
        PrimFloat.is_nan (phase_coherence e) = true ->
        ~ In e (select phase_coherence limo_epochs lv)).
Proof.
  assert (Hsum :
    list_sum (map (fun lv => length (select phase_coherence limo_epochs lv))
                (levels phase_coherence sorted limo_epochs))
    = length (List.filter
                (fun e => negb (PrimFloat.is_nan (phase_coherence e)))
                limo_epochs)).
  { apply subsets_partition.
    - apply (levels_distinct trial phase_coherence sorted sorted_sorts).
    - apply (observed_has_level trial phase_coherence sorted sorted_sorts). }
  split; [exact Hsum |]. split; [| split].
  - intros Hall. rewrite Hsum. now rewrite all_numbers_filter.
  - intros i j a b e Hij Hi Hj Ha Hb.
    unfold select in Ha, Hb. apply filter_In in Ha, Hb.
    destruct Ha as [_ Ha], Hb as [_ Hb].
    pose proof (distinct_lookup _ i j a b
                  (levels_distinct trial phase_coherence sorted sorted_sorts
                     limo_epochs) Hij Hi Hj) as Hne.
    rewrite Float64Proofs.same_value_number in Hne
      by (left; now apply (Float64Proofs.feq_numbers (phase_coherence e) a)).
    rewrite (Float64Proofs.feq_trans a (phase_coherence e) b) in Hne;
      [discriminate | now apply Float64Proofs.feq_sym | exact Hb].
  - intros e lv Hnan Hin. unfold select in Hin. apply filter_In in Hin.
    destruct Hin as [_ Hin].
    apply Float64Proofs.feq_numbers in Hin as [Hin _].
    unfold is_number in Hin. congruence.
Qed.

End Extremes.

(** *** The dict of evoked responses *)

Section Evokeds.
Variable trial : Type.
Variable phase_coherence : trial -> float64.
Variable sorted : list float64 -> list float64.
Variable evoked : Type.
Variable average : list trial -> exn + evoked.

Lemma average_each_items es pairs items :
  average_each phase_coherence average es pairs = inr items ->
  Forall2 (fun pair item =>
             fst item = snd pair
             /\ average (select phase_coherence es (fst pair)) = inr (snd item))
    pairs items.
Proof.
  revert items. induction pairs as [| [lv label] pairs IH]; intros items H.
  - cbn in H. injection H as <-. constructor.
  - cbn in H.
    destruct (average (select phase_coherence es lv)) as [e | ev] eqn:Hav;
      [discriminate |].
    destruct (average_each phase_coherence average es pairs) as [e | rest];
      [discriminate |].
    injection H as <-. constructor; [now split | now apply IH].
Qed.

Lemma average_each_error es pairs err :
  average_each phase_coherence average es pairs = inl err ->
  exists i lv label,
    pairs !! i = Some (lv, label)
    /\ average (select phase_coherence es lv) = inl err
    /\ forall j lv' label', (j < i)%nat -> pairs !! j = Some (lv', label') ->
         exists ev, average (select phase_coherence es lv') = inr ev.
Proof.
  induction pairs as [| [lv label] pairs IH]; intros H; [discriminate |].
  cbn in H.
  destruct (average (select phase_coherence es lv)) as [e | ev] eqn:Hav.
  - injection H as ->. exists 0%nat, lv, label.
    split; [reflexivity |]. split; [exact Hav |]. intros j ? ? Hj. lia.
  - destruct (average_each phase_coherence average es pairs) as [e | rest];
      [| discriminate].
    injection H as ->. destruct (IH eq_refl) as (i & lv0 & label0 & Hi & He & Hbefore).
    exists (S i), lv0, label0. split; [exact Hi |]. split; [exact He |].
    intros [| j] lv' label' Hj Hlk.
    + cbn in Hlk. injection Hlk as <- <-. eauto.
    + cbn in Hlk. apply (Hbefore j lv' label'); [lia | exact Hlk].
Qed.

Lemma combine_lookup {A B : Type} (l1 : list A) (l2 : list B) i a b :
  combine l1 l2 !! i = Some (a, b) <-> l1 !! i = Some a /\ l2 !! i = Some b.
Proof.
  revert l2 i. induction l1 as [| x l1 IH]; intros [| y l2] [| i]; cbn;
    try (split; [discriminate | intros [? ?]; discriminate]).
  - split; [intros [= -> ->]; auto | intros [[= ->] [= ->]]; reflexivity].
  - apply IH.
Qed.

Lemma Forall2_lookup_l' {A B : Type} (P : A -> B -> Prop) l1 l2 i a :
  Forall2 P l1 l2 -> l1 !! i = Some a -> exists b, l2 !! i = Some b /\ P a b.
Proof.
  intros H. revert i. induction H as [| x y l1 l2 Hxy _ IH]; intros [| i] Hi;
    try discriminate.
  - injection Hi as ->. eauto.
  - now apply IH.
Qed.

(** X4.  [zip(levels, labels)] pairs the levels with the 18 labels by
    rank and stops at the shorter list: levels beyond the 18th are never
    averaged.  When the comprehension succeeds the dict has one item per
    level, at most 18; its keys are the first labels in order; the item at
    rank [i] carries label [i] and the average of the trials at level
    [i]. *)
Theorem evokeds_by_rank (limo_epochs : list trial) :
  evokeds phase_coherence sorted average limo_epochs
  = average_each phase_coherence average limo_epochs
      (combine (firstn 18 (levels phase_coherence sorted limo_epochs)) labels)
  /\ forall items,
       evokeds phase_coherence sorted average limo_epochs = inr items ->
       length items = Nat.min (length (levels phase_coherence sorted limo_epochs)) 18
       /\ map fst items
          = firstn (length (levels phase_coherence sorted limo_epochs)) labels
       /\ forall i lv,
            (i < 18)%nat ->
            levels phase_coherence sorted limo_epochs !! i = Some lv ->
            exists label ev,
              labels !! i = Some label
              /\ average (select phase_coherence limo_epochs lv) = inr ev
              /\ items !! i = Some (label, ev).
Proof.
  unfold evokeds. split.
  - f_equal. change 18%nat with (length labels).
    set (L := levels phase_coherence sorted limo_epochs). clearbody L.
    generalize labels as l2. induction L as [| x L IH]; intros [| y l2];
      try reflexivity.
    cbn. f_equal. apply IH.
  - intros items H. apply average_each_items in H.
    set (L := levels phase_coherence sorted limo_epochs) in *.
    assert (Hlen : length items = length (combine L labels))
      by (symmetry; eapply Forall2_length; exact H).
    rewrite length_combine in Hlen. change (length labels) with 18%nat in Hlen.
    split; [exact Hlen |]. split.
    + assert (Hfst : map fst items = map snd (combine L labels)).
      { clear Hlen. induction H as [| p it ps its [Hp _] _ IH]; [reflexivity |].
        cbn. now rewrite Hp, IH. }
      rewrite Hfst. clear. generalize labels as l2.
      induction L as [| x L IH]; intros [| y l2]; try reflexivity.
      cbn. f_equal. apply IH.
    + intros i lv Hi Hlv.
      assert (Hlab : exists label, labels !! i = Some label).
      { apply lookup_lt_is_Some_2. exact Hi. }
      destruct Hlab as [label Hlab].
      assert (Hpair : combine L labels !! i = Some (lv, label))
        by (apply combine_lookup; now split).
      destruct (Forall2_lookup_l' _ _ _ _ _ H Hpair) as ([k ev] & Hit & Hk & Hev).
      cbn in Hk, Hev. subst k. eauto.
Qed.

(** X5.  Nothing in the cell catches an exception: when the dict
    comprehension raises, the error is the one [average()] raised for the
    first level (in the order of [levels], among the first 18) whose
    subset it refuses; the subsets of all levels before it were
    averaged. *)
Theorem evokeds_first_error (limo_epochs : list trial) (err : exn) :
  evokeds phase_coherence sorted average limo_epochs = inl err ->
  exists i lv,
    (i < 18)%nat
    /\ levels phase_coherence sorted limo_epochs !! i = Some lv
    /\ average (select phase_coherence limo_epochs lv) = inl err
    /\ forall j lv', (j < i)%nat ->
         levels phase_coherence sorted limo_epochs !! j = Some lv' ->
         exists ev, average (select phase_coherence limo_epochs lv') = inr ev.
Proof.
  unfold evokeds. intros H.
  destruct (average_each_error _ _ _ H) as (i & lv & label & Hi & He & Hbefore).
  apply combine_lookup in Hi. destruct Hi as [Hlv Hlab].
  assert (Hi18 : (i < 18)%nat) by (apply (lookup_lt_Some labels i label Hlab)).
  exists i, lv. split; [exact Hi18 |]. split; [exact Hlv |]. split; [exact He |].
  intros j lv' Hj Hlv'.
  assert (Hlab' : exists label', labels !! j = Some label').
  { apply lookup_lt_is_Some_2. change (length labels) with 18%nat. lia. }
  destruct Hlab' as [label' Hlab'].
  apply (Hbefore j lv' label' Hj). apply combine_lookup. now split.
Qed.

(** *** Every fifth level *)

Lemma combine_nil_r {A B : Type} (l : list A) : combine l (@nil B) = [].
Proof. now destruct l. Qed.

Lemma stride_combine {A B : Type} (l1 : list A) (l2 : list B) k step :
  combine (stride_from k step l1) (stride_from k step l2)
  = stride_from k step (combine l1 l2).
Proof.
  revert l2 k. induction l1 as [| x l1 IH]; intros l2 k; [reflexivity |].
  destruct l2 as [| y l2].
  - cbn [stride_from combine]. apply combine_nil_r.
  - destruct k as [| k]; cbn [stride_from combine].
    + f_equal. apply IH.
    + apply IH.
Qed.

Lemma average_each_stride es pairs items k step :
  average_each phase_coherence average es pairs = inr items ->
  average_each phase_coherence average es (stride_from k step pairs)
  = inr (stride_from k step items).
Proof.
  revert items k. induction pairs as [| [lv label] pairs IH]; intros items k H.
  - cbn in H. injection H as <-. reflexivity.
  - cbn in H.
    destruct (average (select phase_coherence es lv)) as [e | ev] eqn:Hav;
      [discriminate |].
    destruct (average_each phase_coherence average es pairs) as [e | rest] eqn:Hr;
      [discriminate |].
    injection H as <-. cbn.
    destruct k; [| now apply IH].
    cbn. rewrite Hav. now rewrite (IH rest _ eq_refl).
Qed.

(** X6.  The dict built in the last cell over [levels[1::5]] and
    [labels[1::5]] pairs those levels with the labels of the same ranks:
    it is the comprehension of the first dict restricted to ranks 1, 6,
    11, 16, and when the first comprehension succeeds it holds exactly the
    items of the first dict at those ranks. *)
Theorem evokeds_every_fifth_of_evokeds (limo_epochs : list trial) :
  evokeds_every_fifth phase_coherence sorted average limo_epochs
  = average_each phase_coherence average limo_epochs
      (stride_from 1 5 (combine (levels phase_coherence sorted limo_epochs) labels))
  /\ forall items,
       evokeds phase_coherence sorted average limo_epochs = inr items ->
       evokeds_every_fifth phase_coherence sorted average limo_epochs
       = inr (stride_from 1 5 items).
Proof.
  unfold evokeds_every_fifth, evokeds. rewrite stride_combine.
  split; [reflexivity |]. intros items H. now apply average_each_stride.
Qed.

End Evokeds.
(** *** The band-power cell *)

Section PsdTopomaps.
Variable trial : Type.
Variable phase_coherence : trial -> float64.
Variable sorted : list float64 -> list float64.
Hypothesis sorted_sorts : sorts sorted.
Variable coef : trial -> nat -> nat -> nat -> TimeFrequency.C.

(** X14.  The cell that maps band power indexes [levels[0]] first: with no
    trials it stops with [IndexError] before anything is plotted.
    Otherwise it plots the trials selected by [levels[0]] and then, if that
    succeeded, those selected by [levels[-1]]; when no trial has NaN for
    its phase coherence these are the lowest and the highest value,
    neither selection is empty and the value of every trial lies between
    the two.  Whenever this cell completes, the later power/ITC cell does
    not stop on its indexing of [levels]. *)
Theorem psd_topomaps_use_extreme_levels
  (plot_psd_topomap : list trial -> exn + unit) (limo_epochs : list trial) :
  match limo_epochs with
  | [] =>
      cell_psd_topomaps phase_coherence sorted plot_psd_topomap []
      = inl IndexError
  | _ :: _ =>
      exists lowest highest,
        cell_psd_topomaps phase_coherence sorted plot_psd_topomap limo_epochs
        = match plot_psd_topomap (select phase_coherence limo_epochs lowest) with
          | inl e => inl e
          | inr _ =>
              plot_psd_topomap (select phase_coherence limo_epochs highest)
          end
        /\ (all_numbers phase_coherence limo_epochs ->
            select phase_coherence limo_epochs lowest <> []
            /\ select phase_coherence limo_epochs highest <> []
            /\ forall e, In e limo_epochs ->
                 fle lowest (phase_coherence e)
                 /\ fle (phase_coherence e) highest)
  end
  /\ (forall r,
        cell_psd_topomaps phase_coherence sorted plot_psd_topomap limo_epochs
        = inr r ->
        exists p, cell_power_itc phase_coherence sorted coef limo_epochs
                  = inr p).
Proof.
  pose proof (LimoCellProofs.last_of_Some
                (levels phase_coherence sorted limo_epochs)) as Hlast.
  split.
  - destruct limo_epochs as [| e0 es] eqn:Hes.
    { unfold cell_psd_topomaps.
      destruct (levels phase_coherence sorted []) as [| x l] eqn:Hlv;
        [reflexivity |].
      exfalso.
      destruct (LimoCellProofs.level_is_observed trial phase_coherence sorted
                  sorted_sorts [] x) as (e & [] & _).
      rewrite Hlv. now left. }
    rewrite <- Hes in *.
    destruct (levels phase_coherence sorted limo_epochs)
      as [| lowest rest] eqn:Hlv.
    { apply (LimoCellProofs.levels_nil trial phase_coherence sorted
               sorted_sorts) in Hlv.
      rewrite Hes in Hlv. discriminate. }
    destruct (List.last (map Some (lowest :: rest)) None)
      as [highest |] eqn:Hhi; [| discriminate].
    exists lowest, highest. split.
    + unfold cell_psd_topomaps. rewrite Hlv. cbn [List.head].
      now rewrite Hhi.
    + intros Hall. split; [| split].
      * apply (LimoCellProofs.level_has_trial trial phase_coherence sorted
                 sorted_sorts); [rewrite Hlv; now left |].
        apply (LimoCellProofs.all_numbers_level trial phase_coherence sorted
                 sorted_sorts limo_epochs _ Hall). rewrite Hlv. now left.
      * apply (LimoCellProofs.level_has_trial trial phase_coherence sorted
                 sorted_sorts); [now rewrite Hlv |].
        apply (LimoCellProofs.all_numbers_level trial phase_coherence sorted
                 sorted_sorts limo_epochs _ Hall). now rewrite Hlv.
      * intros e He.
        apply (level_bounds trial phase_coherence sorted sorted_sorts
                 limo_epochs lowest highest e Hall);
          [now rewrite Hlv | now rewrite Hlv | exact He].
  - intros r Hr. unfold cell_psd_topomaps in Hr. unfold cell_power_itc.
    destruct (List.head (levels phase_coherence sorted limo_epochs))
      as [lowest |]; [| discriminate].
    destruct (List.last (map Some (levels phase_coherence sorted limo_epochs))
                None) as [highest |]; [eauto |].
    destruct (plot_psd_topomap (select phase_coherence limo_epochs lowest));
      discriminate.
Qed.

End PsdTopomaps.
End LimoLevelsProofs.

(** One trial whose average the library refuses: the comprehension raises
    that error at the first level. *)
Lemma evokeds_first_error_witness :
  exists i lv,
    (i < 18)%nat
    /\ Limo.levels (fun _ : unit => LimoExamples.half) Float64.insertion_sort
         [tt] !! i = Some lv
    /\ Limo.strict_average
         (Limo.select (fun _ : unit => LimoExamples.half) [tt] lv)
       = inl (Py.LibraryError ".average()")
    /\ forall j lv', (j < i)%nat ->
         Limo.levels (fun _ : unit => LimoExamples.half)
           Float64.insertion_sort [tt] !! j = Some lv' ->
         exists ev,
           Limo.strict_average
             (Limo.select (fun _ : unit => LimoExamples.half) [tt] lv')
           = inr ev.
Proof.
  apply (LimoLevelsProofs.evokeds_first_error unit
           (fun _ => LimoExamples.half) Float64.insertion_sort unit
           Limo.strict_average [tt] (Py.LibraryError ".average()")).
  reflexivity.
Defined.

(** Three trials at coherence 0.5, 0.25 and 0.5, sorted by insertion: the
    levels are 0.25 and 0.5, in this order. *)
Lemma levels_strictly_increasing_witness :
  Float64.sorts Float64.insertion_sort
  /\ Limo.all_numbers LimoExamples.coherence LimoExamples.trials
  /\ Float64.flt LimoExamples.quarter LimoExamples.half.
Proof.
  assert (Hall : Limo.all_numbers LimoExamples.coherence LimoExamples.trials)
    by (repeat constructor).
  split; [exact Float64Proofs.insertion_sort_sorts |].
  split; [exact Hall |].
  exact (proj2 (proj2 (proj2
           (LimoLevelsProofs.levels_strictly_increasing bool
              LimoExamples.coherence Float64.insertion_sort
              Float64Proofs.insertion_sort_sorts LimoExamples.trials)))
           Hall 0%nat 1%nat LimoExamples.quarter LimoExamples.half
           ltac:(lia) eq_refl eq_refl).
Defined.

(** The two level subsets of the three trials have three trials in all. *)
Lemma level_subsets_partition_witness :
  Float64.sorts Float64.insertion_sort
  /\ list_sum
       (map (fun lv =>
               length (Limo.select LimoExamples.coherence LimoExamples.trials lv))
          (Limo.levels LimoExamples.coherence Float64.insertion_sort
             LimoExamples.trials))
     = 3%nat.
Proof.
  split; [exact Float64Proofs.insertion_sort_sorts |].
  exact (proj1 (proj2
           (LimoLevelsProofs.level_subsets_partition bool
              LimoExamples.coherence Float64.insertion_sort
              Float64Proofs.insertion_sort_sorts LimoExamples.trials))
           ltac:(repeat constructor)).
Defined.


(** On the three trials the band-power cell completes, and so does the
    indexing of the power/ITC cell. *)
Lemma psd_topomaps_use_extreme_levels_witness :
  Float64.sorts Float64.insertion_sort
  /\ exists p,
       Limo.cell_power_itc LimoExamples.coherence Float64.insertion_sort
         TimeFrequency.example_coef LimoExamples.trials = inr p.
Proof.
  split; [exact Float64Proofs.insertion_sort_sorts |].
  exact (proj2
           (LimoLevelsProofs.psd_topomaps_use_extreme_levels bool
              LimoExamples.coherence Float64.insertion_sort
              Float64Proofs.insertion_sort_sorts TimeFrequency.example_coef
              LimoExamples.plot LimoExamples.trials)
           tt eq_refl).
Defined.

(** The run in which everything but [fit] succeeds. *)
Lemma failed_fit_ends_the_run_witness :
  exists i e k,
    Py.run_from 0 (Decoding.notebook DecodingRun.fit_raises) (with_X_y tt tt)
    = (Some (i, e), k)
    /\ (i <= Decoding.fit_cell_index)%nat
    /\ (Decoding.times_called ".fit()" (Py.calls k) <= 1)%nat
    /\ (e = Py.LibraryError ".fit()" ->
        i = Decoding.fit_cell_index
        /\ Decoding.times_called ".fit()" (Py.calls k) = 1%nat)
    /\ (".history" ∉ Py.calls k)
    /\ (".DataFrame()" ∉ Py.calls k).
Proof.
  apply (DecodingRunProofs.failed_fit_ends_the_run DecodingRun.fit_raises tt tt).
  intros args. reflexivity.
Defined.

(** The run in the silent world stops at the windowed-dataset cell, past
    the loading cell. *)
Lemma raw_is_released_after_epoching_witness :
  Py.ns (snd (Py.run_all (Decoding.notebook silent_world))) !! "raw" = None
  /\ is_Some (Py.ns (snd (Py.run_all (Decoding.notebook silent_world)))
                !! "epochs")
  /\ is_Some (Py.ns (snd (Py.run_all (Decoding.notebook silent_world)))
                !! "events").
Proof.
  apply (DecodingRunProofs.raw_is_released_after_epoching silent_world
           5 (Py.NameError "X")).
  - apply injective_projections; [vm_compute; reflexivity | reflexivity].
  - unfold DecodingRun.load_cell_index. lia.
Defined.

(** In the silent world the log records [fit] at position 58 (newest
    first); the seeding is found further back. *)
Lemma seeds_set_before_model_and_fit_witness :
  exists j, (58 < j)%nat
            /\ Py.calls (snd (Py.run_from 0 (Decoding.notebook silent_world)
                                (with_X_y tt tt))) !! j
               = Some "set_random_seeds()".
Proof.
  apply (DecodingRunProofs.seeds_set_before_model_and_fit silent_world tt tt
           58 ".fit()").
  - vm_compute. reflexivity.
  - right. reflexivity.
Defined.
